(** * Graph-database adapters of graphiti_core.database

    A shallow embedding of
      - graphiti_core/database/db_interface.py   (the adapter contract),
      - graphiti_core/database/neo4j_adapter.py  (Neo4jAdapter),
      - graphiti_core/database/surrealdb_adapter.py (SurrealDBAdapter),
      - graphiti_core/database/db_factory.py     (DatabaseFactory),
    together with the properties of the adapter contract.

    The adapters are [async] methods that mutate [self] and talk to a native
    driver.  A method is embedded as a function from a world (the adapter
    object plus the state of the backend) to an outcome (a returned value or
    a raised exception) and a new world.  The native drivers are not part of
    the repository: they are an interface ([Neo4jDriverAPI],
    [SurrealClientAPI]) every method is parametric in, and two in-memory
    servers implement that interface where a property speaks about what the
    database holds. *)

From stdpp Require Import base option list strings gmap.

Local Open Scope string_scope.
Set Warnings "-register-all,-clear-no-such-hyp".
Set Default Proof Using "Type".

(** ** Python values, exceptions and outcomes *)

Module Py.

(** The values that cross the driver boundary: parameters of a query,
    attribute mappings of records, result envelopes. *)
Inductive pyval : Type :=
| PNone
| PBool (b : bool)
| PInt (z : Z)
| PStr (s : string)
| PList (l : list pyval)
| PDict (d : gmap string pyval).

(** [Dict[str, Any]] *)
Abbreviation pydict := (gmap string pyval).

(** [bool(v)]: None, False, 0, the empty string and empty containers are
    falsy. *)
Definition truthy (v : pyval) : bool :=
  match v with
  | PNone => false
  | PBool b => b
  | PInt z => negb (Z.eqb z 0)
  | PStr s => negb (String.eqb s "")
  | PList l => match l with [] => false | _ :: _ => true end
  | PDict d => negb (bool_decide (d = ∅))
  end.

(** The exception classes the adapters raise, catch or let through.
    [DriverError] and [ClientError] are the two classes imported from
    [neo4j.exceptions]; [OtherException] is any further subclass of
    [Exception]; [BaseExceptionOnly] is a [BaseException] that is not an
    [Exception] (a cancellation), which [except Exception] does not catch. *)
Inductive exn_class : Type :=
| ConnectionError
| PyException
| ValueError
| TypeError
| AttributeError
| KeyError
| DriverError
| ClientError
| OtherException
| BaseExceptionOnly.

Record exn : Type := mk_exn { exn_cls : exn_class; exn_msg : string }.

(** [str(e)] *)
Definition str (e : exn) : string := exn_msg e.

(** [isinstance(e, Exception)] *)
Definition isinstance_Exception (e : exn) : bool :=
  match exn_cls e with BaseExceptionOnly => false | _ => true end.

(** [isinstance(e, DriverError)] *)
Definition isinstance_DriverError (e : exn) : bool :=
  match exn_cls e with DriverError => true | _ => false end.

Inductive outcome (A : Type) : Type :=
| Return (a : A)
| Raise (e : exn).
Arguments Return {A} a.
Arguments Raise {A} e.

(** A method: a state transformer that returns or raises.  The state
    written before an exception is raised stays written, as in Python. *)
Definition M (W A : Type) : Type := W -> outcome A * W.

Definition ret {W A} (a : A) : M W A := fun w => (Return a, w).

Definition raise {W A} (e : exn) : M W A := fun w => (Raise e, w).

Definition bind {W A B} (m : M W A) (k : A -> M W B) : M W B :=
  fun w =>
    match m w with
    | (Return a, w') => k a w'
    | (Raise e, w') => (Raise e, w')
    end.

(** [try: body / except <cls> as e: handler e]; an exception the guard
    does not match propagates. *)
Definition try_except {W A} (body : M W A) (catches : exn -> bool)
    (handler : exn -> M W A) : M W A :=
  fun w =>
    match body w with
    | (Return a, w') => (Return a, w')
    | (Raise e, w') => if catches e then handler e w' else (Raise e, w')
    end.

(** [try: body / finally: cleanup], the shape of [async with]: the cleanup
    always runs, and an exception of the cleanup replaces the outcome of
    the body. *)
Definition finally_ {W A} (body : M W A) (cleanup : M W unit) : M W A :=
  fun w =>
    match body w with
    | (r, w') =>
        match cleanup w' with
        | (Return _, w'') => (r, w'')
        | (Raise e, w'') => (Raise e, w'')
        end
    end.

Definition gets {W A} (f : W -> A) : M W A := fun w => (Return (f w), w).

Definition modify {W} (f : W -> W) : M W unit := fun w => (Return tt, f w).

(** What a native call hands back: an already resolved value (a
    synchronous client) or an awaitable that yields the value or raises
    when awaited (an asynchronous client). *)
Inductive call_result (A : Type) : Type :=
| Resolved (a : A)
| Awaitable (o : outcome A).
Arguments Resolved {A} a.
Arguments Awaitable {A} o.

(** [await x]: a value without [__await__] cannot be awaited. *)
Definition await {W A} (x : call_result A) : M W A :=
  match x with
  | Awaitable (Return a) => ret a
  | Awaitable (Raise e) => raise e
  | Resolved _ =>
      raise (mk_exn TypeError "object can't be used in 'await' expression")
  end.

(** [if hasattr(x, "__await__"): x = await x] *)
Definition maybe_await {W A} (x : call_result A) : M W A :=
  match x with
  | Awaitable o => await (Awaitable o)
  | Resolved a => ret a
  end.

(** [sub in s] on strings *)
Definition contains (s sub : string) : Prop :=
  exists pre post, s = pre ++ sub ++ post.

(** [parameters or {}] *)
Definition or_empty (parameters : option pydict) : pydict :=
  match parameters with
  | Some d => if bool_decide (d = ∅) then ∅ else d
  | None => ∅
  end.

End Py.

Export Py.

#[global] Instance M_ret {W} : MRet (M W) := fun A => @ret W A.
#[global] Instance M_bind {W} : MBind (M W) := fun A B k m => @bind W A B m k.

(** ** The adapter contract (db_interface.py)

    [GraphDBInterface] is generic in the session and result types of the
    backend.  [W] is the world a method runs in, [D] the type of the native
    driver handle. *)

Class GraphDBInterface (W SessionType ResultType D : Type) : Type := {
  connect : string -> string -> string -> M W unit;
  close : M W unit;
  execute_query : string -> option pydict -> M W ResultType;
  get_driver : M W D;
  get_session : M W SessionType;
  build_indices : bool -> M W unit;
  clear_all_data : M W unit;
  get_episodes : M W pyval;
  get_one_episode : string -> M W pyval
}.

(** What a caller of the contract observes of an adapter that refuses to
    work: each of the seven data operations raises [e] and leaves the world
    (the adapter and the backend) as it was. *)
Definition refuses {W SessionType ResultType D : Type}
    `{!GraphDBInterface W SessionType ResultType D} (e : exn) (w : W) : Prop :=
  (forall q p, execute_query q p w = (Raise e, w))
  /\ get_driver w = (Raise e, w)
  /\ get_session w = (Raise e, w)
  /\ (forall delete_existing, build_indices delete_existing w = (Raise e, w))
  /\ clear_all_data w = (Raise e, w)
  /\ get_episodes w = (Raise e, w)
  /\ (forall episode_id, get_one_episode episode_id w = (Raise e, w)).

(** ** Neo4jAdapter (neo4j_adapter.py) *)

Module Neo4j.

(** A value of the single column of [RETURN e]: a node, seen through its
    properties, or null.  [bool(node)] is [len(node) > 0]. *)
Inductive cell : Type :=
| CNull
| CNode (properties : pydict).

Definition cell_truthy (c : cell) : bool :=
  match c with
  | CNull => false
  | CNode p => negb (bool_decide (p = ∅))
  end.

(** The calls the adapter makes on the neo4j driver.  Each may change the
    backend and may raise. *)
Class Neo4jDriverAPI (server drv sess res : Type) : Type := {
  (** [AsyncGraphDatabase.driver(uri, auth=(user, password))] *)
  graph_database_driver :
    string -> string -> string -> server -> outcome drv * server;
  (** [driver.session()] *)
  driver_session : drv -> server -> outcome sess * server;
  (** [await session.run(query, parameters)] *)
  session_run :
    sess -> string -> option pydict -> server -> outcome res * server;
  (** the exit of [async with ... as session] *)
  session_aexit : sess -> server -> outcome unit * server;
  (** [await result.values()] *)
  result_values : res -> server -> outcome (list (list cell)) * server;
  (** [await driver.close()] *)
  driver_close : drv -> server -> outcome unit * server
}.

Section Adapter.
Context {server drv sess res : Type}.
Context `{!Neo4jDriverAPI server drv sess res}.

(** [self.driver: Optional[AsyncDriver]] *)
Record Neo4jAdapter : Type := { driver : option drv }.

Record world : Type := { self : Neo4jAdapter; backend : server }.

(** [Neo4jAdapter()] *)
Definition init : Neo4jAdapter := {| driver := None |}.

Definition call {A} (f : server -> outcome A * server) : M world A :=
  fun w =>
    match f (backend w) with
    | (r, b) => (r, {| self := self w; backend := b |})
    end.

Definition set_driver (d : option drv) : M world unit :=
  modify (fun w => {| self := {| driver := d |}; backend := backend w |}).

(** The two states of the adapter. *)
Definition disconnected (w : world) : Prop := driver (self w) = None.

Definition connected (w : world) : Prop := is_Some (driver (self w)).

Definition not_connected : exn :=
  mk_exn ConnectionError "Not connected to Neo4j".

(** [if not self.driver: raise ConnectionError("Not connected to Neo4j")] *)
Definition require_driver : M world drv :=
  d ← gets (fun w => driver (self w));
  match d with
  | Some d => mret d
  | None => raise not_connected
  end.

(** [async with self.driver.session() as session: body] *)
Definition with_session {A} (d : drv) (body : sess -> M world A)
    : M world A :=
  session ← call (driver_session d);
  finally_ (body session) (call (session_aexit session)).

Definition connection_failure (e : exn) : exn :=
  mk_exn ConnectionError ("Failed to connect to Neo4j: " ++ str e).

(** The body of the [try] of [connect]. *)
Definition connect_body (uri user password : string) : M world unit :=
  d ← call (graph_database_driver uri user password);
  set_driver (Some d);;
  with_session d (fun session =>
    call (session_run session "RETURN 1" None);;
    mret tt).

Definition connect (uri user password : string) : M world unit :=
  try_except
    (connect_body uri user password)
    isinstance_DriverError
    (fun e => raise (connection_failure e)).

Definition close : M world unit :=
  d ← gets (fun w => driver (self w));
  match d with
  | Some d => call (driver_close d);; set_driver None
  | None => mret tt
  end.

Definition get_driver : M world drv := require_driver.

Definition get_session : M world sess :=
  d ← require_driver;
  call (driver_session d).

(** [Exception(f"Error executing Neo4j query: {str(e)}")] *)
Definition query_failure (e : exn) : exn :=
  mk_exn PyException ("Error executing Neo4j query: " ++ str e).

(** The body of the [try] of [execute_query]. *)
Definition execute_query_body (d : drv) (query : string) (params : pydict)
    : M world res :=
  with_session d (fun session =>
    call (session_run session query (Some params))).

Definition execute_query (query : string) (parameters : option pydict)
    : M world res :=
  d ← require_driver;
  let params := or_empty parameters in
  try_except
    (execute_query_body d query params)
    isinstance_Exception
    (fun e => raise (query_failure e)).

(** The statements of [build_indices], in the order they are issued. *)
Definition drop_schema_statement : string :=
  "CALL apoc.schema.assert({}, {}, true)".

Definition constraint_statements : list string :=
  [ "CREATE CONSTRAINT IF NOT EXISTS FOR (n:Episode) REQUIRE n.id IS UNIQUE";
    "CREATE CONSTRAINT IF NOT EXISTS FOR (n:Message) REQUIRE n.id IS UNIQUE";
    "CREATE CONSTRAINT IF NOT EXISTS FOR (n:Entity) REQUIRE n.id IS UNIQUE";
    "CREATE CONSTRAINT IF NOT EXISTS FOR (n:Message) REQUIRE n.timestamp IS NOT NULL";
    "CREATE CONSTRAINT IF NOT EXISTS FOR (n:Episode) REQUIRE n.created_at IS NOT NULL" ].

Definition index_statements : list string :=
  [ "CREATE INDEX IF NOT EXISTS FOR (n:Episode) ON (n.created_at)";
    "CREATE INDEX IF NOT EXISTS FOR (n:Message) ON (n.timestamp)";
    "CREATE INDEX IF NOT EXISTS FOR (n:Message) ON (n.role)";
    "CREATE INDEX IF NOT EXISTS FOR (n:Entity) ON (n.type)";
    "CREATE INDEX IF NOT EXISTS FOR (n:Entity) ON (n.name)" ].

(** A run of consecutive [await session.run(stmt)] lines. *)
Fixpoint run_each (session : sess) (stmts : list string) : M world unit :=
  match stmts with
  | [] => mret tt
  | stmt :: rest =>
      call (session_run session stmt None);;
      run_each session rest
  end.

Definition build_indices (delete_existing : bool) : M world unit :=
  d ← require_driver;
  with_session d (fun session =>
    (if delete_existing
     then call (session_run session drop_schema_statement None);; mret tt
     else mret tt);;
    run_each session constraint_statements;;
    run_each session index_statements).

Definition clear_all_data : M world unit :=
  d ← require_driver;
  with_session d (fun session =>
    call (session_run session "MATCH (n) DETACH DELETE n" None);;
    mret tt).

Definition get_episodes_query : string :=
  "
                MATCH (e:Episode)
                RETURN e
                ORDER BY e.created_at DESC
                ".

(** [if record and record[0]: episodes.append(dict(record[0]))] *)
Definition episode_of_record (record : list cell) : option pydict :=
  match record with
  | CNode p :: _ => if cell_truthy (CNode p) then Some p else None
  | _ => None
  end.

Definition get_episodes : M world pyval :=
  d ← require_driver;
  episodes ← with_session d (fun session =>
    result ← call (session_run session get_episodes_query None);
    records ← call (result_values result);
    mret (omap episode_of_record records));
  mret (PList (PDict <$> episodes)).

Definition get_one_episode_query : string :=
  "
                MATCH (e:Episode {id: $episode_id})
                RETURN e
                ".

(** [if records and records[0] and records[0][0]:
       return dict(records[0][0])] and, past the block, [return None]. *)
Definition first_episode (records : list (list cell)) : pyval :=
  match records with
  | record :: _ => from_option PDict PNone (episode_of_record record)
  | [] => PNone
  end.

Definition get_one_episode (episode_id : string) : M world pyval :=
  d ← require_driver;
  with_session d (fun session =>
    result ← call (session_run session get_one_episode_query
                     (Some {[ "episode_id" := PStr episode_id ]}));
    records ← call (result_values result);
    mret (first_episode records)).

(** The rows carry no episode: there is no row, or the first row is empty,
    or its first cell is null or a node without properties. *)
Definition no_record (records : list (list cell)) : Prop :=
  records = []
  \/ (exists rest, records = [] :: rest)
  \/ (exists c cs rest, records = (c :: cs) :: rest /\ cell_truthy c = false).

(** The driver ran the lookup in a session of [d] and handed back
    [records]. *)
Definition answers (d : drv) (episode_id : string) (s s' : server)
    (records : list (list cell)) : Prop :=
  exists session result s1 s2 s3,
    driver_session d s = (Return session, s1)
    /\ session_run session get_one_episode_query
         (Some {[ "episode_id" := PStr episode_id ]}) s1
       = (Return result, s2)
    /\ result_values result s2 = (Return records, s3)
    /\ session_aexit session s3 = (Return tt, s').

(** A method that never assigns [self.driver]. *)
Definition keeps_self {A} (m : M world A) : Prop :=
  forall w, self (snd (m w)) = self w.

#[global] Instance Neo4jAdapter_interface
    : GraphDBInterface world sess res drv := {
  connect := connect;
  close := close;
  execute_query := execute_query;
  get_driver := get_driver;
  get_session := get_session;
  build_indices := build_indices;
  clear_all_data := clear_all_data;
  get_episodes := get_episodes;
  get_one_episode := get_one_episode
}.

End Adapter.

Arguments Neo4jAdapter : clear implicits.
Arguments world : clear implicits.

End Neo4j.

(** ** SurrealDBAdapter (surrealdb_adapter.py) *)

Module SurrealDB.

(** The calls the adapter makes on the surrealdb client.  A call returns a
    resolved value or an awaitable, depending on the client. *)
Class SurrealClientAPI (server cli : Type) : Type := {
  (** [Surreal(uri)] *)
  Surreal : string -> server -> outcome cli * server;
  (** [client.signin({"username": user, "password": password})] *)
  client_signin :
    cli -> string -> string -> server
    -> outcome (call_result pyval) * server;
  (** [client.use(namespace, database)] *)
  client_use :
    cli -> string -> string -> server
    -> outcome (call_result pyval) * server;
  (** [client.query(query)] and [client.query(query, params)] *)
  client_query :
    cli -> string -> option pydict -> server
    -> outcome (call_result pyval) * server;
  (** [client.close()] *)
  client_close : cli -> server -> outcome (call_result unit) * server
}.

Section Adapter.
Context {server cli : Type}.
Context `{!SurrealClientAPI server cli}.

Record SurrealDBAdapter : Type := {
  client : option cli;
  namespace : option string;
  database : option string
}.

Record world : Type := { self : SurrealDBAdapter; backend : server }.

(** [SurrealDBAdapter()] *)
Definition init : SurrealDBAdapter :=
  {| client := None; namespace := None; database := None |}.

Definition call {A} (f : server -> outcome A * server) : M world A :=
  fun w =>
    match f (backend w) with
    | (r, b) => (r, {| self := self w; backend := b |})
    end.

Definition set_client (c : option cli) : M world unit :=
  modify (fun w =>
    {| self := {| client := c;
                  namespace := namespace (self w);
                  database := database (self w) |};
       backend := backend w |}).

Definition set_scope (ns db : string) : M world unit :=
  modify (fun w =>
    {| self := {| client := client (self w);
                  namespace := Some ns;
                  database := Some db |};
       backend := backend w |}).

(** The two states of the adapter. *)
Definition disconnected (w : world) : Prop := client (self w) = None.

Definition connected (w : world) : Prop := is_Some (client (self w)).

Definition not_connected : exn :=
  mk_exn ConnectionError "Not connected to SurrealDB".

(** [if not self.client:
       raise ConnectionError("Not connected to SurrealDB")] *)
Definition require_client : M world cli :=
  c ← gets (fun w => client (self w));
  match c with
  | Some c => mret c
  | None => raise not_connected
  end.

Definition connection_failure (e : exn) : exn :=
  mk_exn ConnectionError ("Failed to connect to SurrealDB: " ++ str e).

(** [connect(uri, user, password, namespace="graphiti",
             database="graphiti")]; the logging calls are left out. *)
Definition signin_and_use (c : cli) (user password ns db : string)
    : M world unit :=
  signin_result ← call (client_signin c user password);
  maybe_await signin_result;;
  use_result ← call (client_use c ns db);
  maybe_await use_result;;
  mret tt.

(** The body of the outer [try] of [connect]. *)
Definition connect_body (uri user password ns db : string) : M world unit :=
  set_scope ns db;;
  c ← call (Surreal uri);
  set_client (Some c);;
  try_except
    (signin_and_use c user password ns db)
    isinstance_Exception
    (fun e => raise (connection_failure e)).

Definition connect_scoped (uri user password ns db : string)
    : M world unit :=
  try_except
    (connect_body uri user password ns db)
    isinstance_Exception
    (fun e => raise (connection_failure e)).

Definition connect (uri user password : string) : M world unit :=
  connect_scoped uri user password "graphiti" "graphiti".

Definition close : M world unit :=
  c ← gets (fun w => client (self w));
  match c with
  | Some c =>
      r ← call (client_close c);
      await r;;
      set_client None
  | None => mret tt
  end.

Definition get_driver : M world cli := require_client.

Definition get_session : M world cli := require_client.

(** [Exception(f"Error executing SurrealDB query: {str(e)}")] *)
Definition query_failure (e : exn) : exn :=
  mk_exn PyException ("Error executing SurrealDB query: " ++ str e).

(** The body of the [try] of [execute_query]. *)
Definition execute_query_body (c : cli) (query : string) (params : pydict)
    : M world pyval :=
  result ← call (client_query c query (Some params));
  maybe_await result.

Definition execute_query (query : string) (parameters : option pydict)
    : M world pyval :=
  c ← require_client;
  let params := or_empty parameters in
  try_except
    (execute_query_body c query params)
    isinstance_Exception
    (fun e => raise (query_failure e)).

Definition schema_queries : list string :=
  [ "DEFINE TABLE Episode SCHEMAFULL";
    "DEFINE TABLE Message SCHEMAFULL";
    "DEFINE TABLE Entity SCHEMAFULL";
    "DEFINE TABLE MENTIONS SCHEMAFULL";
    "DEFINE TABLE HAS_MESSAGE SCHEMAFULL";
    "DEFINE TABLE REFERS_TO SCHEMAFULL";
    "DEFINE FIELD id ON Episode TYPE string";
    "DEFINE FIELD created_at ON Episode TYPE datetime";
    "DEFINE FIELD title ON Episode TYPE string";
    "DEFINE FIELD summary ON Episode TYPE string";
    "DEFINE FIELD id ON Message TYPE string";
    "DEFINE FIELD timestamp ON Message TYPE datetime";
    "DEFINE FIELD role ON Message TYPE string";
    "DEFINE FIELD content ON Message TYPE string";
    "DEFINE FIELD id ON Entity TYPE string";
    "DEFINE FIELD type ON Entity TYPE string";
    "DEFINE FIELD name ON Entity TYPE string";
    "DEFINE FIELD properties ON Entity TYPE object";
    "DEFINE INDEX episode_id ON Episode FIELDS id UNIQUE";
    "DEFINE INDEX episode_created_at ON Episode FIELDS created_at";
    "DEFINE INDEX message_id ON Message FIELDS id UNIQUE";
    "DEFINE INDEX message_timestamp ON Message FIELDS timestamp";
    "DEFINE INDEX message_role ON Message FIELDS role";
    "DEFINE INDEX entity_id ON Entity FIELDS id UNIQUE";
    "DEFINE INDEX entity_type ON Entity FIELDS type";
    "DEFINE INDEX entity_name ON Entity FIELDS name" ].

Definition tables : list string :=
  [ "Episode"; "Message"; "Entity"; "MENTIONS"; "HAS_MESSAGE";
    "REFERS_TO" ].

(** [for query in queries:
       result = self.client.query(query)
       if hasattr(result, "__await__"): await result] *)
Fixpoint query_each (c : cli) (queries : list string) : M world unit :=
  match queries with
  | [] => mret tt
  | query :: rest =>
      result ← call (client_query c query None);
      maybe_await result;;
      query_each c rest
  end.

Definition clear_all_data : M world unit :=
  c ← require_client;
  query_each c ((fun table => "REMOVE TABLE " ++ table) <$> tables).

Definition build_indices (delete_existing : bool) : M world unit :=
  c ← require_client;
  (if delete_existing then clear_all_data else mret tt);;
  query_each c schema_queries.

Definition get_episodes_query : string :=
  "
            SELECT * FROM Episode
            ORDER BY created_at DESC
            ".

(** [x.get('result', [])]: only a mapping has [get]. *)
Definition get_result (x : pyval) : outcome pyval :=
  match x with
  | PDict d => Return (default (PList []) (d !! "result"))
  | _ => Raise (mk_exn AttributeError "object has no attribute 'get'")
  end.

Definition lift {A} (o : outcome A) : M world A := fun w => (o, w).

(** [if result and isinstance(result, list) and len(result) > 0:
       episodes = result[0].get('result', [])
       return episodes
     return []] *)
Definition unwrap_episodes (result : pyval) : outcome pyval :=
  match result with
  | PList (first :: _) => get_result first
  | _ => Return (PList [])
  end.

Definition get_episodes : M world pyval :=
  c ← require_client;
  result ← call (client_query c get_episodes_query None);
  result ← maybe_await result;
  lift (unwrap_episodes result).

Definition get_one_episode_query : string :=
  "
            SELECT * FROM Episode
            WHERE id = $episode_id
            LIMIT 1
            ".

(** [len(v)]: defined on strings, lists and mappings. *)
Definition py_len (v : pyval) : outcome nat :=
  match v with
  | PStr s => Return (String.length s)
  | PList l => Return (length l)
  | PDict d => Return (size d)
  | _ => Raise (mk_exn TypeError "object has no len()")
  end.

(** [v[0]] *)
Definition index0 (v : pyval) : outcome pyval :=
  match v with
  | PList (x :: _) => Return x
  | PList [] => Raise (mk_exn OtherException "list index out of range")
  | PStr (String a _) => Return (PStr (String a ""))
  | PStr "" => Raise (mk_exn OtherException "string index out of range")
  | PDict _ => Raise (mk_exn KeyError "0")
  | _ => Raise (mk_exn TypeError "object is not subscriptable")
  end.

(** [if episodes and len(episodes) > 0: return episodes[0]] and, when
    the test fails, [return None]. *)
Definition first_or_none (episodes : pyval) : outcome pyval :=
  if truthy episodes then
    match py_len episodes with
    | Return n => if bool_decide (0 < n) then index0 episodes
                  else Return PNone
    | Raise e => Raise e
    end
  else Return PNone.

Definition unwrap_one_episode (result : pyval) : outcome pyval :=
  match result with
  | PList (first :: _) =>
      match get_result first with
      | Return episodes => first_or_none episodes
      | Raise e => Raise e
      end
  | _ => Return PNone
  end.

Definition get_one_episode (episode_id : string) : M world pyval :=
  c ← require_client;
  result ← call (client_query c get_one_episode_query
                   (Some {[ "episode_id" := PStr episode_id ]}));
  result ← maybe_await result;
  lift (unwrap_one_episode result).

(** A method that never assigns [self.client]. *)
Definition keeps_self {A} (m : M world A)
    : Prop :=
  forall w, self (snd (m w)) = self w.

(** The per-statement envelope carries no record: it is empty, or its
    first entry has no [result] key, or the [result] array is empty. *)
Definition absent (result : pyval) : Prop :=
  result = PList []
  \/ exists d rest,
       result = PList (PDict d :: rest)
       /\ (d !! "result" = None \/ d !! "result" = Some (PList [])).

(** The client answered the lookup with [result], at once or once
    awaited. *)
Definition answers (c : cli) (episode_id : string) (s s' : server)
    (result : pyval) : Prop :=
  let call :=
    client_query c get_one_episode_query
      (Some {[ "episode_id" := PStr episode_id ]}) s in
  call = (Return (Resolved result), s')
  \/ call = (Return (Awaitable (Return result)), s').

#[global] Instance SurrealDBAdapter_interface
    : GraphDBInterface world cli pyval cli := {
  connect := connect;
  close := close;
  execute_query := execute_query;
  get_driver := get_driver;
  get_session := get_session;
  build_indices := build_indices;
  clear_all_data := clear_all_data;
  get_episodes := get_episodes;
  get_one_episode := get_one_episode
}.

End Adapter.

Arguments SurrealDBAdapter : clear implicits.
Arguments world : clear implicits.

End SurrealDB.

(** ** DatabaseFactory (db_factory.py) *)

Module DatabaseFactory.

(** [class DatabaseType(str, Enum)]: a member is a [str] and compares equal
    to its value, so [db_type == DatabaseType.NEO4J] is string equality with
    ["neo4j"]. *)
Module DatabaseType.
Definition NEO4J : string := "neo4j".
Definition SURREALDB : string := "surrealdb".
End DatabaseType.

Section Factory.
Context {drv cli : Type}.

(** The not-yet-connected adapter objects the factory constructs. *)
Inductive adapter : Type :=
| OfNeo4j (a : Neo4j.Neo4jAdapter drv)
| OfSurrealDB (a : SurrealDB.SurrealDBAdapter cli).

Definition unsupported (db_type : string) : exn :=
  mk_exn ValueError ("Unsupported database type: " ++ db_type).

Definition create_db_adapter (db_type : string) : outcome adapter :=
  if String.eqb db_type DatabaseType.NEO4J then
    Return (OfNeo4j Neo4j.init)
  else if String.eqb db_type DatabaseType.SURREALDB then
    Return (OfSurrealDB SurrealDB.init)
  else Raise (unsupported db_type).

End Factory.

Arguments adapter : clear implicits.

(** The two classes [get_adapter_class] can return. *)
Inductive adapter_class : Type :=
| Neo4jAdapter
| SurrealDBAdapter.

Definition get_adapter_class (db_type : string) : outcome adapter_class :=
  if String.eqb db_type DatabaseType.NEO4J then Return Neo4jAdapter
  else if String.eqb db_type DatabaseType.SURREALDB then
    Return SurrealDBAdapter
  else Raise (unsupported db_type).

End DatabaseFactory.

(** ** Settings.get_db_type (server/graph_service/config.py) *)

Module Settings.

(** [str.lower()] on the ASCII letters. *)
Definition lower_ascii (a : Ascii.ascii) : Ascii.ascii :=
  let n := Ascii.nat_of_ascii a in
  if bool_decide (65 <= n <= 90)%nat then Ascii.ascii_of_nat (n + 32) else a.

Fixpoint lower (s : string) : string :=
  match s with
  | EmptyString => EmptyString
  | String a rest => String (lower_ascii a) (lower rest)
  end.

(** [if self.database_type.lower() == 'surrealdb': SURREALDB else NEO4J] *)
Definition get_db_type (database_type : string) : string :=
  if String.eqb (lower database_type) "surrealdb"
  then DatabaseFactory.DatabaseType.SURREALDB
  else DatabaseFactory.DatabaseType.NEO4J.

End Settings.

(** ** Reading the statements the adapters issue *)

Module Tokens.

(** [strip_prefix p s] is the rest of [s] after its prefix [p]. *)
Fixpoint strip_prefix (p s : string) : option string :=
  match p, s with
  | EmptyString, _ => Some s
  | String a p', String b s' =>
      if Ascii.eqb a b then strip_prefix p' s' else None
  | String _ _, EmptyString => None
  end.

Definition strip_suffix (p s : string) : option string :=
  String.rev <$> strip_prefix (String.rev p) (String.rev s).

(** The text of [s] between the brackets [l] and [r]. *)
Definition between (l r s : string) : option string :=
  strip_prefix l s ≫= strip_suffix r.

(** The tokens of [ws] after the keywords [kws]. *)
Fixpoint after (kws ws : list string) : option (list string) :=
  match kws, ws with
  | [], _ => Some ws
  | k :: kws', w :: ws' => if String.eqb k w then after kws' ws' else None
  | _ :: _, [] => None
  end.

(** The value bound to [$name] by the parameters of a query. *)
Definition param (name : string) (params : option pydict) : option pyval :=
  match params with
  | Some d => d !! name
  | None => None
  end.

End Tokens.

(** ** An in-memory property-graph server

    The backend the Neo4j adapter is run against where a property speaks
    about the schema objects or the nodes the database holds.  It
    understands the statements the adapter issues, with the effect their
    text states: [IF NOT EXISTS] creates the object unless it is there,
    [apoc.schema.assert({}, {}, true)] drops every constraint and index,
    [DETACH DELETE] removes every node. *)

Module MemNeo4j.
Import Tokens.

Inductive schema_kind : Type :=
| Unique
| NotNull
| RangeIndex.

#[global] Instance schema_kind_eq_dec : EqDecision schema_kind.
Proof. solve_decision. Defined.

#[global] Instance schema_kind_countable : Countable schema_kind.
Proof.
  refine (inj_countable'
            (fun k =>
               match k with Unique => 0 | NotNull => 1 | RangeIndex => 2 end)
            (fun n =>
               match n with 0 => Unique | 1 => NotNull | _ => RangeIndex end)
            _).
  by intros [].
Defined.

(** A constraint or index: its kind, the label and the property. *)
Abbreviation schema_object := (schema_kind * string * string)%type.

Inductive command : Type :=
| Return1
| DropSchema
| CreateIfNotExists (o : schema_object)
| DetachDeleteAll
| MatchEpisodes
| MatchEpisodeById.

Definition parse_constraint (ws : list string) : option command :=
  rest ← after ["CREATE"; "CONSTRAINT"; "IF"; "NOT"; "EXISTS"; "FOR"] ws;
  match rest with
  | pat :: "REQUIRE" :: prop :: rest' =>
      label ← between "(n:" ")" pat;
      field ← strip_prefix "n." prop;
      if bool_decide (rest' = ["IS"; "UNIQUE"]) then
        Some (CreateIfNotExists (Unique, label, field))
      else if bool_decide (rest' = ["IS"; "NOT"; "NULL"]) then
        Some (CreateIfNotExists (NotNull, label, field))
      else None
  | _ => None
  end.

Definition parse_index (ws : list string) : option command :=
  rest ← after ["CREATE"; "INDEX"; "IF"; "NOT"; "EXISTS"; "FOR"] ws;
  match rest with
  | [pat; "ON"; prop] =>
      label ← between "(n:" ")" pat;
      field ← between "(n." ")" prop;
      Some (CreateIfNotExists (RangeIndex, label, field))
  | _ => None
  end.

Definition parse (query : string) : option command :=
  let ws := String.words query in
  if bool_decide (ws = ["RETURN"; "1"]) then Some Return1
  else if bool_decide (ws = ["CALL"; "apoc.schema.assert({},"; "{},"; "true)"])
  then Some DropSchema
  else if bool_decide (ws = ["MATCH"; "(n)"; "DETACH"; "DELETE"; "n"])
  then Some DetachDeleteAll
  else if bool_decide
            (ws = ["MATCH"; "(e:Episode)"; "RETURN"; "e";
                   "ORDER"; "BY"; "e.created_at"; "DESC"])
  then Some MatchEpisodes
  else if bool_decide
            (ws = ["MATCH"; "(e:Episode"; "{id:"; "$episode_id})";
                   "RETURN"; "e"])
  then Some MatchEpisodeById
  else
    match parse_constraint ws with
    | Some c => Some c
    | None => parse_index ws
    end.

Record node : Type := { labels : list string; properties : pydict }.

Record server : Type := {
  reachable : bool;
  accounts : list (string * string);
  catalog : gset schema_object;
  nodes : list node
}.

Definition with_catalog (c : gset schema_object) (s : server) : server :=
  {| reachable := reachable s; accounts := accounts s;
     catalog := c; nodes := nodes s |}.

Definition with_nodes (ns : list node) (s : server) : server :=
  {| reachable := reachable s; accounts := accounts s;
     catalog := catalog s; nodes := ns |}.

(** What [session.run] hands back: the rows of a node column, or the
    scalar of [RETURN 1]. *)
Inductive result : Type :=
| Records (rows : list (list Neo4j.cell))
| Scalar (v : pyval).

Definition created_at (n : node) : pyval :=
  default PNone (properties n !! "created_at").

(** The order of [ORDER BY]: integers and strings by value, null above
    every value. *)
Definition value_leb (a b : pyval) : bool :=
  match a, b with
  | _, PNone => true
  | PNone, _ => false
  | PInt x, PInt y => Z.leb x y
  | PStr x, PStr y => String.leb x y
  | _, _ => true
  end.

Fixpoint insert_desc (n : node) (sorted : list node) : list node :=
  match sorted with
  | [] => [n]
  | m :: rest =>
      if value_leb (created_at m) (created_at n) then n :: m :: rest
      else m :: insert_desc n rest
  end.

Definition sort_desc (ns : list node) : list node :=
  foldr insert_desc [] ns.

Definition is_episode (n : node) : bool :=
  bool_decide ("Episode" ∈ labels n).

Definition has_id (v : pyval) (n : node) : bool :=
  match properties n !! "id", v with
  | Some (PStr a), PStr b => String.eqb a b
  | Some (PInt a), PInt b => Z.eqb a b
  | _, _ => false
  end.

Definition row_of (n : node) : list Neo4j.cell := [Neo4j.CNode (properties n)].

Definition exec (cmd : command) (params : option pydict) (s : server)
    : outcome result * server :=
  match cmd with
  | Return1 => (Return (Scalar (PInt 1)), s)
  | DropSchema => (Return (Records []), with_catalog ∅ s)
  | CreateIfNotExists o =>
      (Return (Records []), with_catalog ({[ o ]} ∪ catalog s) s)
  | DetachDeleteAll => (Return (Records []), with_nodes [] s)
  | MatchEpisodes =>
      (Return (Records (row_of <$> sort_desc (filter is_episode (nodes s)))),
       s)
  | MatchEpisodeById =>
      match param "episode_id" params with
      | Some v =>
          (Return (Records
                     (row_of <$> filter (fun n => is_episode n && has_id v n)
                                        (nodes s))), s)
      | None =>
          (Raise (mk_exn ClientError "Expected parameter(s): episode_id"), s)
      end
  end.

(** The driver handle: the credentials it was created with. *)
Abbreviation handle := (string * string)%type.

Definition accepts (s : server) (d : handle) : bool :=
  reachable s && bool_decide (d ∈ accounts s).

Definition run (d : handle) (query : string) (params : option pydict)
    (s : server) : outcome result * server :=
  if negb (reachable s) then
    (Raise (mk_exn DriverError "Couldn't connect to the server"), s)
  else if negb (bool_decide (d ∈ accounts s)) then
    (Raise (mk_exn ClientError
              "The client is unauthorized due to authentication failure."), s)
  else
    match parse query with
    | Some cmd => exec cmd params s
    | None => (Raise (mk_exn ClientError ("Invalid input: " ++ query)), s)
    end.

Definition values (r : result) (s : server)
    : outcome (list (list Neo4j.cell)) * server :=
  match r with
  | Records rows => (Return rows, s)
  | Scalar _ => (Raise (mk_exn OtherException "not a node column"), s)
  end.

#[global] Instance driver_api
    : Neo4j.Neo4jDriverAPI server handle handle result := {
  Neo4j.graph_database_driver _ user password s := (Return (user, password), s);
  Neo4j.driver_session d s := (Return d, s);
  Neo4j.session_run := run;
  Neo4j.session_aexit _ s := (Return tt, s);
  Neo4j.result_values := values;
  Neo4j.driver_close _ s := (Return tt, s)
}.

Abbreviation world := (Neo4j.world server handle).

Definition set_backend (s : server) (w : world) : world :=
  {| Neo4j.self := Neo4j.self w; Neo4j.backend := s |}.

(** A Connected adapter whose driver the server accepts. *)
Definition serving (w : world) (d : handle) : Prop :=
  Neo4j.driver (Neo4j.self w) = Some d /\ accepts (Neo4j.backend w) d = true.

(** The rows the server returns for the two read queries. *)
Definition episode_rows (s : server) : list (list Neo4j.cell) :=
  row_of <$> sort_desc (filter is_episode (nodes s)).

Definition episode_rows_by_id (episode_id : string) (s : server)
    : list (list Neo4j.cell) :=
  row_of <$> filter (fun n => is_episode n && has_id (PStr episode_id) n)
                    (nodes s).

(** No node is an Episode with the id [episode_id]. *)
Definition no_episode (episode_id : string) (s : server) : Prop :=
  Forall (fun n => ~ ("Episode" ∈ labels n
                      /\ properties n !! "id" = Some (PStr episode_id)))
         (nodes s).

(** The objects the statements of [build_indices] create, in order. *)
Definition constraint_objects : list schema_object :=
  [ (Unique, "Episode", "id"); (Unique, "Message", "id");
    (Unique, "Entity", "id"); (NotNull, "Message", "timestamp");
    (NotNull, "Episode", "created_at") ].

Definition index_objects : list schema_object :=
  [ (RangeIndex, "Episode", "created_at"); (RangeIndex, "Message", "timestamp");
    (RangeIndex, "Message", "role"); (RangeIndex, "Entity", "type");
    (RangeIndex, "Entity", "name") ].

Definition creates (q : string) (o : schema_object) : Prop :=
  parse q = Some (CreateIfNotExists o).

Definition add_all (objs : list schema_object) (c : gset schema_object)
    : gset schema_object :=
  foldl (fun c o => {[ o ]} ∪ c) c objs.

Definition set_catalog (c : gset schema_object) (w : world) : world :=
  set_backend (with_catalog c (Neo4j.backend w)) w.

End MemNeo4j.

(** ** An in-memory multi-model server

    The backend the SurrealDB adapter is run against.  A query hands back
    the result of its statement as the client does: the records of a
    [SELECT] as a flat list of mappings, nothing for a [DEFINE] or a
    [REMOVE].  A statement the server rejects is raised by the client, at
    the call or, for an asynchronous client, when the awaitable is awaited:
    a [REMOVE TABLE] of a table that does not exist, and a [DEFINE] of a
    definition that exists on a server that does not replace definitions
    ([redefine] tells whether it does).  A table exists once it is defined
    or holds records.  [asynchronous] tells whether the client hands back
    awaitables.  Selecting from a table that does not exist yields no
    rows. *)

Module MemSurreal.
Import Tokens.

Inductive definition : Type :=
| TableDef
| FieldDef (ty : string)
| IndexDef (field : string) (unique : bool).

#[global] Instance definition_eq_dec : EqDecision definition.
Proof. solve_decision. Defined.

(** A definition is known by its keyword, its table and its name. *)
Abbreviation def_key := (string * string * string)%type.

Definition table_of (k : def_key) : string := snd (fst k).

Inductive command : Type :=
| Define (k : def_key) (d : definition)
| RemoveTable (t : string)
| SelectEpisodes
| SelectEpisodeById.

Definition parse (query : string) : option command :=
  match String.words query with
  | ["DEFINE"; "TABLE"; t; "SCHEMAFULL"] =>
      Some (Define ("TABLE", t, t) TableDef)
  | ["DEFINE"; "FIELD"; f; "ON"; t; "TYPE"; ty] =>
      Some (Define ("FIELD", t, f) (FieldDef ty))
  | ["DEFINE"; "INDEX"; n; "ON"; t; "FIELDS"; f] =>
      Some (Define ("INDEX", t, n) (IndexDef f false))
  | ["DEFINE"; "INDEX"; n; "ON"; t; "FIELDS"; f; "UNIQUE"] =>
      Some (Define ("INDEX", t, n) (IndexDef f true))
  | ["REMOVE"; "TABLE"; t] => Some (RemoveTable t)
  | ["SELECT"; "*"; "FROM"; "Episode"; "ORDER"; "BY"; "created_at"; "DESC"] =>
      Some SelectEpisodes
  | ["SELECT"; "*"; "FROM"; "Episode"; "WHERE"; "id"; "="; "$episode_id";
     "LIMIT"; "1"] =>
      Some SelectEpisodeById
  | _ => None
  end.

Record server : Type := {
  reachable : bool;
  accounts : list (string * string);
  asynchronous : bool;
  redefine : bool;
  catalog : gmap def_key definition;
  records : gmap string (list pydict)
}.

Definition with_store (c : gmap def_key definition)
    (r : gmap string (list pydict)) (s : server) : server :=
  {| reachable := reachable s; accounts := accounts s;
     asynchronous := asynchronous s; redefine := redefine s;
     catalog := c; records := r |}.

Definition created_at (r : pydict) : pyval :=
  default PNone (r !! "created_at").

(** The order of [ORDER BY]: integers and strings by value, NONE below
    every value. *)
Definition value_leb (a b : pyval) : bool :=
  match a, b with
  | PNone, _ => true
  | _, PNone => false
  | PInt x, PInt y => Z.leb x y
  | PStr x, PStr y => String.leb x y
  | _, _ => true
  end.

Fixpoint insert_desc (r : pydict) (sorted : list pydict) : list pydict :=
  match sorted with
  | [] => [r]
  | m :: rest =>
      if value_leb (created_at m) (created_at r) then r :: m :: rest
      else m :: insert_desc r rest
  end.

Definition sort_desc (rs : list pydict) : list pydict :=
  foldr insert_desc [] rs.

Definition has_id (v : pyval) (r : pydict) : bool :=
  match r !! "id", v with
  | Some (PStr a), PStr b => String.eqb a b
  | Some (PInt a), PInt b => Z.eqb a b
  | _, _ => false
  end.

Definition episodes (s : server) : list pydict :=
  default [] (records s !! "Episode").

(** The table is defined or holds records. *)
Definition table_exists (s : server) (t : string) : bool :=
  bool_decide (is_Some (catalog s !! ("TABLE", t, t)))
  || bool_decide (is_Some (records s !! t)).

(** The errors of a rejected statement. *)
Definition already_exists (k : def_key) : exn :=
  mk_exn OtherException ("The definition '" ++ snd k ++ "' already exists").

Definition no_such_table (t : string) : exn :=
  mk_exn OtherException ("The table '" ++ t ++ "' does not exist").

Definition define (k : def_key) (d : definition) (s : server) : server :=
  with_store (<[ k := d ]> (catalog s)) (records s) s.

(** Removing a table removes its records and every definition on it. *)
Definition remove_table (t : string) (s : server) : server :=
  with_store (filter (fun kd => table_of (fst kd) ≠ t) (catalog s))
             (delete t (records s)) s.

Definition exec (cmd : command) (params : option pydict) (s : server)
    : outcome pyval * server :=
  match cmd with
  | Define k d =>
      if redefine s || bool_decide (catalog s !! k = None)
      then (Return PNone, define k d s)
      else (Raise (already_exists k), s)
  | RemoveTable t =>
      if table_exists s t then (Return PNone, remove_table t s)
      else (Raise (no_such_table t), s)
  | SelectEpisodes =>
      (Return (PList (PDict <$> sort_desc (episodes s))), s)
  | SelectEpisodeById =>
      let v := default PNone (param "episode_id" params) in
      (Return (PList (PDict <$> take 1 (filter (has_id v) (episodes s)))), s)
  end.

(** A synchronous client raises at the call and returns the value; an
    asynchronous one returns an awaitable carrying either. *)
Definition deliver {A} (async : bool) (o : outcome A)
    : outcome (call_result A) :=
  if async then Return (Awaitable o)
  else match o with
       | Return a => Return (Resolved a)
       | Raise e => Raise e
       end.

Definition unreachable : exn :=
  mk_exn OtherException "Connection refused".

Definition signin (user password : string) (s : server)
    : outcome (call_result pyval) * server :=
  if negb (reachable s) then (deliver (asynchronous s) (Raise unreachable), s)
  else if bool_decide ((user, password) ∈ accounts s) then
    (deliver (asynchronous s) (Return (PStr "token")), s)
  else
    (deliver (asynchronous s)
       (Raise (mk_exn OtherException
                 "There was a problem with authentication")), s).

Definition use_ (s : server) : outcome (call_result pyval) * server :=
  if reachable s then (deliver (asynchronous s) (Return PNone), s)
  else (deliver (asynchronous s) (Raise unreachable), s).

Definition query (q : string) (params : option pydict) (s : server)
    : outcome (call_result pyval) * server :=
  if negb (reachable s) then (deliver (asynchronous s) (Raise unreachable), s)
  else
    match parse q with
    | Some cmd =>
        match exec cmd params s with
        | (o, s') => (deliver (asynchronous s) o, s')
        end
    | None =>
        (deliver (asynchronous s)
           (Raise (mk_exn OtherException ("Parse error: " ++ q))), s)
    end.

#[global] Instance client_api : SurrealDB.SurrealClientAPI server string := {
  SurrealDB.Surreal uri s := (Return uri, s);
  SurrealDB.client_signin _ user password := signin user password;
  SurrealDB.client_use _ _ _ := use_;
  SurrealDB.client_query _ := query;
  SurrealDB.client_close _ s := (deliver (asynchronous s) (Return tt), s)
}.

Abbreviation world := (SurrealDB.world server string).

Definition set_backend (s : server) (w : world) : world :=
  {| SurrealDB.self := SurrealDB.self w; SurrealDB.backend := s |}.

(** A Connected adapter whose server is reachable. *)
Definition serving (w : world) (c : string) : Prop :=
  SurrealDB.client (SurrealDB.self w) = Some c
  /\ reachable (SurrealDB.backend w) = true.

(** The statements of a loop: the first one rejected ends it. *)
Fixpoint exec_each (cmds : list command) (s : server)
    : outcome unit * server :=
  match cmds with
  | [] => (Return tt, s)
  | cmd :: rest =>
      match exec cmd None s with
      | (Return _, s') => exec_each rest s'
      | (Raise e, s') => (Raise e, s')
      end
  end.

Definition understood (q : string) (cmd : command) : Prop :=
  parse q = Some cmd.

Definition matching (episode_id : string) (s : server) : list pydict :=
  take 1 (filter (has_id (PStr episode_id)) (episodes s)).

(** No record of the Episode table has the id [episode_id]. *)
Definition no_episode (episode_id : string) (s : server) : Prop :=
  Forall (fun r => r !! "id" <> Some (PStr episode_id)) (episodes s).

(** The definitions the statements of [schema_queries] make, in order. *)
Definition schema_definitions : list (def_key * definition) :=
  [ (("TABLE", "Episode", "Episode"), TableDef);
    (("TABLE", "Message", "Message"), TableDef);
    (("TABLE", "Entity", "Entity"), TableDef);
    (("TABLE", "MENTIONS", "MENTIONS"), TableDef);
    (("TABLE", "HAS_MESSAGE", "HAS_MESSAGE"), TableDef);
    (("TABLE", "REFERS_TO", "REFERS_TO"), TableDef);
    (("FIELD", "Episode", "id"), FieldDef "string");
    (("FIELD", "Episode", "created_at"), FieldDef "datetime");
    (("FIELD", "Episode", "title"), FieldDef "string");
    (("FIELD", "Episode", "summary"), FieldDef "string");
    (("FIELD", "Message", "id"), FieldDef "string");
    (("FIELD", "Message", "timestamp"), FieldDef "datetime");
    (("FIELD", "Message", "role"), FieldDef "string");
    (("FIELD", "Message", "content"), FieldDef "string");
    (("FIELD", "Entity", "id"), FieldDef "string");
    (("FIELD", "Entity", "type"), FieldDef "string");
    (("FIELD", "Entity", "name"), FieldDef "string");
    (("FIELD", "Entity", "properties"), FieldDef "object");
    (("INDEX", "Episode", "episode_id"), IndexDef "id" true);
    (("INDEX", "Episode", "episode_created_at"), IndexDef "created_at" false);
    (("INDEX", "Message", "message_id"), IndexDef "id" true);
    (("INDEX", "Message", "message_timestamp"), IndexDef "timestamp" false);
    (("INDEX", "Message", "message_role"), IndexDef "role" false);
    (("INDEX", "Entity", "entity_id"), IndexDef "id" true);
    (("INDEX", "Entity", "entity_type"), IndexDef "type" false);
    (("INDEX", "Entity", "entity_name"), IndexDef "name" false) ].

Definition define_command (kd : def_key * definition) : command :=
  Define (fst kd) (snd kd).

(** The catalog once every definition of [defs] is made. *)
Definition define_all (defs : list (def_key * definition))
    (c : gmap def_key definition) : gmap def_key definition :=
  foldl (fun c kd => <[ fst kd := snd kd ]> c) c defs.

(** The server once every table of [ts] is removed. *)
Definition remove_all (ts : list string) (s : server) : server :=
  foldl (fun s t => remove_table t s) s ts.

Definition set_catalog (c : gmap def_key definition) (s : server) : server :=
  with_store c (records s) s.

(** Every table [clear_all_data] removes exists. *)
Definition all_tables_exist (s : server) : Prop :=
  Forall (fun t => table_exists s t = true) SurrealDB.tables.

End MemSurreal.

(** ** Concrete databases *)

Module Scenario.

Definition episode (id : string) (created_at : Z) : pydict :=
  {[ "id" := PStr id; "created_at" := PInt created_at;
     "title" := PStr "t"; "summary" := PStr "s" ]}.

(** A property-graph server holding two episodes and one message. *)
Definition neo4j_server (up : bool) : MemNeo4j.server :=
  {| MemNeo4j.reachable := up;
     MemNeo4j.accounts := [("neo4j", "secret")];
     MemNeo4j.catalog := ∅;
     MemNeo4j.nodes :=
       [ {| MemNeo4j.labels := ["Episode"];
            MemNeo4j.properties := episode "ep-1" 1 |};
         {| MemNeo4j.labels := ["Message"];
            MemNeo4j.properties := {[ "id" := PStr "m-1" ]} |};
         {| MemNeo4j.labels := ["Episode"];
            MemNeo4j.properties := episode "ep-2" 2 |} ] |}.

Definition neo4j_world (d : option MemNeo4j.handle) (up : bool)
    : MemNeo4j.world :=
  {| Neo4j.self := {| Neo4j.driver := d |};
     Neo4j.backend := neo4j_server up |}.

(** A multi-model server holding two episodes. *)
Definition surreal_server (up async redefine : bool) : MemSurreal.server :=
  {| MemSurreal.reachable := up;
     MemSurreal.accounts := [("root", "secret")];
     MemSurreal.asynchronous := async;
     MemSurreal.redefine := redefine;
     MemSurreal.catalog := ∅;
     MemSurreal.records :=
       {[ "Episode" := [episode "ep-1" 1; episode "ep-2" 2] ]} |}.

Definition surreal_world (c : option string) (up async redefine : bool)
    : MemSurreal.world :=
  {| SurrealDB.self := {| SurrealDB.client := c;
                          SurrealDB.namespace := None;
                          SurrealDB.database := None |};
     SurrealDB.backend := surreal_server up async redefine |}.

End Scenario.

(** Further databases of the multi-model server. *)
Module SurrealScenario.

(** The database of [Scenario.surreal_server] with the definitions of
    [build_indices] made: its six tables exist. *)
Definition provisioned_server (up async redefine : bool)
    : MemSurreal.server :=
  MemSurreal.set_catalog (list_to_map MemSurreal.schema_definitions)
    (Scenario.surreal_server up async redefine).

Definition provisioned_world (c : option string) (up async redefine : bool)
    : MemSurreal.world :=
  {| SurrealDB.self := {| SurrealDB.client := c;
                          SurrealDB.namespace := None;
                          SurrealDB.database := None |};
     SurrealDB.backend := provisioned_server up async redefine |}.

(** A database that holds one episode and one entity and nothing else:
    the tables Episode and Entity exist, the table Message does not. *)
Definition entity_server : MemSurreal.server :=
  {| MemSurreal.reachable := true;
     MemSurreal.accounts := [("root", "secret")];
     MemSurreal.asynchronous := true;
     MemSurreal.redefine := false;
     MemSurreal.catalog := ∅;
     MemSurreal.records :=
       {[ "Episode" := [Scenario.episode "ep-1" 1];
          "Entity" := [{[ "id" := PStr "en-1"; "name" := PStr "n" ]}] ]} |}.

Definition entity_world : MemSurreal.world :=
  {| SurrealDB.self := {| SurrealDB.client := Some "ws://localhost:8001/rpc";
                          SurrealDB.namespace := None;
                          SurrealDB.database := None |};
     SurrealDB.backend := entity_server |}.

(** A database whose one episode has a field named [result]. *)
Definition result_episode : pydict :=
  <[ "result" := PList [PStr "r-1"; PStr "r-2"] ]>
    (Scenario.episode "ep-1" 1).

Definition result_server : MemSurreal.server :=
  {| MemSurreal.reachable := true;
     MemSurreal.accounts := [("root", "secret")];
     MemSurreal.asynchronous := false;
     MemSurreal.redefine := false;
     MemSurreal.catalog := ∅;
     MemSurreal.records := {[ "Episode" := [result_episode] ]} |}.

Definition result_world : MemSurreal.world :=
  {| SurrealDB.self := {| SurrealDB.client := Some "ws://localhost:8001/rpc";
                          SurrealDB.namespace := None;
                          SurrealDB.database := None |};
     SurrealDB.backend := result_server |}.

End SurrealScenario.

(** ** The schema the specification lists *)

Module LogicalSchema.
Import MemNeo4j.

(** The schema objects as the specification lists them: uniqueness of [id]
    for Episode, Message and Entity; not-null for Message.timestamp and
    Episode.created_at; secondary indices on Episode.created_at,
    Message.timestamp, Message.role, Entity.type and Entity.name. *)
Definition spec_schema : gset schema_object :=
  {[ (Unique, "Episode", "id"); (Unique, "Message", "id");
     (Unique, "Entity", "id");
     (NotNull, "Message", "timestamp"); (NotNull, "Episode", "created_at");
     (RangeIndex, "Episode", "created_at");
     (RangeIndex, "Message", "timestamp"); (RangeIndex, "Message", "role");
     (RangeIndex, "Entity", "type"); (RangeIndex, "Entity", "name") ]}.

(** What [build_indices] leaves in a property-graph database that held no
    schema object. *)
Definition neo4j_provisioned : gset schema_object :=
  catalog
    (Neo4j.backend
       (snd (Neo4j.build_indices false
               (Scenario.neo4j_world (Some ("neo4j", "secret")) true)))).

(** What [build_indices] leaves in a multi-model database that held no
    definition. *)
Definition surreal_provisioned (redefine : bool)
    : gmap MemSurreal.def_key MemSurreal.definition :=
  MemSurreal.catalog
    (SurrealDB.backend
       (snd (SurrealDB.build_indices false
               (Scenario.surreal_world (Some "ws://localhost:8001/rpc")
                  true true redefine)))).

(** The constraints a definition of the multi-model backend stands for.  A
    unique index is a uniqueness constraint, a plain index a secondary
    index.  A typed field declaration is read as a not-null requirement on
    the field when [typed_is_required], and as no constraint otherwise. *)
Definition constraints_of (typed_is_required : bool)
    (kd : MemSurreal.def_key * MemSurreal.definition) : list schema_object :=
  match snd kd with
  | MemSurreal.IndexDef f true => [(Unique, MemSurreal.table_of (fst kd), f)]
  | MemSurreal.IndexDef f false =>
      [(RangeIndex, MemSurreal.table_of (fst kd), f)]
  | MemSurreal.FieldDef _ =>
      if typed_is_required
      then [(NotNull, MemSurreal.table_of (fst kd), snd (fst kd))]
      else []
  | MemSurreal.TableDef => []
  end.

Definition reading (typed_is_required : bool)
    (c : gmap MemSurreal.def_key MemSurreal.definition)
    : gset schema_object :=
  list_to_set (map_to_list c ≫= constraints_of typed_is_required).

Definition is_not_null (o : schema_object) : bool :=
  match fst (fst o) with NotNull => true | _ => false end.

(** The uniqueness constraints and the indices of a schema. *)
Definition keyed_part (s : gset schema_object) : gset schema_object :=
  filter (fun o => is_not_null o = false) s.

End LogicalSchema.

(** ** Further observations of the contract *)

(** A data operation leaves [state w] as it was, whether it returns or
    raises: the seven data operations of the contract, observed through
    [state]. *)
Definition keeps {W St SessionType ResultType D : Type}
    `{!GraphDBInterface W SessionType ResultType D}
    (state : W -> St) (w : W) : Prop :=
  (forall q p, state (snd (execute_query q p w)) = state w)
  /\ state (snd (get_driver w)) = state w
  /\ state (snd (get_session w)) = state w
  /\ (forall delete_existing,
         state (snd (build_indices delete_existing w)) = state w)
  /\ state (snd (clear_all_data w)) = state w
  /\ state (snd (get_episodes w)) = state w
  /\ (forall episode_id, state (snd (get_one_episode episode_id w)) = state w).

(** How a call on a client that may be synchronous or asynchronous ends:
    [yields r a s'] when it hands back [a], at once or once awaited;
    [fails r e s'] when it raises [e], at the call or when awaited. *)
Definition yields {A server : Type} (r : outcome (call_result A) * server)
    (a : A) (s' : server) : Prop :=
  r = (Return (Resolved a), s') \/ r = (Return (Awaitable (Return a)), s').

Definition fails {A server : Type} (r : outcome (call_result A) * server)
    (e : exn) (s' : server) : Prop :=
  r = (Raise e, s') \/ r = (Return (Awaitable (Raise e)), s').

(** The SurrealDB adapter with the scope [connect] was called with. *)
Definition scoped {server cli : Type} (c : option cli) (ns db : string)
    (s : server) : SurrealDB.world server cli :=
  {| SurrealDB.self := {| SurrealDB.client := c;
                          SurrealDB.namespace := Some ns;
                          SurrealDB.database := Some db |};
     SurrealDB.backend := s |}.

(** What SurrealDB [connect] raises for an exception [e] of its inner
    [try]: both handlers add their prefix to an [Exception]; anything else
    passes through. *)
Definition twice_wrapped (e : exn) : exn :=
  if isinstance_Exception e
  then mk_exn ConnectionError
         ("Failed to connect to SurrealDB: Failed to connect to SurrealDB: "
          ++ str e)
  else e.

(** The exception [e] is one the neo4j driver raised: when opening a
    session on [d], when running one of [stmts] without parameters, or when
    exiting a session. *)
Definition neo4j_raised {server drv sess res : Type}
    `{!Neo4j.Neo4jDriverAPI server drv sess res}
    (d : drv) (stmts : list string) (e : exn) : Prop :=
  (exists s s', Neo4j.driver_session d s = (Raise e, s'))
  \/ (exists session q s s',
         q ∈ stmts /\ Neo4j.session_run session q None s = (Raise e, s'))
  \/ (exists session s s', Neo4j.session_aexit session s = (Raise e, s')).

(** The exception [e] is one the surrealdb client raised for one of
    [queries], run without parameters. *)
Definition surreal_raised {server cli : Type}
    `{!SurrealDB.SurrealClientAPI server cli}
    (c : cli) (queries : list string) (e : exn) : Prop :=
  exists q s s',
    q ∈ queries /\ fails (SurrealDB.client_query c q None s) e s'.

(** [f"REMOVE TABLE {table}"] for the tables of [clear_all_data]. *)
Definition remove_table_queries : list string :=
  (fun table => "REMOVE TABLE " ++ table) <$> SurrealDB.tables.

(** ** Sessions opened and exited *)

(** A neo4j driver that, next to what the wrapped driver does, notes every
    session it opens and every session that is exited. *)
Module Sessions.

Inductive event (sess : Type) : Type :=
| Opened (session : sess)
| Exited (session : sess).
Arguments Opened {sess} session.
Arguments Exited {sess} session.

Section Recording.
Context {server drv sess res : Type}.
Context (api : Neo4j.Neo4jDriverAPI server drv sess res).

(** The server with the events so far, oldest first. *)
Definition logged : Type := server * list (event sess).

Definition quiet {A} (f : server -> outcome A * server)
    : logged -> outcome A * logged :=
  fun s =>
    match f (fst s) with
    | (r, s') => (r, (s', snd s))
    end.

Definition opening (d : drv) : logged -> outcome sess * logged :=
  fun s =>
    match Neo4j.driver_session d (fst s) with
    | (Return session, s') => (Return session, (s', (snd s ++ [Opened session])%list))
    | (Raise e, s') => (Raise e, (s', snd s))
    end.

Definition exiting (session : sess) : logged -> outcome unit * logged :=
  fun s =>
    match Neo4j.session_aexit session (fst s) with
    | (r, s') => (r, (s', (snd s ++ [Exited session])%list))
    end.

Definition recording : Neo4j.Neo4jDriverAPI logged drv sess res := {|
  Neo4j.graph_database_driver uri user password :=
    quiet (Neo4j.graph_database_driver uri user password);
  Neo4j.driver_session := opening;
  Neo4j.session_run session query params :=
    quiet (Neo4j.session_run session query params);
  Neo4j.session_aexit := exiting;
  Neo4j.result_values result := quiet (Neo4j.result_values result);
  Neo4j.driver_close d := quiet (Neo4j.driver_close d)
|}.

(** The adapter over the recording driver. *)
Definition adapter
    : GraphDBInterface (Neo4j.world logged drv) sess res drv :=
  @Neo4j.Neo4jAdapter_interface logged drv sess res recording.

Definition log (w : Neo4j.world logged drv) : list (event sess) :=
  snd (Neo4j.backend w).

(** The method opens no session, or opens one and exits it. *)
Definition exits_what_it_opens {A} (m : M (Neo4j.world logged drv) A)
    : Prop :=
  forall w,
    log (snd (m w)) = log w
    \/ exists session,
         log (snd (m w)) = (log w ++ [Opened session; Exited session])%list.

(** The method opens and exits no session. *)
Definition opens_nothing {A} (m : M (Neo4j.world logged drv) A) : Prop :=
  forall w, log (snd (m w)) = log w.

(** The method hands an open session to its caller, or opens none. *)
Definition hands_over (m : M (Neo4j.world logged drv) sess) : Prop :=
  forall w,
    match m w with
    | (Return session, w') => log w' = (log w ++ [Opened session])%list
    | (Raise _, w') => log w' = log w
    end.

End Recording.

Arguments logged : clear implicits.

End Sessions.

(** ** Stored episodes *)

(** [n] is a node of the property-graph server that is an Episode with the
    id [episode_id]. *)
Definition neo4j_stored (episode_id : string) (s : MemNeo4j.server)
    (n : MemNeo4j.node) : Prop :=
  n ∈ MemNeo4j.nodes s
  /\ "Episode" ∈ MemNeo4j.labels n
  /\ MemNeo4j.properties n !! "id" = Some (PStr episode_id).


(** ** Configuration readers *)

(** [os.environ]: the variables that are set, with their values. *)
Abbreviation environ := (gmap string string).

(** [os.getenv(name, default)] and [os.environ.get(name, default)] *)
Definition getenv (env : environ) (name default_value : string) : string :=
  default default_value (env !! name).

(** [bool(s)] for an optional string: [None] and [''] are falsy. *)
Definition str_truthy (s : option string) : bool :=
  match s with
  | Some (String _ _) => true
  | _ => false
  end.

(** [sub in s] on strings, as a test. *)
Fixpoint str_in (sub s : string) : bool :=
  String.prefix sub s
  || match s with
     | EmptyString => false
     | String _ rest => str_in sub rest
     end.

(** [s.replace(old, new)] for a non-empty [old]: the occurrences of [old]
    are replaced from the left, and the scan goes on after each replaced
    occurrence.  [skip] counts the characters of a replaced occurrence that
    are still to be passed over. *)
Fixpoint replace_from (old new : string) (skip : nat) (s : string) : string :=
  match s with
  | EmptyString => EmptyString
  | String a rest =>
      match skip with
      | S k => replace_from old new k rest
      | O =>
          if String.prefix old s
          then new ++ replace_from old new (String.length old - 1) rest
          else String a (replace_from old new 0 rest)
      end
  end.

Definition str_replace (old new s : string) : string :=
  replace_from old new 0 s.

(** *** mcp_server/config.py *)

Module McpConfig.
Section GetConfig.

(** [float(...)] and [int(...)] on the text of a variable; both raise
    [ValueError] on text they cannot read. *)
Context {number : Type}.
Variable to_float : string -> outcome number.
Variable to_int : string -> outcome Z.

Record Config : Type := {
  database_type : string;
  database_uri : string;
  database_user : string;
  database_password : string;
  database_namespace : option string;
  database_db : option string;
  openai_api_key : option string;
  model_name : string;
  temperature : number;
  max_tokens : Z
}.

Definition get_config (env : environ) : outcome Config :=
  let database_type := getenv env "DATABASE_TYPE" "neo4j" in
  let '(database_uri, database_user, database_password,
        database_namespace, database_db) :=
    if String.eqb (Settings.lower database_type) "surrealdb" then
      (getenv env "DATABASE_URI" "ws://localhost:8001/rpc",
       getenv env "DATABASE_USER" "root",
       getenv env "DATABASE_PASSWORD" "root",
       Some (getenv env "DATABASE_NAMESPACE" "graphiti"),
       Some (getenv env "DATABASE_DB" "graphiti"))
    else
      (getenv env "NEO4J_URI" "bolt://localhost:7687",
       getenv env "NEO4J_USER" "neo4j",
       getenv env "NEO4J_PASSWORD" "neo4j",
       None, None) in
  let openai_api_key := env !! "OPENAI_API_KEY" in
  let model_name := getenv env "MODEL_NAME" "gpt-4-turbo-preview" in
  match to_float (getenv env "TEMPERATURE" "0.0") with
  | Raise e => Raise e
  | Return temperature =>
      match to_int (getenv env "MAX_TOKENS" "1024") with
      | Raise e => Raise e
      | Return max_tokens =>
          Return {| database_type := database_type;
                    database_uri := database_uri;
                    database_user := database_user;
                    database_password := database_password;
                    database_namespace := database_namespace;
                    database_db := database_db;
                    openai_api_key := openai_api_key;
                    model_name := model_name;
                    temperature := temperature;
                    max_tokens := max_tokens |}
      end
  end.

End GetConfig.

Arguments Config : clear implicits.

End McpConfig.

(** *** DatabaseConfig (mcp_server/surrealdb_patch.py) *)

Module DatabaseConfig.

Record DatabaseConfig : Type := {
  db_type : string;
  uri : option string;
  user : option string;
  password : option string;
  namespace : option string;
  database : option string
}.

Definition from_env (env : environ) : DatabaseConfig :=
  {| db_type := Settings.lower (getenv env "DATABASE_TYPE" "neo4j");
     uri := env !! "DATABASE_URI";
     user := env !! "DATABASE_USER";
     password := env !! "DATABASE_PASSWORD";
     namespace := Some (getenv env "DATABASE_NAMESPACE" "graphiti");
     database := Some (getenv env "DATABASE_DB" "graphiti") |}.

Definition get_db_type (self : DatabaseConfig) : string :=
  if String.eqb (Settings.lower (db_type self)) "surrealdb"
  then DatabaseFactory.DatabaseType.SURREALDB
  else DatabaseFactory.DatabaseType.NEO4J.

End DatabaseConfig.

(** *** Settings and get_settings (server/graph_service/config.py) *)

Module GraphService.

Record Settings : Type := {
  openai_api_key : string;
  openai_base_url : option string;
  model_name : option string;
  embedding_model_name : option string;
  database_type : string;
  database_uri : option string;
  database_user : option string;
  database_password : option string;
  neo4j_uri : option string;
  neo4j_user : option string;
  neo4j_password : option string
}.

Definition get_db_uri (self : Settings) : option string :=
  if str_truthy (database_uri self) then database_uri self
  else neo4j_uri self.

Definition get_db_user (self : Settings) : option string :=
  if str_truthy (database_user self) then database_user self
  else neo4j_user self.

Definition get_db_password (self : Settings) : option string :=
  if str_truthy (database_password self) then database_password self
  else neo4j_password self.

Definition get_db_type (self : Settings) : string :=
  Settings.get_db_type (database_type self).

Definition set_database_uri (uri : option string) (self : Settings)
    : Settings :=
  {| openai_api_key := openai_api_key self;
     openai_base_url := openai_base_url self;
     model_name := model_name self;
     embedding_model_name := embedding_model_name self;
     database_type := database_type self;
     database_uri := uri;
     database_user := database_user self;
     database_password := database_password self;
     neo4j_uri := neo4j_uri self;
     neo4j_user := neo4j_user self;
     neo4j_password := neo4j_password self |}.

(** What [get_settings] does to the [Settings()] it has just read: the
    host of the compose network is replaced by the local one. *)
Definition get_settings (settings : Settings) : Settings :=
  match database_uri settings with
  | Some uri =>
      if str_truthy (Some uri) && str_in "surrealdb:8001" uri
      then set_database_uri
             (Some (str_replace "surrealdb:8001" "localhost:8001" uri))
             settings
      else settings
  | None => settings
  end.

End GraphService.

(** *** Reading strings *)

(** [s[n:]] *)
Fixpoint str_drop (n : nat) (s : string) : string :=
  match n, s with
  | S k, String _ rest => str_drop k rest
  | _, _ => s
  end.

(** [u] and [v] differ at a position both have. *)
Fixpoint clash (u v : string) : bool :=
  match u, v with
  | String a u', String b v' => negb (Ascii.eqb a b) || clash u' v'
  | _, _ => false
  end.

(** The non-empty suffixes of [s], longest first. *)
Fixpoint suffixes (s : string) : list string :=
  match s with
  | EmptyString => []
  | String _ rest => s :: suffixes rest
  end.

(** No occurrence of [old] can begin inside a copy of [new], and no proper
    suffix of [old] can begin where a copy of [new] begins. *)
Definition apart (old new : string) : bool :=
  forallb (clash old) (suffixes new)
  && forallb (fun u => clash u new) (suffixes (str_drop 1 old)).

(** ** Answers to the listing query *)

(** The driver ran the listing in a session of [d] and handed back
    [records]. *)
Definition neo4j_lists {server drv sess res : Type}
    `{!Neo4j.Neo4jDriverAPI server drv sess res}
    (d : drv) (s s' : server) (records : list (list Neo4j.cell)) : Prop :=
  exists session result s1 s2 s3,
    Neo4j.driver_session d s = (Return session, s1)
    /\ Neo4j.session_run session Neo4j.get_episodes_query None s1
       = (Return result, s2)
    /\ Neo4j.result_values result s2 = (Return records, s3)
    /\ Neo4j.session_aexit session s3 = (Return tt, s').

(** The client answered the listing with [result], at once or once
    awaited. *)
Definition surreal_lists {server cli : Type}
    `{!SurrealDB.SurrealClientAPI server cli}
    (c : cli) (s s' : server) (result : pyval) : Prop :=
  yields (SurrealDB.client_query c SurrealDB.get_episodes_query None s)
    result s'.

(** ** Closing the native driver *)

(** A method that leaves the observation [f] of the world as it was. *)
Definition preserves {W X A : Type} (f : W -> X) (m : M W A) : Prop :=
  forall w, f (snd (m w)) = f w.

(** Native drivers that, next to what the wrapped driver does, note every
    driver and client whose [close()] is called. *)
Module Closes.

Section Lifting.
Context {server handle : Type}.

(** The server with the handles closed so far, oldest first. *)
Definition logged : Type := server * list handle.

Definition quiet {A} (f : server -> outcome A * server)
    : logged -> outcome A * logged :=
  fun s =>
    match f (fst s) with
    | (r, s') => (r, (s', snd s))
    end.

Definition closing {A} (h : handle) (f : server -> outcome A * server)
    : logged -> outcome A * logged :=
  fun s =>
    match f (fst s) with
    | (r, s') => (r, (s', (snd s ++ [h])%list))
    end.

End Lifting.

Arguments logged : clear implicits.

Section Neo4jRecording.
Context {server drv sess res : Type}.
Context (api : Neo4j.Neo4jDriverAPI server drv sess res).

Definition neo4j_recording
    : Neo4j.Neo4jDriverAPI (logged server drv) drv sess res := {|
  Neo4j.graph_database_driver uri user password :=
    quiet (Neo4j.graph_database_driver uri user password);
  Neo4j.driver_session d := quiet (Neo4j.driver_session d);
  Neo4j.session_run session query params :=
    quiet (Neo4j.session_run session query params);
  Neo4j.session_aexit session := quiet (Neo4j.session_aexit session);
  Neo4j.result_values result := quiet (Neo4j.result_values result);
  Neo4j.driver_close d := closing d (Neo4j.driver_close d)
|}.

Definition neo4j_adapter
    : GraphDBInterface (Neo4j.world (logged server drv) drv) sess res drv :=
  @Neo4j.Neo4jAdapter_interface (logged server drv) drv sess res
    neo4j_recording.

Definition neo4j_closed (w : Neo4j.world (logged server drv) drv)
    : list drv :=
  snd (Neo4j.backend w).

End Neo4jRecording.

Section SurrealRecording.
Context {server cli : Type}.
Context (api : SurrealDB.SurrealClientAPI server cli).

Definition surreal_recording
    : SurrealDB.SurrealClientAPI (logged server cli) cli := {|
  SurrealDB.Surreal uri := quiet (SurrealDB.Surreal uri);
  SurrealDB.client_signin c user password :=
    quiet (SurrealDB.client_signin c user password);
  SurrealDB.client_use c ns db := quiet (SurrealDB.client_use c ns db);
  SurrealDB.client_query c query params :=
    quiet (SurrealDB.client_query c query params);
  SurrealDB.client_close c := closing c (SurrealDB.client_close c)
|}.

Definition surreal_adapter
    : GraphDBInterface (SurrealDB.world (logged server cli) cli) cli pyval
        cli :=
  @SurrealDB.SurrealDBAdapter_interface (logged server cli) cli
    surreal_recording.

Definition surreal_closed (w : SurrealDB.world (logged server cli) cli)
    : list cli :=
  snd (SurrealDB.backend w).

End SurrealRecording.

End Closes.

(** * Properties *)

(** ** Running a method step by step *)

Lemma run_bind {W A B} (m : M W A) (k : A -> M W B) (w : W) :
  (m ≫= k) w =
  match m w with
  | (Return a, w') => k a w'
  | (Raise e, w') => (Raise e, w')
  end.
Proof. reflexivity. Qed.

Lemma run_ret {W A} (a : A) (w : W) : (mret a : M W A) w = (Return a, w).
Proof. reflexivity. Qed.

Lemma run_bind_return {W A B} (m : M W A) (k : A -> M W B) w a w' :
  m w = (Return a, w') -> (m ≫= k) w = k a w'.
Proof. intros H. by rewrite run_bind, H. Qed.

Lemma run_bind_raise {W A B} (m : M W A) (k : A -> M W B) w e w' :
  m w = (Raise e, w') -> (m ≫= k) w = (Raise e, w').
Proof. intros H. by rewrite run_bind, H. Qed.

Section Neo4jGuard.
Context {server drv sess res : Type}.
Context `{!Neo4j.Neo4jDriverAPI server drv sess res}.
Implicit Types w : Neo4j.world server drv.

Lemma neo4j_require_driver_disconnected w :
  Neo4j.disconnected w ->
  Neo4j.require_driver w = (Raise Neo4j.not_connected, w).
Proof.
  unfold Neo4j.disconnected, Neo4j.require_driver. intros Hd.
  rewrite run_bind. unfold gets. by rewrite Hd.
Qed.

Lemma neo4j_require_driver_connected w d :
  Neo4j.driver (Neo4j.self w) = Some d ->
  Neo4j.require_driver w = (Return d, w).
Proof.
  unfold Neo4j.require_driver. intros Hd.
  rewrite run_bind. unfold gets. by rewrite Hd.
Qed.

Lemma neo4j_refuses_disconnected w :
  Neo4j.disconnected w -> refuses Neo4j.not_connected w.
Proof.
  intros Hd. pose proof (neo4j_require_driver_disconnected w Hd) as Hg.
  repeat split; intros; cbn;
    try (unfold Neo4j.execute_query, Neo4j.get_session, Neo4j.build_indices,
           Neo4j.clear_all_data, Neo4j.get_episodes, Neo4j.get_one_episode;
         by apply run_bind_raise).
  exact Hg.
Qed.

End Neo4jGuard.

Section SurrealGuard.
Context {server cli : Type}.
Context `{!SurrealDB.SurrealClientAPI server cli}.
Implicit Types w : SurrealDB.world server cli.

Lemma surreal_require_client_disconnected w :
  SurrealDB.disconnected w ->
  SurrealDB.require_client w = (Raise SurrealDB.not_connected, w).
Proof.
  unfold SurrealDB.disconnected, SurrealDB.require_client. intros Hd.
  rewrite run_bind. unfold gets. by rewrite Hd.
Qed.

Lemma surreal_require_client_connected w c :
  SurrealDB.client (SurrealDB.self w) = Some c ->
  SurrealDB.require_client w = (Return c, w).
Proof.
  unfold SurrealDB.require_client. intros Hd.
  rewrite run_bind. unfold gets. by rewrite Hd.
Qed.

Lemma surreal_refuses_disconnected w :
  SurrealDB.disconnected w -> refuses SurrealDB.not_connected w.
Proof.
  intros Hd. pose proof (surreal_require_client_disconnected w Hd) as Hg.
  repeat split; intros; cbn;
    try (unfold SurrealDB.execute_query, SurrealDB.build_indices,
           SurrealDB.clear_all_data, SurrealDB.get_episodes,
           SurrealDB.get_one_episode;
         by apply run_bind_raise).
  all: exact Hg.
Qed.

End SurrealGuard.

(** C1.  Every data operation of either adapter (execute_query, get_driver,
    get_session, build_indices, clear_all_data, get_episodes,
    get_one_episode), invoked while the adapter is Disconnected (the handle
    is None), raises the NotConnected error of that adapter; the adapter
    stays Disconnected and the backend is not touched, whatever the native
    driver would have done: no connection is attempted. *)
Theorem data_operations_require_connection :
  (forall (server drv sess res : Type)
          (api : Neo4j.Neo4jDriverAPI server drv sess res)
          (w : Neo4j.world server drv),
      Neo4j.disconnected w -> refuses Neo4j.not_connected w)
  /\
  (forall (server cli : Type)
          (api : SurrealDB.SurrealClientAPI server cli)
          (w : SurrealDB.world server cli),
      SurrealDB.disconnected w -> refuses SurrealDB.not_connected w).
Proof.
  split; intros.
  - by apply neo4j_refuses_disconnected.
  - by apply surreal_refuses_disconnected.
Qed.

Section Neo4jLifecycle.
Context {server drv sess res : Type}.
Context `{!Neo4j.Neo4jDriverAPI server drv sess res}.
Implicit Types w : Neo4j.world server drv.

Lemma neo4j_close_disconnected w :
  Neo4j.disconnected w -> Neo4j.close w = (Return tt, w).
Proof.
  unfold Neo4j.disconnected, Neo4j.close. intros Hd.
  rewrite run_bind. unfold gets. by rewrite Hd.
Qed.

Lemma neo4j_close_returns w w' :
  Neo4j.close w = (Return tt, w') -> Neo4j.disconnected w'.
Proof.
  unfold Neo4j.close. rewrite run_bind. unfold gets.
  destruct (Neo4j.driver (Neo4j.self w)) as [d|] eqn:Hd.
  - rewrite run_bind. unfold Neo4j.call.
    destruct (Neo4j.driver_close d (Neo4j.backend w)) as [[[]|e] b]; [|done].
    cbn. by intros [= <-].
  - cbn. by intros [= <-].
Qed.

(** [parameters or {}] does not tell [None] from [{}]. *)
Lemma neo4j_execute_query_none_empty w q :
  Neo4j.execute_query q None w = Neo4j.execute_query q (Some ∅) w.
Proof. reflexivity. Qed.

End Neo4jLifecycle.

Section SurrealLifecycle.
Context {server cli : Type}.
Context `{!SurrealDB.SurrealClientAPI server cli}.
Implicit Types w : SurrealDB.world server cli.

Lemma surreal_close_disconnected w :
  SurrealDB.disconnected w -> SurrealDB.close w = (Return tt, w).
Proof.
  unfold SurrealDB.disconnected, SurrealDB.close. intros Hd.
  rewrite run_bind. unfold gets. by rewrite Hd.
Qed.

Lemma surreal_close_returns w w' :
  SurrealDB.close w = (Return tt, w') -> SurrealDB.disconnected w'.
Proof.
  unfold SurrealDB.close. rewrite run_bind. unfold gets.
  destruct (SurrealDB.client (SurrealDB.self w)) as [c|] eqn:Hc.
  - rewrite run_bind. unfold SurrealDB.call.
    destruct (SurrealDB.client_close c (SurrealDB.backend w))
      as [[[[]|[[]|e]]|e] b]; cbn; try done.
    by intros [= <-].
  - cbn. by intros [= <-].
Qed.

Lemma surreal_execute_query_none_empty w q :
  SurrealDB.execute_query q None w = SurrealDB.execute_query q (Some ∅) w.
Proof. reflexivity. Qed.

End SurrealLifecycle.

(** For both adapters and every native driver: on a Disconnected adapter
    (before any connect, or after a close) [close] returns without raising
    and changes nothing; a [close] that returns leaves the adapter
    Disconnected, so a second [close] after it is that no-op. *)
Lemma close_that_returns_disconnects :
  (forall (server drv sess res : Type)
          (api : Neo4j.Neo4jDriverAPI server drv sess res)
          (w : Neo4j.world server drv),
      (Neo4j.disconnected w -> close w = (Return tt, w))
      /\ (forall w', close w = (Return tt, w') ->
                     Neo4j.disconnected w' /\ close w' = (Return tt, w')))
  /\
  (forall (server cli : Type)
          (api : SurrealDB.SurrealClientAPI server cli)
          (w : SurrealDB.world server cli),
      (SurrealDB.disconnected w -> close w = (Return tt, w))
      /\ (forall w', close w = (Return tt, w') ->
                     SurrealDB.disconnected w' /\ close w' = (Return tt, w'))).
Proof.
  split; intros; (split; [|intros w' Hc; split]).
  - exact (neo4j_close_disconnected w).
  - exact (neo4j_close_returns w w' Hc).
  - exact (neo4j_close_disconnected w' (neo4j_close_returns w w' Hc)).
  - exact (surreal_close_disconnected w).
  - exact (surreal_close_returns w w' Hc).
  - exact (surreal_close_disconnected w' (surreal_close_returns w w' Hc)).
Qed.

(** C10.  For both adapters and every query [q], [execute_query(q, None)]
    (the parameters omitted) and [execute_query(q, {})] are the same
    computation: the same result or the same exception, and the same effect
    on the adapter and the backend, in every world. *)
Theorem execute_query_none_is_empty :
  (forall (server drv sess res : Type)
          (api : Neo4j.Neo4jDriverAPI server drv sess res)
          (w : Neo4j.world server drv) (q : string),
      execute_query q None w = execute_query q (Some ∅) w)
  /\
  (forall (server cli : Type)
          (api : SurrealDB.SurrealClientAPI server cli)
          (w : SurrealDB.world server cli) (q : string),
      execute_query q None w = execute_query q (Some ∅) w).
Proof.
  split; intros.
  - apply neo4j_execute_query_none_empty.
  - apply surreal_execute_query_none_empty.
Qed.

(** ** A failed query *)

Section Neo4jQuery.
Context {server drv sess res : Type}.
Context `{!Neo4j.Neo4jDriverAPI server drv sess res}.
Implicit Types w : Neo4j.world server drv.
Local Abbreviation keeps_self :=
  (Neo4j.keeps_self (server := server) (drv := drv)).

Lemma neo4j_keeps_call {A} (f : server -> outcome A * server) :
  keeps_self (Neo4j.call f).
Proof. intros w. unfold Neo4j.call. by destruct (f _). Qed.

Lemma neo4j_keeps_ret {A} (a : A) : keeps_self (mret a).
Proof. by intros w. Qed.

Lemma neo4j_keeps_raise {A} e : keeps_self (@raise _ A e).
Proof. by intros w. Qed.

Lemma neo4j_keeps_bind {A B} (m : M _ A) (k : A -> M _ B) :
  keeps_self m -> (forall a, keeps_self (k a)) ->
  keeps_self (m ≫= k).
Proof.
  intros Hm Hk w. rewrite run_bind. specialize (Hm w).
  destruct (m w) as [[a|e] w1]; cbn in *; [|done].
  by rewrite Hk.
Qed.

Lemma neo4j_keeps_finally {A} (m : M _ A) (c : M _ unit) :
  keeps_self m -> keeps_self c -> keeps_self (finally_ m c).
Proof.
  intros Hm Hc w. unfold finally_. specialize (Hm w).
  destruct (m w) as [r w1]. specialize (Hc w1).
  destruct (c w1) as [[u|e] w2]; cbn in *; congruence.
Qed.

Lemma neo4j_keeps_try {A} (m : M _ A) g (h : exn -> M _ A) :
  keeps_self m -> (forall e, keeps_self (h e)) ->
  keeps_self (try_except m g h).
Proof.
  intros Hm Hh w. unfold try_except. specialize (Hm w).
  destruct (m w) as [[a|e] w1]; cbn in *; [done|].
  destruct (g e); [|done]. by rewrite Hh.
Qed.

Lemma neo4j_keeps_with_session {A} d (body : sess -> M _ A) :
  (forall s, keeps_self (body s)) ->
  keeps_self (Neo4j.with_session d body).
Proof.
  intros Hb. apply neo4j_keeps_bind; [apply neo4j_keeps_call|].
  intros s. apply neo4j_keeps_finally; [apply Hb|apply neo4j_keeps_call].
Qed.

Lemma neo4j_keeps_require_driver : keeps_self Neo4j.require_driver.
Proof.
  intros w. unfold Neo4j.require_driver. rewrite run_bind. unfold gets.
  by destruct (Neo4j.driver _).
Qed.

Lemma neo4j_execute_query_keeps_self q p :
  keeps_self (Neo4j.execute_query q p).
Proof.
  apply neo4j_keeps_bind; [apply neo4j_keeps_require_driver|]. intros d.
  apply neo4j_keeps_try; [|intros; apply neo4j_keeps_raise].
  apply neo4j_keeps_with_session. intros s. apply neo4j_keeps_call.
Qed.




End Neo4jQuery.

Lemma append_empty_r (s : string) : s ++ "" = s.
Proof.
  induction s as [|a s IH]; [reflexivity|].
  change (String a s ++ "") with (String a (s ++ "")). by rewrite IH.
Qed.

Lemma contains_suffix (pre sub : string) : contains (pre ++ sub) sub.
Proof. exists pre, "". by rewrite append_empty_r. Qed.

Section SurrealQuery.
Context {server cli : Type}.
Context `{!SurrealDB.SurrealClientAPI server cli}.
Implicit Types w : SurrealDB.world server cli.
Local Abbreviation keeps_self :=
  (SurrealDB.keeps_self (server := server) (cli := cli)).

Lemma surreal_keeps_call {A} (f : server -> outcome A * server) :
  keeps_self (SurrealDB.call f).
Proof. intros w. unfold SurrealDB.call. by destruct (f _). Qed.

Lemma surreal_keeps_ret {A} (a : A) : keeps_self (mret a).
Proof. by intros w. Qed.

Lemma surreal_keeps_raise {A} e : keeps_self (@raise _ A e).
Proof. by intros w. Qed.

Lemma surreal_keeps_lift {A} (o : outcome A) :
  keeps_self (SurrealDB.lift o).
Proof. by intros w. Qed.

Lemma surreal_keeps_maybe_await {A} (r : call_result A) :
  keeps_self (maybe_await r).
Proof. intros w. by destruct r as [a|[a|e]]. Qed.

Lemma surreal_keeps_bind {A B} (m : M _ A) (k : A -> M _ B) :
  keeps_self m -> (forall a, keeps_self (k a)) ->
  keeps_self (m ≫= k).
Proof.
  intros Hm Hk w. rewrite run_bind. specialize (Hm w).
  destruct (m w) as [[a|e] w1]; cbn in *; [|done].
  by rewrite Hk.
Qed.

Lemma surreal_keeps_try {A} (m : M _ A) g (h : exn -> M _ A) :
  keeps_self m -> (forall e, keeps_self (h e)) ->
  keeps_self (try_except m g h).
Proof.
  intros Hm Hh w. unfold try_except. specialize (Hm w).
  destruct (m w) as [[a|e] w1]; cbn in *; [done|].
  destruct (g e); [|done]. by rewrite Hh.
Qed.

Lemma surreal_keeps_require_client :
  keeps_self SurrealDB.require_client.
Proof.
  intros w. unfold SurrealDB.require_client. rewrite run_bind. unfold gets.
  by destruct (SurrealDB.client _).
Qed.

Lemma surreal_execute_query_keeps_self q p :
  keeps_self (SurrealDB.execute_query q p).
Proof.
  apply surreal_keeps_bind; [apply surreal_keeps_require_client|]. intros c.
  apply surreal_keeps_try; [|intros; apply surreal_keeps_raise].
  apply surreal_keeps_bind; [apply surreal_keeps_call|].
  intros r. apply surreal_keeps_maybe_await.
Qed.




End SurrealQuery.


(** ** A failed connect *)

Section Neo4jConnect.
Context {server drv sess res : Type}.
Context `{!Neo4j.Neo4jDriverAPI server drv sess res}.
Implicit Types w : Neo4j.world server drv.

(** Once the driver object is created it is assigned to [self.driver], and
    nothing in [connect] takes it back. *)
Lemma neo4j_connect_body_assigns w uri user password d b :
  Neo4j.graph_database_driver uri user password (Neo4j.backend w)
  = (Return d, b) ->
  Neo4j.driver (Neo4j.self (snd (Neo4j.connect_body uri user password w)))
  = Some d.
Proof.
  intros Hg. unfold Neo4j.connect_body.
  rewrite run_bind. unfold Neo4j.call at 1. rewrite Hg.
  rewrite run_bind. unfold Neo4j.set_driver, modify.
  match goal with
  | |- context [Neo4j.with_session d ?body ?w1] =>
      pose proof (neo4j_keeps_with_session d body) as Hk;
      specialize (Hk ltac:(intros s; apply neo4j_keeps_bind;
                           [apply neo4j_keeps_call
                           |intros; apply neo4j_keeps_ret]) w1);
      by rewrite Hk
  end.
Qed.

Lemma neo4j_connect_body_no_driver w uri user password e b :
  Neo4j.graph_database_driver uri user password (Neo4j.backend w)
  = (Raise e, b) ->
  Neo4j.self (snd (Neo4j.connect_body uri user password w)) = Neo4j.self w.
Proof.
  intros Hg. unfold Neo4j.connect_body.
  rewrite run_bind. unfold Neo4j.call at 1. by rewrite Hg.
Qed.

(** [connect] changes the adapter exactly as its [try] block does. *)
Lemma neo4j_connect_self w uri user password :
  Neo4j.self (snd (Neo4j.connect uri user password w))
  = Neo4j.self (snd (Neo4j.connect_body uri user password w)).
Proof.
  unfold Neo4j.connect, try_except.
  destruct (Neo4j.connect_body uri user password w) as [[[]|e] w1]; [done|].
  by destruct (isinstance_DriverError e).
Qed.

Lemma neo4j_connect_wraps w uri user password e0 w' :
  Neo4j.connect_body uri user password w = (Raise e0, w') ->
  isinstance_DriverError e0 = true ->
  Neo4j.connect uri user password w = (Raise (Neo4j.connection_failure e0), w').
Proof.
  intros Hb Hi. unfold Neo4j.connect, try_except. by rewrite Hb, Hi.
Qed.

Lemma neo4j_connect_returns w uri user password w' :
  Neo4j.connect uri user password w = (Return tt, w') -> Neo4j.connected w'.
Proof.
  intros Hc. pose proof (neo4j_connect_self w uri user password) as Hs.
  rewrite Hc in Hs. cbn in Hs.
  destruct (Neo4j.graph_database_driver uri user password (Neo4j.backend w))
    as [[d|e] b] eqn:Hg.
  - unfold Neo4j.connected. rewrite Hs.
    rewrite (neo4j_connect_body_assigns w uri user password d b Hg).
    by eexists.
  - exfalso. revert Hc. unfold Neo4j.connect, try_except, Neo4j.connect_body.
    rewrite run_bind. unfold Neo4j.call at 1. rewrite Hg.
    by destruct (isinstance_DriverError e).
Qed.

End Neo4jConnect.

Section SurrealConnect.
Context {server cli : Type}.
Context `{!SurrealDB.SurrealClientAPI server cli}.
Implicit Types w : SurrealDB.world server cli.
Local Abbreviation keeps_self :=
  (SurrealDB.keeps_self (server := server) (cli := cli)).

Lemma surreal_keeps_signin_and_use c user password ns db :
  keeps_self (SurrealDB.signin_and_use c user password ns db).
Proof.
  unfold SurrealDB.signin_and_use.
  repeat first
    [ apply surreal_keeps_call | apply surreal_keeps_maybe_await
    | apply surreal_keeps_ret
    | apply surreal_keeps_bind; [|intros ?] ].
Qed.

Lemma surreal_connect_body_assigns w uri user password ns db c b :
  SurrealDB.Surreal uri (SurrealDB.backend w) = (Return c, b) ->
  SurrealDB.client
    (SurrealDB.self (snd (SurrealDB.connect_body uri user password ns db w)))
  = Some c.
Proof.
  intros Hg. unfold SurrealDB.connect_body.
  rewrite run_bind. unfold SurrealDB.set_scope at 1, modify at 1.
  rewrite run_bind. unfold SurrealDB.call at 1. cbn [SurrealDB.backend].
  rewrite Hg.
  rewrite run_bind. unfold SurrealDB.set_client, modify.
  match goal with
  | |- context [try_except ?m ?g ?h ?w1] =>
      pose proof (surreal_keeps_try m g h) as Hk;
      specialize (Hk (surreal_keeps_signin_and_use c user password ns db)
                     ltac:(intros; apply surreal_keeps_raise) w1);
      by rewrite Hk
  end.
Qed.

Lemma surreal_connect_self w uri user password ns db :
  SurrealDB.self (snd (SurrealDB.connect_scoped uri user password ns db w))
  = SurrealDB.self (snd (SurrealDB.connect_body uri user password ns db w)).
Proof.
  unfold SurrealDB.connect_scoped, try_except.
  destruct (SurrealDB.connect_body uri user password ns db w)
    as [[[]|e] w1]; [done|].
  by destruct (isinstance_Exception e).
Qed.

Lemma surreal_connect_wraps w uri user password ns db e0 w' :
  SurrealDB.connect_body uri user password ns db w = (Raise e0, w') ->
  isinstance_Exception e0 = true ->
  SurrealDB.connect_scoped uri user password ns db w
  = (Raise (SurrealDB.connection_failure e0), w').
Proof.
  intros Hb Hi. unfold SurrealDB.connect_scoped, try_except.
  by rewrite Hb, Hi.
Qed.

Lemma surreal_connect_returns w uri user password ns db w' :
  SurrealDB.connect_scoped uri user password ns db w = (Return tt, w') ->
  SurrealDB.connected w'.
Proof.
  intros Hc. pose proof (surreal_connect_self w uri user password ns db) as Hs.
  rewrite Hc in Hs. cbn in Hs.
  destruct (SurrealDB.Surreal uri (SurrealDB.backend w)) as [[c|e] b] eqn:Hg.
  - unfold SurrealDB.connected. rewrite Hs.
    rewrite (surreal_connect_body_assigns w uri user password ns db c b Hg).
    by eexists.
  - exfalso. revert Hc.
    unfold SurrealDB.connect_scoped, try_except, SurrealDB.connect_body.
    rewrite run_bind. unfold SurrealDB.set_scope at 1, modify at 1.
    rewrite run_bind. unfold SurrealDB.call at 1. cbn [SurrealDB.backend].
    rewrite Hg. by destruct (isinstance_Exception e).
Qed.

End SurrealConnect.

(** C2, as stated, fails.  Neo4j: the server is down, the probe raises a
    [DriverError], [connect] raises the ConnectionFailure, and the driver
    object stays in [self.driver]: the adapter is not Disconnected and
    [get_driver] returns the handle instead of raising NotConnected.
    SurrealDB: the password is wrong, [connect] raises the
    ConnectionFailure, and the client stays in [self.client]. *)
Lemma failed_connect_keeps_handle :
  (exists w',
      Neo4j.connect "bolt://localhost:7687" "neo4j" "secret"
        (Scenario.neo4j_world None false)
      = (Raise (Neo4j.connection_failure
                  (mk_exn DriverError "Couldn't connect to the server")), w')
      /\ Neo4j.disconnected (Scenario.neo4j_world None false)
      /\ Neo4j.driver (Neo4j.self w') = Some ("neo4j", "secret")
      /\ Neo4j.get_driver w' = (Return ("neo4j", "secret"), w'))
  /\
  (exists e w',
      SurrealDB.connect "ws://localhost:8001/rpc" "root" "wrong"
        (Scenario.surreal_world None true true true)
      = (Raise e, w')
      /\ exn_cls e = ConnectionError
      /\ SurrealDB.disconnected (Scenario.surreal_world None true true true)
      /\ SurrealDB.client (SurrealDB.self w') = Some "ws://localhost:8001/rpc"
      /\ SurrealDB.get_driver w' = (Return "ws://localhost:8001/rpc", w')).
Proof.
  split.
  - exists (Scenario.neo4j_world (Some ("neo4j", "secret")) false).
    repeat split.
  - eexists _, _. split; [reflexivity|]. repeat split.
Qed.

(** C2, amended.  For both adapters: a driver-level error raised inside the
    [try] block of [connect] (Neo4j: a [DriverError]; SurrealDB: any
    [Exception]) is raised to the caller as the ConnectionFailure, a
    [ConnectionError] whose message contains the text of that error; the
    handle created at the start of [connect] is the adapter's handle
    afterwards, whether or not the rest of [connect] succeeded; and from any
    state, also the one a failed [connect] leaves, a [connect] that returns
    leaves the adapter Connected. *)
Theorem failed_connect_raises_connection_failure :
  (forall (server drv sess res : Type)
          (api : Neo4j.Neo4jDriverAPI server drv sess res)
          (w : Neo4j.world server drv) (uri user password : string),
      (forall e0 w',
          Neo4j.connect_body uri user password w = (Raise e0, w') ->
          isinstance_DriverError e0 = true ->
          connect uri user password w
          = (Raise (Neo4j.connection_failure e0), w')
          /\ exn_cls (Neo4j.connection_failure e0) = ConnectionError
          /\ contains (exn_msg (Neo4j.connection_failure e0)) (str e0))
      /\ (forall d b,
             Neo4j.graph_database_driver uri user password (Neo4j.backend w)
             = (Return d, b) ->
             Neo4j.driver (Neo4j.self (snd (connect uri user password w)))
             = Some d)
      /\ (forall w',
             connect uri user password w = (Return tt, w') ->
             Neo4j.connected w'))
  /\
  (forall (server cli : Type)
          (api : SurrealDB.SurrealClientAPI server cli)
          (w : SurrealDB.world server cli) (uri user password : string),
      (forall e0 w',
          SurrealDB.connect_body uri user password "graphiti" "graphiti" w
          = (Raise e0, w') ->
          isinstance_Exception e0 = true ->
          connect uri user password w
          = (Raise (SurrealDB.connection_failure e0), w')
          /\ exn_cls (SurrealDB.connection_failure e0) = ConnectionError
          /\ contains (exn_msg (SurrealDB.connection_failure e0)) (str e0))
      /\ (forall c b,
             SurrealDB.Surreal uri (SurrealDB.backend w) = (Return c, b) ->
             SurrealDB.client
               (SurrealDB.self (snd (connect uri user password w)))
             = Some c)
      /\ (forall w',
             connect uri user password w = (Return tt, w') ->
             SurrealDB.connected w')).
Proof.
  split.
  - intros server drv sess res api w uri user password.
    split; [|split].
    + intros e0 w' Hb Hi. split; [|split; [done|apply contains_suffix]].
      exact (neo4j_connect_wraps w uri user password e0 w' Hb Hi).
    + intros d b Hg. cbn. rewrite neo4j_connect_self.
      exact (neo4j_connect_body_assigns w uri user password d b Hg).
    + intros w' Hc. exact (neo4j_connect_returns w uri user password w' Hc).
  - intros server cli api w uri user password.
    split; [|split].
    + intros e0 w' Hb Hi. split; [|split; [done|apply contains_suffix]].
      exact (surreal_connect_wraps w uri user password _ _ e0 w' Hb Hi).
    + intros c b Hg. cbn. unfold SurrealDB.connect.
      rewrite surreal_connect_self.
      exact (surreal_connect_body_assigns w uri user password _ _ c b Hg).
    + intros w' Hc.
      exact (surreal_connect_returns w uri user password _ _ w' Hc).
Qed.

(** ** The factory *)

Section FactoryFacts.
Context {drv cli : Type}.

Lemma create_db_adapter_neo4j :
  DatabaseFactory.create_db_adapter "neo4j"
  = Return (DatabaseFactory.OfNeo4j (drv := drv) (cli := cli) Neo4j.init).
Proof. reflexivity. Qed.

Lemma create_db_adapter_surrealdb :
  DatabaseFactory.create_db_adapter "surrealdb"
  = Return (DatabaseFactory.OfSurrealDB (drv := drv) (cli := cli)
              SurrealDB.init).
Proof. reflexivity. Qed.

Lemma create_db_adapter_other (db_type : string) :
  db_type <> "neo4j" -> db_type <> "surrealdb" ->
  DatabaseFactory.create_db_adapter (drv := drv) (cli := cli) db_type
  = Raise (DatabaseFactory.unsupported db_type).
Proof.
  intros Hn Hs. unfold DatabaseFactory.create_db_adapter.
  apply String.eqb_neq in Hn, Hs.
  unfold DatabaseFactory.DatabaseType.NEO4J,
    DatabaseFactory.DatabaseType.SURREALDB.
  by rewrite Hn, Hs.
Qed.

End FactoryFacts.

Lemma get_adapter_class_other (db_type : string) :
  db_type <> "neo4j" -> db_type <> "surrealdb" ->
  DatabaseFactory.get_adapter_class db_type
  = Raise (DatabaseFactory.unsupported db_type).
Proof.
  intros Hn Hs. unfold DatabaseFactory.get_adapter_class.
  apply String.eqb_neq in Hn, Hs.
  unfold DatabaseFactory.DatabaseType.NEO4J,
    DatabaseFactory.DatabaseType.SURREALDB.
  by rewrite Hn, Hs.
Qed.

(** C3, as stated, fails: the factory compares the tag with the lower-case
    values of [DatabaseType], so the upper-case and mixed-case spellings of
    the two tags are refused like any other tag. *)
Lemma factory_is_case_sensitive :
  DatabaseFactory.create_db_adapter (drv := unit) (cli := unit) "NEO4J"
  = Raise (mk_exn ValueError "Unsupported database type: NEO4J")
  /\ DatabaseFactory.create_db_adapter (drv := unit) (cli := unit) "SurrealDB"
     = Raise (mk_exn ValueError "Unsupported database type: SurrealDB")
  /\ DatabaseFactory.get_adapter_class "Neo4j"
     = Raise (mk_exn ValueError "Unsupported database type: Neo4j")
  /\ DatabaseFactory.get_adapter_class "SURREALDB"
     = Raise (mk_exn ValueError "Unsupported database type: SURREALDB").
Proof. repeat split. Qed.

(** C3, amended.  [create_db_adapter] and [get_adapter_class] accept exactly
    the two tags ["neo4j"] and ["surrealdb"] as written (lower case):
    for ["neo4j"] they return a freshly constructed, not connected Neo4j
    adapter / its class, for ["surrealdb"] a SurrealDB adapter / its class,
    and for every other string, other letter cases of the two tags
    included, both raise the UnsupportedBackend error
    [ValueError("Unsupported database type: <tag>")]. *)
Theorem factory_accepts_exactly_two_tags :
  forall (drv cli : Type) (db_type : string),
    (db_type = "neo4j" /\
     DatabaseFactory.create_db_adapter (drv := drv) (cli := cli) db_type
     = Return (DatabaseFactory.OfNeo4j {| Neo4j.driver := None |}) /\
     DatabaseFactory.get_adapter_class db_type
     = Return DatabaseFactory.Neo4jAdapter)
    \/
    (db_type = "surrealdb" /\
     DatabaseFactory.create_db_adapter (drv := drv) (cli := cli) db_type
     = Return (DatabaseFactory.OfSurrealDB
                 {| SurrealDB.client := None; SurrealDB.namespace := None;
                    SurrealDB.database := None |}) /\
     DatabaseFactory.get_adapter_class db_type
     = Return DatabaseFactory.SurrealDBAdapter)
    \/
    (db_type <> "neo4j" /\ db_type <> "surrealdb" /\
     DatabaseFactory.create_db_adapter (drv := drv) (cli := cli) db_type
     = Raise (mk_exn ValueError ("Unsupported database type: " ++ db_type)) /\
     DatabaseFactory.get_adapter_class db_type
     = Raise (mk_exn ValueError ("Unsupported database type: " ++ db_type))).
Proof.
  intros drv cli db_type.
  destruct (decide (db_type = "neo4j")) as [->|Hn]; [by left|].
  destruct (decide (db_type = "surrealdb")) as [->|Hs]; [by right; left|].
  right; right. split; [done|split; [done|split]].
  - by apply create_db_adapter_other.
  - by apply get_adapter_class_other.
Qed.

(** The letter case is folded by the caller: [Settings.get_db_type] lowers
    the configured selector, and what it hands to the factory is always
    accepted. *)
Lemma settings_db_type_accepted (database_type : string) :
  DatabaseFactory.get_adapter_class (Settings.get_db_type database_type)
  = Return (if String.eqb (Settings.lower database_type) "surrealdb"
            then DatabaseFactory.SurrealDBAdapter
            else DatabaseFactory.Neo4jAdapter).
Proof.
  unfold Settings.get_db_type.
  by destruct (String.eqb (Settings.lower database_type) "surrealdb").
Qed.

Example settings_db_type_upper :
  Settings.get_db_type "SurrealDB" = "surrealdb"
  /\ Settings.get_db_type "NEO4J" = "neo4j"
  /\ Settings.get_db_type "mongo" = "neo4j".
Proof. repeat split. Qed.

(** ** The Neo4j adapter on the in-memory server *)

Module MemNeo4jFacts.
Import MemNeo4j.

Lemma run_accepted d q p s cmd :
  accepts s d = true -> parse q = Some cmd -> run d q p s = exec cmd p s.
Proof.
  unfold accepts, run. intros [Hr Ha]%andb_prop Hp.
  by rewrite Hr, Ha, Hp.
Qed.

Lemma with_session_mem {A} d (body : handle -> M world A) (w : world) :
  Neo4j.with_session d body w = body d w.
Proof.
  unfold Neo4j.with_session. rewrite run_bind.
  unfold Neo4j.call, finally_. cbn.
  destruct w as [a s]; cbn.
  by destruct (body d _) as [r [a' s']].
Qed.

Lemma call_run_mem d q p (w : world) cmd :
  accepts (Neo4j.backend w) d = true -> parse q = Some cmd ->
  Neo4j.call (Neo4j.session_run d q p) w
  = (fst (exec cmd p (Neo4j.backend w)),
     set_backend (snd (exec cmd p (Neo4j.backend w))) w).
Proof.
  intros Ha Hp. unfold Neo4j.call. cbn [Neo4j.session_run driver_api].
  rewrite (run_accepted d q p _ cmd Ha Hp).
  by destruct (exec cmd p (Neo4j.backend w)).
Qed.

Lemma call_values_mem rows (w : world) :
  Neo4j.call (Neo4j.result_values (Records rows)) w = (Return rows, w).
Proof. by destruct w. Qed.

Lemma neo4j_parse_get_episodes :
  parse Neo4j.get_episodes_query = Some MatchEpisodes.
Proof. vm_compute. reflexivity. Qed.

Lemma neo4j_parse_get_one_episode :
  parse Neo4j.get_one_episode_query = Some MatchEpisodeById.
Proof. vm_compute. reflexivity. Qed.

Lemma parse_delete_all :
  parse "MATCH (n) DETACH DELETE n" = Some DetachDeleteAll.
Proof. vm_compute. reflexivity. Qed.

Lemma neo4j_get_episodes_mem (w : world) d :
  serving w d ->
  Neo4j.get_episodes w
  = (Return (PList (PDict <$> omap Neo4j.episode_of_record
                                  (episode_rows (Neo4j.backend w)))), w).
Proof.
  intros [Hd Ha]. unfold Neo4j.get_episodes.
  rewrite (run_bind_return _ _ _ _ _ (neo4j_require_driver_connected w d Hd)).
  rewrite run_bind, with_session_mem. cbv beta. rewrite run_bind.
  rewrite (call_run_mem d _ _ w _ Ha neo4j_parse_get_episodes).
  cbn [exec fst snd].
  rewrite run_bind, call_values_mem.
  by destruct w.
Qed.

Lemma neo4j_get_one_episode_mem (w : world) d episode_id :
  serving w d ->
  Neo4j.get_one_episode episode_id w
  = (Return (Neo4j.first_episode
               (episode_rows_by_id episode_id (Neo4j.backend w))), w).
Proof.
  intros [Hd Ha]. unfold Neo4j.get_one_episode.
  rewrite (run_bind_return _ _ _ _ _ (neo4j_require_driver_connected w d Hd)).
  rewrite with_session_mem. cbv beta. rewrite run_bind.
  rewrite (call_run_mem d _ _ w _ Ha neo4j_parse_get_one_episode).
  cbn [exec fst snd Tokens.param].
  rewrite lookup_singleton_eq. cbn [fst snd].
  rewrite run_bind, call_values_mem.
  by destruct w.
Qed.

Lemma neo4j_clear_all_data_mem (w : world) d :
  serving w d ->
  Neo4j.clear_all_data w
  = (Return tt, set_backend (with_nodes [] (Neo4j.backend w)) w).
Proof.
  intros [Hd Ha]. unfold Neo4j.clear_all_data.
  rewrite (run_bind_return _ _ _ _ _ (neo4j_require_driver_connected w d Hd)).
  rewrite with_session_mem. cbv beta. rewrite run_bind.
  by rewrite (call_run_mem d _ _ w _ Ha parse_delete_all).
Qed.

Lemma serving_set_nodes (w : world) d ns :
  serving w d -> serving (set_backend (with_nodes ns (Neo4j.backend w)) w) d.
Proof. by intros [Hd Ha]. Qed.

Lemma neo4j_has_id_spec episode_id n :
  has_id (PStr episode_id) n = true
  <-> properties n !! "id" = Some (PStr episode_id).
Proof.
  unfold has_id. destruct (properties n !! "id") as [[]|]; try (split; done).
  rewrite String.eqb_eq. split; [by intros ->|by intros [= ->]].
Qed.

Lemma no_episode_rows episode_id s :
  no_episode episode_id s -> episode_rows_by_id episode_id s = [].
Proof.
  unfold no_episode, episode_rows_by_id. intros Hn.
  induction Hn as [|n ns Hx _ IH]; [done|].
  rewrite filter_cons. destruct (decide _) as [Ht|]; [|done].
  exfalso. apply Hx. apply Is_true_true, andb_prop in Ht as [Hl Hi].
  split; [by apply bool_decide_eq_true in Hl|by apply neo4j_has_id_spec].
Qed.

End MemNeo4jFacts.

Module MemNeo4jSchema.
Import MemNeo4j MemNeo4jFacts.

Lemma parse_constraint_statements :
  Forall2 creates Neo4j.constraint_statements constraint_objects.
Proof. repeat constructor; vm_compute; reflexivity. Qed.

Lemma parse_index_statements :
  Forall2 creates Neo4j.index_statements index_objects.
Proof. repeat constructor; vm_compute; reflexivity. Qed.

Lemma parse_drop_schema : parse Neo4j.drop_schema_statement = Some DropSchema.
Proof. vm_compute. reflexivity. Qed.

Lemma add_all_union objs c : add_all objs c = list_to_set objs ∪ c.
Proof.
  unfold add_all. revert c.
  induction objs as [|o objs IH]; intros c; cbn [foldl].
  - set_solver.
  - rewrite IH. set_solver.
Qed.

Lemma serving_set_catalog (w : world) d c :
  serving w d -> serving (set_catalog c w) d.
Proof. by intros [Hd Ha]. Qed.

Lemma run_each_creates d stmts objs (w : world) :
  accepts (Neo4j.backend w) d = true ->
  Forall2 creates stmts objs ->
  Neo4j.run_each d stmts w
  = (Return tt, set_catalog (add_all objs (catalog (Neo4j.backend w))) w).
Proof.
  intros Ha Hf. revert w Ha.
  induction Hf as [|q o stmts objs Hq _ IH]; intros w Ha.
  - by destruct w as [a []].
  - cbn [Neo4j.run_each]. rewrite run_bind.
    rewrite (call_run_mem d q None w _ Ha Hq). cbn [exec fst snd].
    rewrite IH; [|done]. by destruct w as [a []].
Qed.

Lemma add_all_app objs1 objs2 c :
  add_all (objs1 ++ objs2) c = add_all objs2 (add_all objs1 c).
Proof. apply foldl_app. Qed.

Lemma neo4j_build_indices_mem (w : world) d delete_existing :
  serving w d ->
  Neo4j.build_indices delete_existing w
  = (Return tt,
     set_catalog
       (add_all (constraint_objects ++ index_objects)
          (if delete_existing then ∅ else catalog (Neo4j.backend w))) w).
Proof.
  intros [Hd Ha]. unfold Neo4j.build_indices.
  rewrite (run_bind_return _ _ _ _ _ (neo4j_require_driver_connected w d Hd)).
  rewrite with_session_mem. cbv beta. rewrite run_bind, add_all_app.
  destruct delete_existing.
  - rewrite run_bind.
    rewrite (call_run_mem d _ None w _ Ha parse_drop_schema).
    cbn [exec fst snd]. rewrite run_ret, run_bind.
    rewrite (run_each_creates d _ constraint_objects);
      [|exact Ha|exact parse_constraint_statements].
    rewrite (run_each_creates d _ index_objects);
      [|exact Ha|exact parse_index_statements].
    by destruct w as [a []].
  - rewrite run_ret, run_bind.
    rewrite (run_each_creates d _ constraint_objects);
      [|exact Ha|exact parse_constraint_statements].
    rewrite (run_each_creates d _ index_objects);
      [|exact Ha|exact parse_index_statements].
    by destruct w as [a []].
Qed.

(** Running [build_indices(False)] once more changes nothing. *)
Lemma neo4j_build_indices_twice (w : world) d :
  serving w d ->
  exists w1,
    Neo4j.build_indices false w = (Return tt, w1)
    /\ Neo4j.build_indices false w1 = (Return tt, w1)
    /\ serving w1 d
    /\ list_to_set (constraint_objects ++ index_objects)
       ⊆ catalog (Neo4j.backend w1).
Proof.
  intros Hs. eexists. split; [exact (neo4j_build_indices_mem w d false Hs)|].
  split; [|split].
  - rewrite (neo4j_build_indices_mem _ d false (serving_set_catalog _ _ _ Hs)).
    f_equal. destruct w as [a [r ac c ns]].
    unfold set_catalog, set_backend, with_catalog.
    cbn [Neo4j.self Neo4j.backend reachable accounts catalog nodes].
    do 2 f_equal. rewrite !add_all_union. set_solver.
  - by apply serving_set_catalog.
  - cbn [set_catalog set_backend with_catalog Neo4j.backend catalog].
    rewrite add_all_union. set_solver.
Qed.

End MemNeo4jSchema.

(** ** The SurrealDB adapter on the in-memory server *)

Module MemSurrealFacts.
Import MemSurreal.

Lemma exec_reachable cmd p s : reachable (snd (exec cmd p s)) = reachable s.
Proof.
  destruct cmd; cbn [exec]; [| |done..].
  - by destruct (redefine s || bool_decide (catalog s !! k = None)).
  - by destruct (table_exists s t).
Qed.

Lemma exec_redefine cmd p s : redefine (snd (exec cmd p s)) = redefine s.
Proof.
  destruct cmd; cbn [exec]; [| |done..].
  - by destruct (redefine s || bool_decide (catalog s !! k = None)).
  - by destruct (table_exists s t).
Qed.

(** A query the server understands, awaited if need be, yields the result
    of its statement or raises its rejection, whichever kind of client is
    used. *)
Lemma query_then {B} c q p (w : world) cmd (k : pyval -> M world B) :
  reachable (SurrealDB.backend w) = true -> parse q = Some cmd ->
  (SurrealDB.call (SurrealDB.client_query c q p)
   ≫= fun r => maybe_await r ≫= k) w
  = match exec cmd p (SurrealDB.backend w) with
    | (Return v, s') => k v (set_backend s' w)
    | (Raise e, s') => (Raise e, set_backend s' w)
    end.
Proof.
  intros Hr Hp. rewrite run_bind. unfold SurrealDB.call.
  cbn [SurrealDB.client_query client_api]. unfold query.
  rewrite Hr, Hp. cbn [negb].
  destruct (exec cmd p (SurrealDB.backend w)) as [[v|e] s'];
    unfold deliver; by destruct (asynchronous (SurrealDB.backend w)).
Qed.

Lemma exec_each_reachable cmds s :
  reachable (snd (exec_each cmds s)) = reachable s.
Proof.
  revert s. induction cmds as [|cmd cmds IH]; intros s; [done|].
  cbn [exec_each]. pose proof (exec_reachable cmd None s) as Hr.
  destruct (exec cmd None s) as [[v|e] s']; cbn [snd] in Hr |- *; [|done].
  by rewrite IH.
Qed.

Lemma exec_each_redefine cmds s :
  redefine (snd (exec_each cmds s)) = redefine s.
Proof.
  revert s. induction cmds as [|cmd cmds IH]; intros s; [done|].
  cbn [exec_each]. pose proof (exec_redefine cmd None s) as Hr.
  destruct (exec cmd None s) as [[v|e] s']; cbn [snd] in Hr |- *; [|done].
  by rewrite IH.
Qed.

(** The loop over the statements of [build_indices] and of
    [clear_all_data] does what the server does with them in turn, up to
    the first one rejected. *)
Lemma query_each_mem c stmts cmds (w : world) :
  reachable (SurrealDB.backend w) = true ->
  Forall2 understood stmts cmds ->
  SurrealDB.query_each c stmts w
  = (fst (exec_each cmds (SurrealDB.backend w)),
     set_backend (snd (exec_each cmds (SurrealDB.backend w))) w).
Proof.
  intros Hr Hf. revert w Hr.
  induction Hf as [|q cmd stmts cmds Hq _ IH]; intros w Hr.
  - by destruct w.
  - cbn [SurrealDB.query_each exec_each].
    rewrite (query_then c q None w cmd _ Hr Hq).
    pose proof (exec_reachable cmd None (SurrealDB.backend w)) as Hx.
    destruct (exec cmd None (SurrealDB.backend w)) as [[v|e] s'];
      cbn [snd] in Hx; [|done].
    rewrite IH; [done|].
    cbn [set_backend SurrealDB.backend]. by rewrite Hx.
Qed.

Lemma surreal_parse_get_episodes :
  parse SurrealDB.get_episodes_query = Some SelectEpisodes.
Proof. vm_compute. reflexivity. Qed.

Lemma surreal_parse_get_one_episode :
  parse SurrealDB.get_one_episode_query = Some SelectEpisodeById.
Proof. vm_compute. reflexivity. Qed.

(** The read operations decode the flat list of records the client hands
    back. *)
Lemma surreal_get_episodes_mem (w : world) c :
  serving w c ->
  SurrealDB.get_episodes w
  = (SurrealDB.unwrap_episodes
       (PList (PDict <$> sort_desc (episodes (SurrealDB.backend w)))), w).
Proof.
  intros [Hc Hr]. unfold SurrealDB.get_episodes.
  rewrite (run_bind_return _ _ _ _ _
             (surreal_require_client_connected w c Hc)).
  rewrite (query_then c _ None w _ _ Hr surreal_parse_get_episodes).
  cbn [exec]. unfold SurrealDB.lift. by destruct w.
Qed.

Lemma surreal_get_one_episode_mem (w : world) c episode_id :
  serving w c ->
  SurrealDB.get_one_episode episode_id w
  = (SurrealDB.unwrap_one_episode
       (PList (PDict <$> matching episode_id (SurrealDB.backend w))), w).
Proof.
  intros [Hc Hr]. unfold SurrealDB.get_one_episode.
  rewrite (run_bind_return _ _ _ _ _
             (surreal_require_client_connected w c Hc)).
  rewrite (query_then c _ _ w _ _ Hr surreal_parse_get_one_episode).
  cbn [exec Tokens.param]. rewrite lookup_singleton_eq.
  cbn [default]. unfold SurrealDB.lift. by destruct w.
Qed.

Lemma surreal_has_id_spec episode_id (r : pydict) :
  has_id (PStr episode_id) r = true <-> r !! "id" = Some (PStr episode_id).
Proof.
  unfold has_id. destruct (r !! "id") as [[]|]; try (split; done).
  rewrite String.eqb_eq. split; [by intros ->|by intros [= ->]].
Qed.

Lemma no_episode_matching episode_id s :
  no_episode episode_id s -> matching episode_id s = [].
Proof.
  unfold no_episode, matching. intros Hn.
  induction Hn as [|r rs Hx _ IH]; [done|].
  rewrite filter_cons. destruct (decide _) as [Ht|]; [|done].
  exfalso. apply Hx. by apply surreal_has_id_spec, Is_true_true.
Qed.

(** A flat list of records has no [result] key to unwrap, unless its
    first record has a field of that name. *)
Lemma unwrap_episodes_flat (rs : list pydict) :
  SurrealDB.unwrap_episodes (PList (PDict <$> rs))
  = Return match rs with
           | [] => PList []
           | r :: _ => default (PList []) (r !! "result")
           end.
Proof. by destruct rs. Qed.

Lemma unwrap_one_episode_flat (rs : list pydict) :
  match rs with
  | [] => True
  | r :: _ => r !! "result" = None
  end ->
  SurrealDB.unwrap_one_episode (PList (PDict <$> rs)) = Return PNone.
Proof.
  destruct rs as [|r rs]; [done|]. intros Hr.
  cbn [fmap list_fmap SurrealDB.unwrap_one_episode SurrealDB.get_result].
  by rewrite Hr.
Qed.

(** *** Removing the tables *)

Lemma parse_remove_tables :
  Forall2 understood
    ((fun table => "REMOVE TABLE " ++ table) <$> SurrealDB.tables)
    (RemoveTable <$> SurrealDB.tables).
Proof. repeat constructor; vm_compute; reflexivity. Qed.

Lemma surreal_clear_all_data_mem (w : world) c :
  serving w c ->
  SurrealDB.clear_all_data w
  = (fst (exec_each (RemoveTable <$> SurrealDB.tables)
            (SurrealDB.backend w)),
     set_backend (snd (exec_each (RemoveTable <$> SurrealDB.tables)
                         (SurrealDB.backend w))) w).
Proof.
  intros [Hc Hr]. unfold SurrealDB.clear_all_data.
  rewrite (run_bind_return _ _ _ _ _
             (surreal_require_client_connected w c Hc)).
  exact (query_each_mem c _ _ w Hr parse_remove_tables).
Qed.

Lemma remove_all_cons t ts s :
  remove_all (t :: ts) s = remove_all ts (remove_table t s).
Proof. reflexivity. Qed.

Lemma catalog_filter_other (m : gmap def_key definition) t' (k : def_key) :
  table_of k <> t' ->
  filter (fun kd => table_of (fst kd) ≠ t') m !! k = m !! k.
Proof.
  intros HP. destruct (m !! k) as [v|] eqn:Hk.
  - by apply map_lookup_filter_Some.
  - apply map_lookup_filter_None. by left.
Qed.

Lemma table_exists_remove_other s t t' :
  t <> t' -> table_exists (remove_table t' s) t = table_exists s t.
Proof.
  intros Hne. unfold table_exists, remove_table.
  cbn [catalog records with_store].
  rewrite catalog_filter_other by done.
  by rewrite lookup_delete_ne.
Qed.

Lemma table_exists_remove_all s t ts :
  t ∉ ts -> table_exists (remove_all ts s) t = table_exists s t.
Proof.
  revert s. induction ts as [|t' ts IH]; intros s Hn; [done|].
  apply not_elem_of_cons in Hn as [Hne Hn].
  by rewrite remove_all_cons, IH, table_exists_remove_other.
Qed.

Lemma removed_stays ts s t :
  records s !! t = None -> records (remove_all ts s) !! t = None.
Proof.
  revert s. induction ts as [|t' ts IH]; intros s Hs; [done|].
  rewrite remove_all_cons. apply IH. cbn.
  by rewrite lookup_delete_None; right.
Qed.

Lemma removed_gone ts s t :
  t ∈ ts -> records (remove_all ts s) !! t = None.
Proof.
  revert s. induction ts as [|t' ts IH]; intros s Ht.
  - by apply elem_of_nil in Ht.
  - rewrite remove_all_cons.
    destruct (decide (t = t')) as [->|Hne].
    + apply removed_stays. cbn. apply lookup_delete_eq.
    + apply IH. apply elem_of_cons in Ht as [?|?]; [done|done].
Qed.

Lemma removed_others_kept ts s t :
  t ∉ ts -> records (remove_all ts s) !! t = records s !! t.
Proof.
  revert s. induction ts as [|t' ts IH]; intros s Hn; [done|].
  apply not_elem_of_cons in Hn as [Hne Hn].
  rewrite remove_all_cons, IH by done. cbn. by rewrite lookup_delete_ne.
Qed.

Lemma removed_tables_iff ts s k d :
  catalog (remove_all ts s) !! k = Some d
  <-> (table_of k ∉ ts) /\ catalog s !! k = Some d.
Proof.
  revert s. induction ts as [|t ts IH]; intros s.
  - split; [intros Hk; split; [apply not_elem_of_nil|done]|by intros [_ Hk]].
  - rewrite remove_all_cons, IH, not_elem_of_cons.
    cbn [remove_table catalog with_store].
    rewrite map_lookup_filter_Some. cbn [fst]. naive_solver.
Qed.

(** When every table exists the loop removes them all; otherwise it ends
    at the first table that does not exist, with the tables before it
    removed and those after it in place. *)
Lemma exec_each_remove ts s :
  NoDup ts -> Forall (fun t => table_exists s t = true) ts ->
  exec_each (RemoveTable <$> ts) s = (Return tt, remove_all ts s).
Proof.
  revert s. induction ts as [|t ts IH]; intros s Hd Hf; [done|].
  apply NoDup_cons in Hd as [Hn Hd]. apply Forall_cons in Hf as [Ht Hf].
  rewrite fmap_cons. cbn [exec_each exec]. rewrite Ht.
  rewrite remove_all_cons. apply IH; [done|].
  apply Forall_forall. intros t' Hin. rewrite Forall_forall in Hf.
  rewrite table_exists_remove_other; [by apply Hf|]. by intros ->.
Qed.

Lemma exec_each_remove_missing before t after s :
  NoDup (before ++ [t])%list ->
  Forall (fun t' => table_exists s t' = true) before ->
  table_exists s t = false ->
  exec_each (RemoveTable <$> (before ++ t :: after)%list) s
  = (Raise (no_such_table t), remove_all before s).
Proof.
  revert s. induction before as [|t' before IH]; intros s Hd Hf Hm.
  - cbn [app fmap list_fmap exec_each exec]. by rewrite Hm.
  - rewrite <- app_comm_cons in Hd |- *.
    apply NoDup_cons in Hd as [Hn Hd]. apply Forall_cons in Hf as [Ht Hf].
    rewrite fmap_cons. cbn [exec_each exec]. rewrite Ht.
    rewrite remove_all_cons. apply IH; [done| |].
    + apply Forall_forall. intros t'' Hin. rewrite Forall_forall in Hf.
      rewrite table_exists_remove_other; [by apply Hf|].
      intros ->. apply Hn, elem_of_app. by left.
    + rewrite table_exists_remove_other; [done|].
      intros ->. apply Hn, elem_of_app. right. apply list_elem_of_here.
Qed.

Lemma tables_distinct : NoDup SurrealDB.tables.
Proof. compute_done. Qed.

Lemma serving_set_backend (w : world) c s :
  serving w c -> reachable s = reachable (SurrealDB.backend w) ->
  serving (set_backend s w) c.
Proof. intros [Hc Hr] Hs. split; [done|]. cbn. by rewrite Hs. Qed.

End MemSurrealFacts.

Module MemSurrealSchema.
Import MemSurreal MemSurrealFacts.

Lemma parse_schema_queries :
  Forall2 understood SurrealDB.schema_queries
    (define_command <$> schema_definitions).
Proof. repeat constructor; vm_compute; reflexivity. Qed.

Lemma schema_definitions_distinct : NoDup (fst <$> schema_definitions).
Proof. compute_done. Qed.

Lemma schema_definitions_on_tables :
  Forall (fun kd => table_of (fst kd) ∈ SurrealDB.tables) schema_definitions.
Proof. repeat constructor. Qed.

Lemma define_all_cons kd defs c :
  define_all (kd :: defs) c = define_all defs (<[ fst kd := snd kd ]> c).
Proof. reflexivity. Qed.

Lemma define_all_lookup_other defs c k :
  k ∉ fst <$> defs -> define_all defs c !! k = c !! k.
Proof.
  revert c. induction defs as [|kd defs IH]; intros c Hn; [done|].
  rewrite fmap_cons in Hn. apply not_elem_of_cons in Hn as [Hne Hn].
  by rewrite define_all_cons, IH, lookup_insert_ne.
Qed.

Lemma define_all_lookup defs c kd :
  NoDup (fst <$> defs) -> kd ∈ defs ->
  define_all defs c !! fst kd = Some (snd kd).
Proof.
  revert c. induction defs as [|kd' defs IH]; intros c Hd Hin.
  - by apply elem_of_nil in Hin.
  - rewrite fmap_cons in Hd. apply NoDup_cons in Hd as [Hn Hd].
    rewrite define_all_cons. apply elem_of_cons in Hin as [->|Hin].
    + by rewrite define_all_lookup_other, lookup_insert_eq.
    + by apply IH.
Qed.

Lemma define_all_settled defs c :
  Forall (fun kd => c !! fst kd = Some (snd kd)) defs ->
  define_all defs c = c.
Proof.
  induction 1 as [|kd defs Hf _ IH]; [done|].
  by rewrite define_all_cons, insert_id.
Qed.

Lemma define_all_idempotent defs c :
  NoDup (fst <$> defs) ->
  define_all defs (define_all defs c) = define_all defs c.
Proof.
  intros Hd. apply define_all_settled, Forall_forall.
  intros kd Hin. by apply define_all_lookup.
Qed.

(** The loop of [DEFINE] statements makes every definition when the
    server replaces definitions, and when none of them exists yet. *)
Lemma exec_each_define defs s :
  redefine s = true
  \/ (NoDup (fst <$> defs)
      /\ Forall (fun kd => catalog s !! fst kd = None) defs) ->
  exec_each (define_command <$> defs) s
  = (Return tt, set_catalog (define_all defs (catalog s)) s).
Proof.
  revert s. induction defs as [|kd defs IH]; intros s Hs.
  - by destruct s.
  - rewrite fmap_cons. cbn [exec_each define_command exec].
    assert (Hok : redefine s || bool_decide (catalog s !! kd.1 = None) = true).
    { destruct Hs as [->|[_ Hf]]; [done|].
      apply Forall_cons in Hf as [Hk _].
      rewrite bool_decide_eq_true_2 by done. apply orb_true_r. }
    rewrite Hok, IH.
    + rewrite define_all_cons. by destruct s.
    + destruct Hs as [Hr|[Hd Hf]]; [by left|right].
      rewrite fmap_cons in Hd. apply NoDup_cons in Hd as [Hn Hd].
      apply Forall_cons in Hf as [_ Hf]. split; [done|].
      apply Forall_forall. intros kd' Hin.
      rewrite Forall_forall in Hf. cbn [define catalog with_store].
      rewrite lookup_insert_ne; [by apply Hf|].
      intros Heq. apply Hn. rewrite Heq. by apply list_elem_of_fmap_2.
Qed.

(** On a server that does not replace definitions, the loop ends at a
    definition that exists. *)
Lemma exec_each_define_rejected kd defs s :
  redefine s = false -> is_Some (catalog s !! fst kd) ->
  exec_each (define_command <$> (kd :: defs)) s
  = (Raise (already_exists (fst kd)), s).
Proof.
  intros Hr [d Hk]. rewrite fmap_cons. cbn [exec_each define_command exec].
  rewrite Hr, bool_decide_eq_false_2; [done|]. by rewrite Hk.
Qed.

(** When the loop returns, every definition it was to make exists. *)
Lemma exec_each_define_keeps defs s s' k :
  exec_each (define_command <$> defs) s = (Return tt, s') ->
  is_Some (catalog s !! k) -> is_Some (catalog s' !! k).
Proof.
  revert s. induction defs as [|kd defs IH]; intros s.
  - by intros [= <-].
  - rewrite fmap_cons. cbn [exec_each define_command exec].
    destruct (redefine s || bool_decide (catalog s !! kd.1 = None)); [|done].
    intros He Hk. apply (IH _ He). cbn [define catalog with_store].
    destruct (decide (kd.1 = k)) as [->|Hne].
    + rewrite lookup_insert_eq. by eexists.
    + by rewrite lookup_insert_ne.
Qed.

Lemma exec_each_define_returns defs s s' kd :
  exec_each (define_command <$> defs) s = (Return tt, s') ->
  kd ∈ defs -> is_Some (catalog s' !! fst kd).
Proof.
  revert s. induction defs as [|kd' defs IH]; intros s He Hin.
  - by apply elem_of_nil in Hin.
  - rewrite fmap_cons in He. cbn [exec_each define_command exec] in He.
    destruct (redefine s || bool_decide (catalog s !! kd'.1 = None));
      [|done].
    apply elem_of_cons in Hin as [->|Hin]; [|by apply (IH _ He)].
    apply (exec_each_define_keeps _ _ _ _ He).
    cbn [define catalog with_store]. rewrite lookup_insert_eq. by eexists.
Qed.

Lemma surreal_build_indices_mem (w : world) c :
  serving w c ->
  SurrealDB.build_indices false w
  = (fst (exec_each (define_command <$> schema_definitions)
            (SurrealDB.backend w)),
     set_backend (snd (exec_each (define_command <$> schema_definitions)
                         (SurrealDB.backend w))) w).
Proof.
  intros [Hc Hr]. unfold SurrealDB.build_indices.
  rewrite (run_bind_return _ _ _ _ _
             (surreal_require_client_connected w c Hc)).
  rewrite run_bind, run_ret.
  exact (query_each_mem c _ _ w Hr parse_schema_queries).
Qed.

(** On a server that replaces definitions, running [build_indices(False)]
    once more changes nothing. *)
Lemma surreal_build_indices_twice (w : world) c :
  serving w c -> redefine (SurrealDB.backend w) = true ->
  exists w1,
    SurrealDB.build_indices false w = (Return tt, w1)
    /\ SurrealDB.build_indices false w1 = (Return tt, w1)
    /\ serving w1 c.
Proof.
  intros Hs Hr. eexists.
  rewrite (surreal_build_indices_mem w c Hs).
  rewrite (exec_each_define _ _ (or_introl Hr)). cbn [fst snd].
  split; [reflexivity|].
  assert (Hs1 : serving
            (set_backend
               (set_catalog
                  (define_all schema_definitions
                     (catalog (SurrealDB.backend w)))
                  (SurrealDB.backend w)) w) c) by (by destruct Hs).
  split; [|done]. rewrite (surreal_build_indices_mem _ c Hs1).
  cbn [set_backend SurrealDB.backend SurrealDB.self].
  rewrite exec_each_define by (by left). cbn [fst snd]. f_equal.
  destruct w as [a [r ac asy re cat recs]].
  unfold set_backend, set_catalog, with_store.
  cbn [SurrealDB.self SurrealDB.backend reachable accounts asynchronous
         redefine catalog records].
  by rewrite (define_all_idempotent _ _ schema_definitions_distinct).
Qed.

(** On a server that does not, the second run is rejected at its first
    statement. *)
Lemma surreal_build_indices_again (w w1 : world) c :
  serving w c -> redefine (SurrealDB.backend w) = false ->
  SurrealDB.build_indices false w = (Return tt, w1) ->
  SurrealDB.build_indices false w1
  = (Raise (already_exists ("TABLE", "Episode", "Episode")), w1).
Proof.
  intros Hs Hr. rewrite (surreal_build_indices_mem w c Hs).
  pose proof (exec_each_reachable (define_command <$> schema_definitions)
                (SurrealDB.backend w)) as Hx.
  pose proof (exec_each_redefine (define_command <$> schema_definitions)
                (SurrealDB.backend w)) as Hy.
  destruct (exec_each (define_command <$> schema_definitions)
              (SurrealDB.backend w)) as [[[]|e] s1] eqn:He; [|done].
  cbn [fst snd] in Hx, Hy |- *. intros [= <-].
  assert (Hs1 : serving (set_backend s1 w) c)
    by (by apply serving_set_backend).
  rewrite (surreal_build_indices_mem _ c Hs1).
  cbn [set_backend SurrealDB.backend SurrealDB.self].
  change schema_definitions
    with ((("TABLE", "Episode", "Episode"), TableDef) :: tl schema_definitions)
    at 1 2.
  rewrite (exec_each_define_rejected
             (("TABLE", "Episode", "Episode"), TableDef) _ s1); [done| |].
  - by rewrite Hy.
  - apply (exec_each_define_returns _ _ _ _ He). apply list_elem_of_here.
Qed.

End MemSurrealSchema.

(** For the Neo4j adapter on its in-memory server in any state, and for
    the SurrealDB adapter on a server that replaces definitions,
    [build_indices(delete_existing=False)] invoked twice in succession
    returns both times and the second invocation leaves the database as the
    first left it. *)
Lemma build_indices_idempotent_where_replaced :
  (forall (w : MemNeo4j.world) (d : MemNeo4j.handle),
      MemNeo4j.serving w d ->
      exists w1,
        build_indices false w = (Return tt, w1)
        /\ build_indices false w1 = (Return tt, w1)
        /\ list_to_set (MemNeo4j.constraint_objects
                        ++ MemNeo4j.index_objects)
           ⊆ MemNeo4j.catalog (Neo4j.backend w1))
  /\
  (forall (w : MemSurreal.world) (c : string),
      MemSurreal.serving w c ->
      MemSurreal.redefine (SurrealDB.backend w) = true ->
      exists w1,
        build_indices false w = (Return tt, w1)
        /\ build_indices false w1 = (Return tt, w1)).
Proof.
  split.
  - intros w d Hs.
    destruct (MemNeo4jSchema.neo4j_build_indices_twice w d Hs)
      as (w1 & H1 & H2 & _ & H3).
    by exists w1.
  - intros w c Hs Hr.
    destruct (MemSurrealSchema.surreal_build_indices_twice w c Hs Hr)
      as (w1 & H1 & H2 & _).
    by exists w1.
Qed.

(** C5, at the failing input.  A Connected SurrealDB adapter over a server
    that rejects the [DEFINE] of a definition that exists: the statements
    of [build_indices] carry no [IF NOT EXISTS] and the loop has no
    handler, so whenever a first [build_indices(False)] has returned, the
    next one raises the client's error at its first statement,
    [DEFINE TABLE Episode SCHEMAFULL], and changes nothing. *)
Theorem surreal_build_indices_twice_raises :
  forall (w w1 : MemSurreal.world) (c : string),
    MemSurreal.serving w c ->
    MemSurreal.redefine (SurrealDB.backend w) = false ->
    build_indices false w = (Return tt, w1) ->
    build_indices false w1
    = (Raise (MemSurreal.already_exists ("TABLE", "Episode", "Episode")),
       w1).
Proof.
  intros w w1 c Hs Hr H1.
  exact (MemSurrealSchema.surreal_build_indices_again w w1 c Hs Hr H1).
Qed.

(** ** Clearing the data *)

Module MemSurrealClear.
Import MemSurreal MemSurrealFacts.

(** [clear_all_data] ends at the first of its six tables that does not
    exist. *)
Lemma surreal_clear_all_data_missing (w : world) c before t after :
  serving w c ->
  SurrealDB.tables = (before ++ t :: after)%list ->
  Forall (fun t' => table_exists (SurrealDB.backend w) t' = true) before ->
  table_exists (SurrealDB.backend w) t = false ->
  SurrealDB.clear_all_data w
  = (Raise (no_such_table t),
     set_backend (remove_all before (SurrealDB.backend w)) w)
  /\ (forall t',
         t' ∈ after ->
         records (remove_all before (SurrealDB.backend w)) !! t'
         = records (SurrealDB.backend w) !! t').
Proof.
  intros Hs Ht Hf Hm.
  pose proof tables_distinct as Hd. rewrite Ht in Hd.
  assert (Hd1 : NoDup (before ++ [t])%list).
  { apply NoDup_app in Hd as (Hb & Hn & Ha).
    apply NoDup_app. split; [done|]. split; [|apply NoDup_singleton].
    intros x Hx Hx'. apply list_elem_of_singleton in Hx' as ->.
    apply (Hn t Hx), list_elem_of_here. }
  split.
  - rewrite (surreal_clear_all_data_mem w c Hs), Ht.
    by rewrite (exec_each_remove_missing before t after _ Hd1 Hf Hm).
  - intros t' Hin. apply removed_others_kept.
    apply NoDup_app in Hd as (_ & Hn & _). intros Hb.
    apply (Hn t' Hb). by apply list_elem_of_further.
Qed.

(** When the six tables exist it removes them all. *)
Lemma surreal_clear_all_data_returns (w : world) c :
  serving w c -> all_tables_exist (SurrealDB.backend w) ->
  SurrealDB.clear_all_data w
  = (Return tt,
     set_backend (remove_all SurrealDB.tables (SurrealDB.backend w)) w).
Proof.
  intros Hs Hf. rewrite (surreal_clear_all_data_mem w c Hs).
  by rewrite (exec_each_remove _ _ tables_distinct Hf).
Qed.

Lemma serving_remove_all (w : world) c ts :
  serving w c ->
  serving (set_backend (remove_all ts (SurrealDB.backend w)) w) c.
Proof.
  intros Hs. apply serving_set_backend; [done|].
  generalize (SurrealDB.backend w). induction ts as [|t ts IH]; [done|].
  intros s. by rewrite remove_all_cons, IH.
Qed.

Lemma surreal_get_episodes_none (w : world) c :
  serving w c -> episodes (SurrealDB.backend w) = [] ->
  SurrealDB.get_episodes w = (Return (PList []), w).
Proof.
  intros Hs He. rewrite (surreal_get_episodes_mem w c Hs). by rewrite He.
Qed.

End MemSurrealClear.

(** For the Neo4j adapter on its in-memory server with any content, and
    for the SurrealDB adapter on a database in which the six tables exist,
    [clear_all_data] returns and a [get_episodes] that follows it returns
    the empty sequence. *)
Lemma clear_then_get_episodes_empty_where_tables_exist :
  (forall (w : MemNeo4j.world) (d : MemNeo4j.handle),
      MemNeo4j.serving w d ->
      exists w1,
        clear_all_data w = (Return tt, w1)
        /\ get_episodes w1 = (Return (PList []), w1))
  /\
  (forall (w : MemSurreal.world) (c : string),
      MemSurreal.serving w c ->
      MemSurreal.all_tables_exist (SurrealDB.backend w) ->
      exists w1,
        clear_all_data w = (Return tt, w1)
        /\ get_episodes w1 = (Return (PList []), w1)).
Proof.
  split.
  - intros w d Hs. eexists.
    split; [exact (MemNeo4jFacts.neo4j_clear_all_data_mem w d Hs)|].
    exact (MemNeo4jFacts.neo4j_get_episodes_mem _ d
             (MemNeo4jFacts.serving_set_nodes w d [] Hs)).
  - intros w c Hs Hf. eexists.
    split; [exact (MemSurrealClear.surreal_clear_all_data_returns w c Hs Hf)|].
    apply (MemSurrealClear.surreal_get_episodes_none _ c).
    + by apply MemSurrealClear.serving_remove_all.
    + unfold MemSurreal.episodes.
      cbn [MemSurreal.set_backend SurrealDB.backend].
      rewrite MemSurrealFacts.removed_gone; [done|].
      apply list_elem_of_here.
Qed.

(** C8, at the failing input.  A Connected SurrealDB adapter on a database
    in which one of the six tables of [clear_all_data] does not exist: the
    [REMOVE TABLE] statements carry no [IF EXISTS] and the loop has no
    handler, so [clear_all_data] raises the client's error at the first
    table that does not exist.  The tables before it are removed; the
    tables after it, and the records they hold, are left in place. *)
Theorem surreal_clear_all_data_missing_table :
  forall (w : MemSurreal.world) (c : string)
         (before after : list string) (t : string),
    MemSurreal.serving w c ->
    SurrealDB.tables = (before ++ t :: after)%list ->
    Forall (fun t' => MemSurreal.table_exists (SurrealDB.backend w) t' = true)
      before ->
    MemSurreal.table_exists (SurrealDB.backend w) t = false ->
    clear_all_data w
    = (Raise (MemSurreal.no_such_table t),
       MemSurreal.set_backend
         (MemSurreal.remove_all before (SurrealDB.backend w)) w)
    /\ (forall t',
           t' ∈ after ->
           MemSurreal.records
             (MemSurreal.remove_all before (SurrealDB.backend w)) !! t'
           = MemSurreal.records (SurrealDB.backend w) !! t').
Proof.
  intros w c before after t Hs Ht Hf Hm.
  exact (MemSurrealClear.surreal_clear_all_data_missing w c before t after
           Hs Ht Hf Hm).
Qed.

(** ** Reading an episode that is not there *)

Section SurrealAbsent.
Context {server cli : Type}.
Context `{!SurrealDB.SurrealClientAPI server cli}.
Implicit Types w : SurrealDB.world server cli.

Lemma unwrap_one_episode_absent (result : pyval) :
  SurrealDB.absent result -> SurrealDB.unwrap_one_episode result = Return PNone.
Proof.
  intros [->|(d & rest & -> & [Hd|Hd])]; [done|..];
    cbn [SurrealDB.unwrap_one_episode SurrealDB.get_result]; by rewrite Hd.
Qed.

Lemma unwrap_episodes_absent (result : pyval) :
  SurrealDB.absent result ->
  SurrealDB.unwrap_episodes result = Return (PList []).
Proof.
  intros [->|(d & rest & -> & [Hd|Hd])]; [done|..];
    cbn [SurrealDB.unwrap_episodes SurrealDB.get_result]; by rewrite Hd.
Qed.

Lemma surreal_get_one_episode_absent w c episode_id s' result :
  SurrealDB.client (SurrealDB.self w) = Some c ->
  SurrealDB.answers c episode_id (SurrealDB.backend w) s' result ->
  SurrealDB.absent result ->
  SurrealDB.get_one_episode episode_id w
  = (Return PNone,
     {| SurrealDB.self := SurrealDB.self w; SurrealDB.backend := s' |}).
Proof.
  intros Hc Ha Hr. unfold SurrealDB.get_one_episode.
  rewrite (run_bind_return _ _ _ _ _
             (surreal_require_client_connected w c Hc)).
  rewrite run_bind. unfold SurrealDB.call at 1.
  destruct Ha as [-> | ->]; rewrite run_bind; cbn [maybe_await await];
    unfold ret, SurrealDB.lift;
    by rewrite (unwrap_one_episode_absent result Hr).
Qed.

End SurrealAbsent.

Section Neo4jAbsent.
Context {server drv sess res : Type}.
Context `{!Neo4j.Neo4jDriverAPI server drv sess res}.
Implicit Types w : Neo4j.world server drv.

Lemma first_episode_no_record (records : list (list Neo4j.cell)) :
  Neo4j.no_record records -> Neo4j.first_episode records = PNone.
Proof.
  intros [->|[[rest ->]|(c & cs & rest & -> & Hc)]]; [done..|].
  cbn [Neo4j.first_episode Neo4j.episode_of_record].
  destruct c as [|p]; [done|]. by rewrite Hc.
Qed.

Lemma neo4j_get_one_episode_absent w d episode_id s' records :
  Neo4j.driver (Neo4j.self w) = Some d ->
  Neo4j.answers d episode_id (Neo4j.backend w) s' records ->
  Neo4j.no_record records ->
  Neo4j.get_one_episode episode_id w
  = (Return PNone, {| Neo4j.self := Neo4j.self w; Neo4j.backend := s' |}).
Proof.
  intros Hd (session & result & s1 & s2 & s3 & H1 & H2 & H3 & H4) Hn.
  unfold Neo4j.get_one_episode.
  rewrite (run_bind_return _ _ _ _ _ (neo4j_require_driver_connected w d Hd)).
  unfold Neo4j.with_session. rewrite run_bind.
  unfold Neo4j.call at 1. rewrite H1. unfold finally_.
  rewrite run_bind. unfold Neo4j.call at 1. cbn [Neo4j.backend]. rewrite H2.
  rewrite run_bind. unfold Neo4j.call at 1. cbn [Neo4j.backend]. rewrite H3.
  rewrite run_ret. unfold Neo4j.call. cbn [Neo4j.backend Neo4j.self].
  rewrite H4. by rewrite (first_episode_no_record records Hn).
Qed.

End Neo4jAbsent.

(** C7.  [get_one_episode] on a Connected adapter returns [None], without
    raising, when no Episode has the requested id: on the in-memory
    property-graph server and on the in-memory multi-model server,
    whatever else the database holds.  With any native driver it returns [None] whenever the answer
    carries no record: for Neo4j no row, an empty first row or a falsy
    first cell; for SurrealDB an empty envelope, a first entry without
    [result] key or an empty [result] array.  For the same envelopes
    [get_episodes] decodes the empty sequence. *)
Theorem get_one_episode_not_found :
  (forall (w : MemNeo4j.world) (d : MemNeo4j.handle) (episode_id : string),
      MemNeo4j.serving w d ->
      MemNeo4j.no_episode episode_id (Neo4j.backend w) ->
      get_one_episode episode_id w = (Return PNone, w))
  /\
  (forall (w : MemSurreal.world) (c : string) (episode_id : string),
      MemSurreal.serving w c ->
      MemSurreal.no_episode episode_id (SurrealDB.backend w) ->
      get_one_episode episode_id w = (Return PNone, w))
  /\
  (forall (server drv sess res : Type)
          (api : Neo4j.Neo4jDriverAPI server drv sess res)
          (w : Neo4j.world server drv) (d : drv) (episode_id : string)
          (s' : server) (records : list (list Neo4j.cell)),
      Neo4j.driver (Neo4j.self w) = Some d ->
      Neo4j.answers d episode_id (Neo4j.backend w) s' records ->
      Neo4j.no_record records ->
      get_one_episode episode_id w
      = (Return PNone,
         {| Neo4j.self := Neo4j.self w; Neo4j.backend := s' |}))
  /\
  (forall (server cli : Type) (api : SurrealDB.SurrealClientAPI server cli)
          (w : SurrealDB.world server cli) (c : cli) (episode_id : string)
          (s' : server) (result : pyval),
      SurrealDB.client (SurrealDB.self w) = Some c ->
      SurrealDB.answers c episode_id (SurrealDB.backend w) s' result ->
      SurrealDB.absent result ->
      get_one_episode episode_id w
      = (Return PNone,
         {| SurrealDB.self := SurrealDB.self w; SurrealDB.backend := s' |})
      /\ SurrealDB.unwrap_episodes result = Return (PList [])).
Proof.
  split; [|split; [|split]].
  - intros w d episode_id Hs Hn.
    cbn [get_one_episode Neo4j.Neo4jAdapter_interface].
    rewrite (MemNeo4jFacts.neo4j_get_one_episode_mem w d episode_id Hs).
    by rewrite (MemNeo4jFacts.no_episode_rows episode_id _ Hn).
  - intros w c episode_id Hs Hn.
    cbn [get_one_episode SurrealDB.SurrealDBAdapter_interface].
    rewrite (MemSurrealFacts.surreal_get_one_episode_mem w c episode_id Hs).
    by rewrite (MemSurrealFacts.no_episode_matching episode_id _ Hn).
  - intros server drv sess res api w d episode_id s' records Hd Ha Hn.
    exact (neo4j_get_one_episode_absent w d episode_id s' records Hd Ha Hn).
  - intros server cli api w c episode_id s' result Hc Ha Hr. split.
    + exact (surreal_get_one_episode_absent w c episode_id s' result Hc Ha Hr).
    + exact (unwrap_episodes_absent result Hr).
Qed.

(** ** The provisioned schema *)


(** C4, as stated, fails: the two backends are not provisioned with the
    same set.  The Neo4j-style backend gets exactly the listed objects.
    The multi-model backend has no not-null object; it declares every
    field, Episode.title as much as Episode.created_at, by a typed field
    declaration.  Read as requirements these declarations make
    Episode.title required, which Neo4j does not; read as no constraint
    they leave Episode.created_at without the not-null requirement Neo4j
    has. *)
Lemma schema_sets_differ :
  LogicalSchema.neo4j_provisioned = LogicalSchema.spec_schema
  /\ ((MemNeo4j.NotNull, "Episode", "title")
      ∈ LogicalSchema.reading true (LogicalSchema.surreal_provisioned true))
  /\ ((MemNeo4j.NotNull, "Episode", "title")
      ∉ LogicalSchema.neo4j_provisioned)
  /\ ((MemNeo4j.NotNull, "Episode", "created_at")
      ∈ LogicalSchema.neo4j_provisioned)
  /\ ((MemNeo4j.NotNull, "Episode", "created_at")
      ∉ LogicalSchema.reading false (LogicalSchema.surreal_provisioned true))
  /\ LogicalSchema.reading true (LogicalSchema.surreal_provisioned true)
     <> LogicalSchema.neo4j_provisioned
  /\ LogicalSchema.reading false (LogicalSchema.surreal_provisioned true)
     <> LogicalSchema.neo4j_provisioned.
Proof. repeat split; compute_done. Qed.

Lemma neo4j_reset_provisions (w : MemNeo4j.world) (d : MemNeo4j.handle) :
  MemNeo4j.serving w d ->
  MemNeo4j.catalog (Neo4j.backend (snd (Neo4j.build_indices true w)))
  = LogicalSchema.spec_schema.
Proof.
  intros Hs. rewrite (MemNeo4jSchema.neo4j_build_indices_mem w d true Hs).
  cbn [snd MemNeo4j.set_catalog MemNeo4j.set_backend
         MemNeo4j.with_catalog Neo4j.backend MemNeo4j.catalog].
  compute_done.
Qed.

(** C4, amended.  On a database without schema objects, and on any
    database when [delete_existing] is set, the Neo4j-style backend is
    provisioned with exactly the listed objects: uniqueness of [id] for
    Episode, Message and Entity, not-null for Message.timestamp and
    Episode.created_at, and the five secondary indices.  The multi-model
    backend is provisioned with the twenty-six definitions of
    [schema_queries]; its unique and plain indices are the same uniqueness
    constraints and secondary indices, on the same fields; and
    Message.timestamp and Episode.created_at are declared as [datetime]
    fields, not by a not-null object of their own. *)
Theorem schema_provisioned_by_backend :
  (forall (w : MemNeo4j.world) (d : MemNeo4j.handle),
      MemNeo4j.serving w d ->
      MemNeo4j.catalog (Neo4j.backend (snd (build_indices true w)))
      = LogicalSchema.spec_schema)
  /\ LogicalSchema.neo4j_provisioned = LogicalSchema.spec_schema
  /\ (forall redefine : bool,
         LogicalSchema.surreal_provisioned redefine
         = list_to_map MemSurreal.schema_definitions)
  /\ (forall redefine typed_is_required : bool,
         LogicalSchema.keyed_part
           (LogicalSchema.reading typed_is_required
              (LogicalSchema.surreal_provisioned redefine))
         = LogicalSchema.keyed_part LogicalSchema.spec_schema)
  /\ (forall redefine : bool,
         LogicalSchema.surreal_provisioned redefine
           !! ("FIELD", "Message", "timestamp")
         = Some (MemSurreal.FieldDef "datetime")
         /\ LogicalSchema.surreal_provisioned redefine
              !! ("FIELD", "Episode", "created_at")
            = Some (MemSurreal.FieldDef "datetime")).
Proof.
  split; [exact neo4j_reset_provisions|].
  split; [compute_done|].
  split; [intros []; compute_done|].
  split; [intros [] []; compute_done|].
  intros []; split; compute_done.
Qed.

(** ** The properties on the concrete databases *)

(** Listing the episodes of the property-graph scenario database: newest
    first. *)
Example neo4j_get_episodes_newest_first :
  fst (Neo4j.get_episodes
         (Scenario.neo4j_world (Some ("neo4j", "secret")) true))
  = Return (PList [PDict (Scenario.episode "ep-2" 2);
                   PDict (Scenario.episode "ep-1" 1)]).
Proof. vm_compute. reflexivity. Qed.

(** The multi-model server hands back the two episodes as a flat list of
    records; the adapter looks for a [result] key in the first of them,
    finds none, and returns no episode. *)
Example surreal_get_episodes_of_flat_records :
  fst (SurrealDB.client_query "ws://localhost:8001/rpc"
         SurrealDB.get_episodes_query None
         (Scenario.surreal_server true false true))
  = Return (Resolved (PList [PDict (Scenario.episode "ep-2" 2);
                             PDict (Scenario.episode "ep-1" 1)]))
  /\ fst (SurrealDB.get_episodes
            (Scenario.surreal_world (Some "ws://localhost:8001/rpc")
               true false true))
     = Return (PList []).
Proof. split; vm_compute; reflexivity. Qed.

Example surreal_get_one_episode_of_flat_records :
  fst (SurrealDB.get_one_episode "ep-1"
         (Scenario.surreal_world (Some "ws://localhost:8001/rpc")
            true true true))
  = Return PNone.
Proof. vm_compute. reflexivity. Qed.

Lemma neo4j_world_serving :
  MemNeo4j.serving
    (Scenario.neo4j_world (Some ("neo4j", "secret")) true) ("neo4j", "secret").
Proof. split; reflexivity. Defined.

Lemma surreal_world_serving (async redefine : bool) :
  MemSurreal.serving
    (Scenario.surreal_world (Some "ws://localhost:8001/rpc") true async
       redefine)
    "ws://localhost:8001/rpc".
Proof. split; reflexivity. Defined.

Lemma data_operations_require_connection_witness :
  refuses Neo4j.not_connected (Scenario.neo4j_world None true)
  /\ refuses SurrealDB.not_connected
       (Scenario.surreal_world None true true true).
Proof.
  split.
  - apply (proj1 data_operations_require_connection). reflexivity.
  - apply (proj2 data_operations_require_connection). reflexivity.
Defined.

Lemma failed_connect_raises_connection_failure_witness :
  Neo4j.connect "bolt://localhost:7687" "neo4j" "secret"
    (Scenario.neo4j_world None false)
  = (Raise (mk_exn ConnectionError
              "Failed to connect to Neo4j: Couldn't connect to the server"),
     Scenario.neo4j_world (Some ("neo4j", "secret")) false)
  /\ Neo4j.connected
       (snd (Neo4j.connect "bolt://localhost:7687" "neo4j" "secret"
               (Scenario.neo4j_world (Some ("neo4j", "secret")) true)))
  /\ SurrealDB.client
       (SurrealDB.self
          (snd (SurrealDB.connect "ws://localhost:8001/rpc" "root" "wrong"
                  (Scenario.surreal_world None true false true))))
     = Some "ws://localhost:8001/rpc".
Proof.
  split; [|split].
  - apply (proj1 (proj1 failed_connect_raises_connection_failure
                    _ _ _ _ _ (Scenario.neo4j_world None false)
                    "bolt://localhost:7687" "neo4j" "secret")
             (mk_exn DriverError "Couldn't connect to the server"));
      reflexivity.
  - apply (proj2 (proj2 (proj1 failed_connect_raises_connection_failure
                           _ _ _ _ _
                           (Scenario.neo4j_world
                              (Some ("neo4j", "secret")) true)
                           "bolt://localhost:7687" "neo4j" "secret"))).
    reflexivity.
  - apply (proj1 (proj2 (proj2 failed_connect_raises_connection_failure
                           _ _ _ (Scenario.surreal_world None true false true)
                           "ws://localhost:8001/rpc" "root" "wrong"))
             _ (Scenario.surreal_server true false true)).
    reflexivity.
Defined.

Lemma schema_provisioned_by_backend_witness :
  MemNeo4j.catalog
    (Neo4j.backend
       (snd (build_indices true
               (Scenario.neo4j_world (Some ("neo4j", "secret")) true))))
  = LogicalSchema.spec_schema.
Proof.
  exact (proj1 schema_provisioned_by_backend
           (Scenario.neo4j_world (Some ("neo4j", "secret")) true)
           ("neo4j", "secret") neo4j_world_serving).
Defined.

Lemma surreal_build_indices_twice_raises_witness :
  build_indices false
    (Scenario.surreal_world (Some "ws://localhost:8001/rpc") true false false)
  = (Return tt,
     SurrealScenario.provisioned_world (Some "ws://localhost:8001/rpc")
       true false false)
  /\ build_indices false
       (SurrealScenario.provisioned_world (Some "ws://localhost:8001/rpc")
          true false false)
     = (Raise (MemSurreal.already_exists ("TABLE", "Episode", "Episode")),
        SurrealScenario.provisioned_world (Some "ws://localhost:8001/rpc")
          true false false).
Proof.
  assert (H1 : build_indices false
                 (Scenario.surreal_world (Some "ws://localhost:8001/rpc")
                    true false false)
               = (Return tt,
                  SurrealScenario.provisioned_world
                    (Some "ws://localhost:8001/rpc") true false false))
    by (vm_compute; reflexivity).
  split; [exact H1|].
  exact (surreal_build_indices_twice_raises
           (Scenario.surreal_world (Some "ws://localhost:8001/rpc")
              true false false)
           (SurrealScenario.provisioned_world
              (Some "ws://localhost:8001/rpc") true false false)
           "ws://localhost:8001/rpc" (surreal_world_serving false false)
           eq_refl H1).
Defined.


Lemma get_one_episode_not_found_witness :
  Neo4j.get_one_episode "does-not-exist"
    (Scenario.neo4j_world (Some ("neo4j", "secret")) true)
  = (Return PNone, Scenario.neo4j_world (Some ("neo4j", "secret")) true)
  /\ SurrealDB.get_one_episode "does-not-exist"
       (Scenario.surreal_world (Some "ws://localhost:8001/rpc")
          true false true)
     = (Return PNone,
        Scenario.surreal_world (Some "ws://localhost:8001/rpc")
          true false true).
Proof.
  split.
  - apply (proj1 get_one_episode_not_found _ ("neo4j", "secret")).
    + split; reflexivity.
    + repeat constructor; intros [_ H]; vm_compute in H; discriminate H.
  - apply (proj1 (proj2 get_one_episode_not_found)
             _ "ws://localhost:8001/rpc").
    + split; reflexivity.
    + repeat constructor; intros H; vm_compute in H; discriminate H.
Defined.

Lemma surreal_clear_all_data_missing_table_witness :
  clear_all_data
    (Scenario.surreal_world (Some "ws://localhost:8001/rpc") true true true)
  = (Raise (MemSurreal.no_such_table "Message"),
     MemSurreal.set_backend
       (MemSurreal.remove_all ["Episode"]
          (SurrealDB.backend
             (Scenario.surreal_world (Some "ws://localhost:8001/rpc")
                true true true)))
       (Scenario.surreal_world (Some "ws://localhost:8001/rpc")
          true true true))
  /\ (forall t',
         t' ∈ ["Entity"; "MENTIONS"; "HAS_MESSAGE"; "REFERS_TO"] ->
         MemSurreal.records
           (MemSurreal.remove_all ["Episode"]
              (SurrealDB.backend
                 (Scenario.surreal_world (Some "ws://localhost:8001/rpc")
                    true true true))) !! t'
         = MemSurreal.records
             (SurrealDB.backend
                (Scenario.surreal_world (Some "ws://localhost:8001/rpc")
                   true true true)) !! t').
Proof.
  apply (surreal_clear_all_data_missing_table
           (Scenario.surreal_world (Some "ws://localhost:8001/rpc")
              true true true)
           "ws://localhost:8001/rpc" ["Episode"]
           ["Entity"; "MENTIONS"; "HAS_MESSAGE"; "REFERS_TO"] "Message"
           (surreal_world_serving true true) eq_refl).
  - repeat constructor.
  - reflexivity.
Defined.

(** On a database that holds an entity and lacks the Message table,
    [clear_all_data] raises and the entity is still there. *)
Example clear_all_data_leaves_the_entities :
  fst (SurrealDB.clear_all_data SurrealScenario.entity_world)
  = Raise (MemSurreal.no_such_table "Message")
  /\ MemSurreal.records
       (SurrealDB.backend
          (snd (SurrealDB.clear_all_data SurrealScenario.entity_world)))
       !! "Entity"
     = Some [{[ "id" := PStr "en-1"; "name" := PStr "n" ]}].
Proof. split; vm_compute; reflexivity. Qed.

(** C9, at the failing input.  A Connected SurrealDB adapter whose client
    is synchronous: [self.client.close()] returns a value that is not
    awaitable, [await] raises [TypeError], and [self.client = None] is
    never reached.  [close] raises, the adapter stays Connected, and a
    second [close] raises again.  With an asynchronous client on the same
    database [close] returns and the adapter is Disconnected. *)
Theorem surreal_close_synchronous_client :
  SurrealDB.connected
    (Scenario.surreal_world (Some "ws://localhost:8001/rpc") true false true)
  /\ SurrealDB.close
       (Scenario.surreal_world (Some "ws://localhost:8001/rpc")
          true false true)
     = (Raise (mk_exn TypeError "object can't be used in 'await' expression"),
        Scenario.surreal_world (Some "ws://localhost:8001/rpc")
          true false true)
  /\ SurrealDB.close
       (Scenario.surreal_world (Some "ws://localhost:8001/rpc")
          true true true)
     = (Return tt, Scenario.surreal_world None true true true).
Proof. split; [by eexists|split; reflexivity]. Qed.

(** * Further properties of the adapters *)

(** ** The handle is assigned by connect and close only *)

Section Neo4jHandle.
Context {server drv sess res : Type}.
Context `{!Neo4j.Neo4jDriverAPI server drv sess res}.
Implicit Types w : Neo4j.world server drv.
Local Abbreviation keeps_self :=
  (Neo4j.keeps_self (server := server) (drv := drv)).

Lemma neo4j_keeps_run_each session stmts :
  keeps_self (Neo4j.run_each session stmts).
Proof.
  induction stmts as [|stmt stmts IH]; [apply neo4j_keeps_ret|].
  cbn [Neo4j.run_each].
  apply neo4j_keeps_bind; [apply neo4j_keeps_call|by intros _].
Qed.

Lemma neo4j_keeps_get_session : keeps_self Neo4j.get_session.
Proof.
  apply neo4j_keeps_bind; [apply neo4j_keeps_require_driver|].
  intros d. apply neo4j_keeps_call.
Qed.

Lemma neo4j_keeps_build_indices delete_existing :
  keeps_self (Neo4j.build_indices delete_existing).
Proof.
  apply neo4j_keeps_bind; [apply neo4j_keeps_require_driver|]. intros d.
  apply neo4j_keeps_with_session. intros s.
  apply neo4j_keeps_bind.
  - destruct delete_existing; [|apply neo4j_keeps_ret].
    apply neo4j_keeps_bind; [apply neo4j_keeps_call|].
    intros _. apply neo4j_keeps_ret.
  - intros _. apply neo4j_keeps_bind; [apply neo4j_keeps_run_each|].
    intros _. apply neo4j_keeps_run_each.
Qed.

Lemma neo4j_keeps_clear_all_data : keeps_self Neo4j.clear_all_data.
Proof.
  apply neo4j_keeps_bind; [apply neo4j_keeps_require_driver|]. intros d.
  apply neo4j_keeps_with_session. intros s.
  apply neo4j_keeps_bind; [apply neo4j_keeps_call|].
  intros _. apply neo4j_keeps_ret.
Qed.

Lemma neo4j_keeps_get_episodes : keeps_self Neo4j.get_episodes.
Proof.
  apply neo4j_keeps_bind; [apply neo4j_keeps_require_driver|]. intros d.
  apply neo4j_keeps_bind; [|intros; apply neo4j_keeps_ret].
  apply neo4j_keeps_with_session. intros s.
  apply neo4j_keeps_bind; [apply neo4j_keeps_call|]. intros r.
  apply neo4j_keeps_bind; [apply neo4j_keeps_call|].
  intros; apply neo4j_keeps_ret.
Qed.

Lemma neo4j_keeps_get_one_episode episode_id :
  keeps_self (Neo4j.get_one_episode episode_id).
Proof.
  apply neo4j_keeps_bind; [apply neo4j_keeps_require_driver|]. intros d.
  apply neo4j_keeps_with_session. intros s.
  apply neo4j_keeps_bind; [apply neo4j_keeps_call|]. intros r.
  apply neo4j_keeps_bind; [apply neo4j_keeps_call|].
  intros; apply neo4j_keeps_ret.
Qed.

Lemma neo4j_keeps_handle w : keeps Neo4j.self w.
Proof.
  repeat split; intros.
  - apply neo4j_execute_query_keeps_self.
  - apply neo4j_keeps_require_driver.
  - apply neo4j_keeps_get_session.
  - apply neo4j_keeps_build_indices.
  - apply neo4j_keeps_clear_all_data.
  - apply neo4j_keeps_get_episodes.
  - apply neo4j_keeps_get_one_episode.
Qed.

End Neo4jHandle.

Section SurrealHandle.
Context {server cli : Type}.
Context `{!SurrealDB.SurrealClientAPI server cli}.
Implicit Types w : SurrealDB.world server cli.
Local Abbreviation keeps_self :=
  (SurrealDB.keeps_self (server := server) (cli := cli)).

Lemma surreal_keeps_query_each c queries :
  keeps_self (SurrealDB.query_each c queries).
Proof.
  induction queries as [|q queries IH]; [apply surreal_keeps_ret|].
  cbn [SurrealDB.query_each].
  apply surreal_keeps_bind; [apply surreal_keeps_call|]. intros r.
  apply surreal_keeps_bind; [apply surreal_keeps_maybe_await|by intros _].
Qed.

Lemma surreal_keeps_clear_all_data : keeps_self SurrealDB.clear_all_data.
Proof.
  apply surreal_keeps_bind; [apply surreal_keeps_require_client|].
  intros c. apply surreal_keeps_query_each.
Qed.

Lemma surreal_keeps_build_indices delete_existing :
  keeps_self (SurrealDB.build_indices delete_existing).
Proof.
  apply surreal_keeps_bind; [apply surreal_keeps_require_client|].
  intros c. apply surreal_keeps_bind.
  - destruct delete_existing;
      [apply surreal_keeps_clear_all_data|apply surreal_keeps_ret].
  - intros _. apply surreal_keeps_query_each.
Qed.

Lemma surreal_keeps_get_episodes : keeps_self SurrealDB.get_episodes.
Proof.
  apply surreal_keeps_bind; [apply surreal_keeps_require_client|]. intros c.
  apply surreal_keeps_bind; [apply surreal_keeps_call|]. intros r.
  apply surreal_keeps_bind; [apply surreal_keeps_maybe_await|].
  intros; apply surreal_keeps_lift.
Qed.

Lemma surreal_keeps_get_one_episode episode_id :
  keeps_self (SurrealDB.get_one_episode episode_id).
Proof.
  apply surreal_keeps_bind; [apply surreal_keeps_require_client|]. intros c.
  apply surreal_keeps_bind; [apply surreal_keeps_call|]. intros r.
  apply surreal_keeps_bind; [apply surreal_keeps_maybe_await|].
  intros; apply surreal_keeps_lift.
Qed.

Lemma surreal_keeps_handle w : keeps SurrealDB.self w.
Proof.
  repeat split; intros.
  - apply surreal_execute_query_keeps_self.
  - apply surreal_keeps_require_client.
  - apply surreal_keeps_require_client.
  - apply surreal_keeps_build_indices.
  - apply surreal_keeps_clear_all_data.
  - apply surreal_keeps_get_episodes.
  - apply surreal_keeps_get_one_episode.
Qed.

End SurrealHandle.

(** X1.  No data operation of either adapter assigns the adapter's fields:
    after [execute_query], [get_driver], [get_session], [build_indices],
    [clear_all_data], [get_episodes] or [get_one_episode] the adapter
    object ([self.driver]; [self.client], [self.namespace],
    [self.database]) is what it was before, whether the operation returned
    or raised and whatever the native driver did.  A Connected adapter stays
    Connected with the same handle, a Disconnected one stays
    Disconnected. *)
Theorem data_operations_keep_adapter :
  (forall (server drv sess res : Type)
          (api : Neo4j.Neo4jDriverAPI server drv sess res)
          (w : Neo4j.world server drv),
      keeps Neo4j.self w)
  /\
  (forall (server cli : Type)
          (api : SurrealDB.SurrealClientAPI server cli)
          (w : SurrealDB.world server cli),
      keeps SurrealDB.self w).
Proof.
  split; intros.
  - apply neo4j_keeps_handle.
  - apply surreal_keeps_handle.
Qed.

(** ** What connect does, step by step *)

Section Neo4jConnectSteps.
Context {server drv sess res : Type}.
Context `{!Neo4j.Neo4jDriverAPI server drv sess res}.
Implicit Types w : Neo4j.world server drv.

Lemma neo4j_connect_body_probe w uri user password d session s1 s2 r s3 :
  Neo4j.graph_database_driver uri user password (Neo4j.backend w)
  = (Return d, s1) ->
  Neo4j.driver_session d s1 = (Return session, s2) ->
  Neo4j.session_run session "RETURN 1" None s2 = (r, s3) ->
  Neo4j.connect_body uri user password w
  = match Neo4j.session_aexit session s3 with
    | (Return _, s4) =>
        (match r with Return _ => Return tt | Raise e => Raise e end,
         {| Neo4j.self := {| Neo4j.driver := Some d |};
            Neo4j.backend := s4 |})
    | (Raise e, s4) =>
        (Raise e,
         {| Neo4j.self := {| Neo4j.driver := Some d |};
            Neo4j.backend := s4 |})
    end.
Proof.
  intros Hg Hs Hr. unfold Neo4j.connect_body.
  rewrite run_bind. unfold Neo4j.call at 1. rewrite Hg.
  rewrite run_bind. unfold Neo4j.set_driver, modify.
  unfold Neo4j.with_session. rewrite run_bind.
  unfold Neo4j.call at 1. cbn [Neo4j.backend]. rewrite Hs.
  unfold finally_. rewrite run_bind.
  unfold Neo4j.call at 1. cbn [Neo4j.backend]. rewrite Hr.
  destruct r as [a|e]; unfold Neo4j.call; cbn;
    by destruct (Neo4j.session_aexit session s3) as [[[]|e'] s4].
Qed.

End Neo4jConnectSteps.

(** X2.  Neo4j [connect], once the driver object is created and a session
    is open: when the [RETURN 1] probe returns, [connect] returns and the
    new driver is the adapter's handle; when the probe raises [e], the
    session is exited and [connect] raises
    [ConnectionError("Failed to connect to Neo4j: " + str(e))] if [e] is a
    [DriverError], and [e] itself, unwrapped, if it is anything else (an
    authentication [ClientError], say).  In all three cases the new driver
    stays in [self.driver]. *)
Theorem neo4j_connect_probe_outcomes :
  forall (server drv sess res : Type)
         (api : Neo4j.Neo4jDriverAPI server drv sess res)
         (w : Neo4j.world server drv) (uri user password : string)
         (d : drv) (session : sess) (s1 s2 s3 s4 : server)
         (r : outcome res),
    Neo4j.graph_database_driver uri user password (Neo4j.backend w)
    = (Return d, s1) ->
    Neo4j.driver_session d s1 = (Return session, s2) ->
    Neo4j.session_run session "RETURN 1" None s2 = (r, s3) ->
    Neo4j.session_aexit session s3 = (Return tt, s4) ->
    connect uri user password w
    = (match r with
       | Return _ => Return tt
       | Raise e =>
           if isinstance_DriverError e
           then Raise (mk_exn ConnectionError
                         ("Failed to connect to Neo4j: " ++ str e))
           else Raise e
       end,
       {| Neo4j.self := {| Neo4j.driver := Some d |}; Neo4j.backend := s4 |}).
Proof.
  intros server drv sess res api w uri user password d session s1 s2 s3 s4 r
    Hg Hs Hr Hx.
  cbn [connect Neo4j.Neo4jAdapter_interface].
  unfold Neo4j.connect, try_except.
  rewrite (neo4j_connect_body_probe w uri user password d session s1 s2 r s3
             Hg Hs Hr), Hx.
  destruct r as [a|e]; [done|].
  by destruct (isinstance_DriverError e).
Qed.

Lemma neo4j_connect_probe_outcomes_witness :
  Neo4j.connect "bolt://localhost:7687" "neo4j" "wrong"
    (Scenario.neo4j_world None true)
  = (Raise (mk_exn ClientError
              "The client is unauthorized due to authentication failure."),
     Scenario.neo4j_world (Some ("neo4j", "wrong")) true).
Proof.
  exact (neo4j_connect_probe_outcomes _ _ _ _ _
           (Scenario.neo4j_world None true)
           "bolt://localhost:7687" "neo4j" "wrong" ("neo4j", "wrong")
           ("neo4j", "wrong") _ _ _ _
           (Raise (mk_exn ClientError
                     "The client is unauthorized due to authentication failure."))
           eq_refl eq_refl eq_refl eq_refl).
Defined.

Section SurrealConnectSteps.
Context {server cli : Type}.
Context `{!SurrealDB.SurrealClientAPI server cli}.
Implicit Types w : SurrealDB.world server cli.

Lemma surreal_connect_body_no_client w uri user password ns db e s1 :
  SurrealDB.Surreal uri (SurrealDB.backend w) = (Raise e, s1) ->
  SurrealDB.connect_body uri user password ns db w
  = (Raise e, scoped (SurrealDB.client (SurrealDB.self w)) ns db s1).
Proof.
  intros Hg. unfold SurrealDB.connect_body.
  rewrite run_bind. unfold SurrealDB.set_scope at 1, modify at 1.
  rewrite run_bind. unfold SurrealDB.call at 1. cbn [SurrealDB.backend].
  by rewrite Hg.
Qed.

Lemma surreal_connect_body_client w uri user password ns db c s1 :
  SurrealDB.Surreal uri (SurrealDB.backend w) = (Return c, s1) ->
  SurrealDB.connect_body uri user password ns db w
  = try_except (SurrealDB.signin_and_use c user password ns db)
      isinstance_Exception
      (fun e => raise (SurrealDB.connection_failure e))
      (scoped (Some c) ns db s1).
Proof.
  intros Hg. unfold SurrealDB.connect_body.
  rewrite run_bind. unfold SurrealDB.set_scope at 1, modify at 1.
  rewrite run_bind. unfold SurrealDB.call at 1. cbn [SurrealDB.backend].
  by rewrite Hg.
Qed.

Lemma surreal_signin_fails w c user password ns db e s2 :
  fails (SurrealDB.client_signin c user password (SurrealDB.backend w)) e s2 ->
  SurrealDB.signin_and_use c user password ns db w
  = (Raise e, {| SurrealDB.self := SurrealDB.self w;
                 SurrealDB.backend := s2 |}).
Proof.
  intros Hf. unfold SurrealDB.signin_and_use.
  rewrite run_bind. unfold SurrealDB.call at 1.
  by destruct Hf as [-> | ->].
Qed.

Lemma surreal_use_fails w c user password ns db token e s2 s3 :
  yields (SurrealDB.client_signin c user password (SurrealDB.backend w))
    token s2 ->
  fails (SurrealDB.client_use c ns db s2) e s3 ->
  SurrealDB.signin_and_use c user password ns db w
  = (Raise e, {| SurrealDB.self := SurrealDB.self w;
                 SurrealDB.backend := s3 |}).
Proof.
  intros Hy Hf. unfold SurrealDB.signin_and_use.
  rewrite run_bind. unfold SurrealDB.call at 1.
  destruct Hy as [-> | ->]; rewrite run_bind; cbn [maybe_await await];
    unfold ret; rewrite run_bind; unfold SurrealDB.call at 1;
    cbn [SurrealDB.backend]; by destruct Hf as [-> | ->].
Qed.

Lemma surreal_signin_and_use_returns w c user password ns db token u s2 s3 :
  yields (SurrealDB.client_signin c user password (SurrealDB.backend w))
    token s2 ->
  yields (SurrealDB.client_use c ns db s2) u s3 ->
  SurrealDB.signin_and_use c user password ns db w
  = (Return tt, {| SurrealDB.self := SurrealDB.self w;
                   SurrealDB.backend := s3 |}).
Proof.
  intros Hy Hu. unfold SurrealDB.signin_and_use.
  rewrite run_bind. unfold SurrealDB.call at 1.
  destruct Hy as [-> | ->]; rewrite run_bind; cbn [maybe_await await];
    unfold ret; rewrite run_bind; unfold SurrealDB.call at 1;
    cbn [SurrealDB.backend]; by destruct Hu as [-> | ->].
Qed.

Lemma surreal_connect_inner_failure w uri user password ns db c s1 e w' :
  SurrealDB.Surreal uri (SurrealDB.backend w) = (Return c, s1) ->
  SurrealDB.signin_and_use c user password ns db (scoped (Some c) ns db s1)
  = (Raise e, w') ->
  SurrealDB.connect_scoped uri user password ns db w
  = (Raise (twice_wrapped e), w').
Proof.
  intros Hg Hs. unfold SurrealDB.connect_scoped.
  unfold try_except at 1.
  rewrite (surreal_connect_body_client w uri user password ns db c s1 Hg).
  unfold try_except, twice_wrapped. rewrite Hs.
  destruct (isinstance_Exception e) eqn:He; [|by rewrite He].
  reflexivity.
Qed.

End SurrealConnectSteps.

Section SurrealConnectOutcomes.
Context {server cli : Type}.
Context `{!SurrealDB.SurrealClientAPI server cli}.
Implicit Types w : SurrealDB.world server cli.

Lemma surreal_connect_no_client w uri user password ns db e s1 :
  SurrealDB.Surreal uri (SurrealDB.backend w) = (Raise e, s1) ->
  SurrealDB.connect_scoped uri user password ns db w
  = (Raise (if isinstance_Exception e then SurrealDB.connection_failure e
            else e),
     scoped (SurrealDB.client (SurrealDB.self w)) ns db s1).
Proof.
  intros Hg. unfold SurrealDB.connect_scoped, try_except.
  rewrite (surreal_connect_body_no_client w uri user password ns db e s1 Hg).
  by destruct (isinstance_Exception e).
Qed.

Lemma surreal_connect_signin_fails w uri user password ns db c s1 e s2 :
  SurrealDB.Surreal uri (SurrealDB.backend w) = (Return c, s1) ->
  fails (SurrealDB.client_signin c user password s1) e s2 ->
  SurrealDB.connect_scoped uri user password ns db w
  = (Raise (twice_wrapped e), scoped (Some c) ns db s2).
Proof.
  intros Hg Hf.
  apply (surreal_connect_inner_failure w uri user password ns db c s1 e _ Hg).
  exact (surreal_signin_fails (scoped (Some c) ns db s1) c user password
           ns db e s2 Hf).
Qed.

Lemma surreal_connect_use_fails w uri user password ns db c s1 token s2 e s3 :
  SurrealDB.Surreal uri (SurrealDB.backend w) = (Return c, s1) ->
  yields (SurrealDB.client_signin c user password s1) token s2 ->
  fails (SurrealDB.client_use c ns db s2) e s3 ->
  SurrealDB.connect_scoped uri user password ns db w
  = (Raise (twice_wrapped e), scoped (Some c) ns db s3).
Proof.
  intros Hg Hy Hf.
  apply (surreal_connect_inner_failure w uri user password ns db c s1 e _ Hg).
  exact (surreal_use_fails (scoped (Some c) ns db s1) c user password
           ns db token e s2 s3 Hy Hf).
Qed.

Lemma surreal_connect_succeeds w uri user password ns db c s1 token s2 u s3 :
  SurrealDB.Surreal uri (SurrealDB.backend w) = (Return c, s1) ->
  yields (SurrealDB.client_signin c user password s1) token s2 ->
  yields (SurrealDB.client_use c ns db s2) u s3 ->
  SurrealDB.connect_scoped uri user password ns db w
  = (Return tt, scoped (Some c) ns db s3).
Proof.
  intros Hg Hy Hu. unfold SurrealDB.connect_scoped.
  unfold try_except at 1.
  rewrite (surreal_connect_body_client w uri user password ns db c s1 Hg).
  unfold try_except.
  by rewrite (surreal_signin_and_use_returns (scoped (Some c) ns db s1) c
                user password ns db token u s2 s3 Hy Hu).
Qed.

(** Every call ends in one of the two ways. *)
Lemma yields_or_fails {A} (r : outcome (call_result A) * server) :
  (exists a s', yields r a s') \/ (exists e s', fails r e s').
Proof.
  destruct r as [[[a|[a|e]]|e] s'].
  - left. exists a, s'. by left.
  - left. exists a, s'. by right.
  - right. exists e, s'. by right.
  - right. exists e, s'. by left.
Qed.

Lemma surreal_connect_records_scope w uri user password ns db :
  SurrealDB.namespace
    (SurrealDB.self (snd (SurrealDB.connect_scoped uri user password ns db w)))
  = Some ns
  /\ SurrealDB.database
       (SurrealDB.self
          (snd (SurrealDB.connect_scoped uri user password ns db w)))
     = Some db.
Proof.
  destruct (SurrealDB.Surreal uri (SurrealDB.backend w)) as [[c|e] s1] eqn:Hg.
  - destruct (yields_or_fails (SurrealDB.client_signin c user password s1))
      as [(token & s2 & Hy)|(e & s2 & Hf)].
    + destruct (yields_or_fails (SurrealDB.client_use c ns db s2))
        as [(u & s3 & Hu)|(e & s3 & Hf)].
      * by rewrite (surreal_connect_succeeds w uri user password ns db
                      c s1 token s2 u s3 Hg Hy Hu).
      * by rewrite (surreal_connect_use_fails w uri user password ns db
                      c s1 token s2 e s3 Hg Hy Hf).
    + by rewrite (surreal_connect_signin_fails w uri user password ns db
                    c s1 e s2 Hg Hf).
  - by rewrite (surreal_connect_no_client w uri user password ns db e s1 Hg).
Qed.

End SurrealConnectOutcomes.

(** X3.  SurrealDB [connect], case by case.  If [Surreal(uri)] raises an
    [Exception] [e], [connect] raises
    [ConnectionError("Failed to connect to SurrealDB: " + str(e))] and the
    client field is what it was.  If the client is created and [signin] or
    [use] fails with [e] (raised at the call or when awaited), the inner
    and the outer handler both wrap it: [connect] raises [ConnectionError]
    with the prefix twice, and the new client stays in [self.client].  An
    exception that is not an [Exception] passes through both handlers
    unchanged.  If both calls succeed [connect] returns with the new client
    assigned. *)
Theorem surreal_connect_outcomes :
  forall (server cli : Type) (api : SurrealDB.SurrealClientAPI server cli)
         (w : SurrealDB.world server cli) (uri user password : string),
    (forall e s1,
        SurrealDB.Surreal uri (SurrealDB.backend w) = (Raise e, s1) ->
        connect uri user password w
        = (Raise (if isinstance_Exception e
                  then mk_exn ConnectionError
                         ("Failed to connect to SurrealDB: " ++ str e)
                  else e),
           scoped (SurrealDB.client (SurrealDB.self w))
             "graphiti" "graphiti" s1))
    /\ (forall c s1 e s2,
           SurrealDB.Surreal uri (SurrealDB.backend w) = (Return c, s1) ->
           fails (SurrealDB.client_signin c user password s1) e s2 ->
           connect uri user password w
           = (Raise (twice_wrapped e),
              scoped (Some c) "graphiti" "graphiti" s2))
    /\ (forall c s1 token s2 e s3,
           SurrealDB.Surreal uri (SurrealDB.backend w) = (Return c, s1) ->
           yields (SurrealDB.client_signin c user password s1) token s2 ->
           fails (SurrealDB.client_use c "graphiti" "graphiti" s2) e s3 ->
           connect uri user password w
           = (Raise (twice_wrapped e),
              scoped (Some c) "graphiti" "graphiti" s3))
    /\ (forall c s1 token s2 u s3,
           SurrealDB.Surreal uri (SurrealDB.backend w) = (Return c, s1) ->
           yields (SurrealDB.client_signin c user password s1) token s2 ->
           yields (SurrealDB.client_use c "graphiti" "graphiti" s2) u s3 ->
           connect uri user password w
           = (Return tt, scoped (Some c) "graphiti" "graphiti" s3)).
Proof.
  intros server cli api w uri user password. split; [|split; [|split]].
  - intros e s1 Hg.
    exact (surreal_connect_no_client w uri user password _ _ e s1 Hg).
  - intros c s1 e s2 Hg Hf.
    exact (surreal_connect_signin_fails w uri user password _ _ c s1 e s2
             Hg Hf).
  - intros c s1 token s2 e s3 Hg Hy Hf.
    exact (surreal_connect_use_fails w uri user password _ _ c s1 token s2
             e s3 Hg Hy Hf).
  - intros c s1 token s2 u s3 Hg Hy Hu.
    exact (surreal_connect_succeeds w uri user password _ _ c s1 token s2
             u s3 Hg Hy Hu).
Qed.

Lemma surreal_connect_outcomes_witness :
  connect "ws://localhost:8001/rpc" "root" "wrong"
    (Scenario.surreal_world None true true true)
  = (Raise (mk_exn ConnectionError
              "Failed to connect to SurrealDB: Failed to connect to SurrealDB: There was a problem with authentication"),
     scoped (Some "ws://localhost:8001/rpc") "graphiti" "graphiti"
       (Scenario.surreal_server true true true))
  /\ connect "ws://localhost:8001/rpc" "root" "secret"
       (Scenario.surreal_world None true false true)
     = (Return tt,
        scoped (Some "ws://localhost:8001/rpc") "graphiti" "graphiti"
          (Scenario.surreal_server true false true)).
Proof.
  split.
  - apply (proj1 (proj2 (surreal_connect_outcomes _ _ _
                           (Scenario.surreal_world None true true true)
                           "ws://localhost:8001/rpc" "root" "wrong"))
             "ws://localhost:8001/rpc"
             (Scenario.surreal_server true true true)
             (mk_exn OtherException "There was a problem with authentication")).
    + reflexivity.
    + right. reflexivity.
  - apply (proj2 (proj2 (proj2 (surreal_connect_outcomes _ _ _
                                  (Scenario.surreal_world None true false true)
                                  "ws://localhost:8001/rpc" "root" "secret")))
             "ws://localhost:8001/rpc"
             (Scenario.surreal_server true false true)
             (PStr "token") (Scenario.surreal_server true false true) PNone).
    + reflexivity.
    + left. reflexivity.
    + left. reflexivity.
Defined.

(** X4.  SurrealDB [connect] stores the namespace and the database it is
    called with in the adapter before it does anything else: whatever the
    client does, and whether [connect] returns or raises, afterwards
    [self.namespace] and [self.database] are the requested ones, and
    ["graphiti"] for both when [connect] is called with its defaults. *)
Theorem surreal_connect_keeps_requested_scope :
  forall (server cli : Type) (api : SurrealDB.SurrealClientAPI server cli)
         (w : SurrealDB.world server cli) (uri user password ns db : string),
    (SurrealDB.namespace
       (SurrealDB.self
          (snd (SurrealDB.connect_scoped uri user password ns db w)))
     = Some ns
     /\ SurrealDB.database
          (SurrealDB.self
             (snd (SurrealDB.connect_scoped uri user password ns db w)))
        = Some db)
    /\ SurrealDB.namespace
         (SurrealDB.self (snd (connect uri user password w)))
       = Some "graphiti"
    /\ SurrealDB.database
         (SurrealDB.self (snd (connect uri user password w)))
       = Some "graphiti".
Proof.
  intros server cli api w uri user password ns db. split.
  - apply surreal_connect_records_scope.
  - exact (surreal_connect_records_scope w uri user password
             "graphiti" "graphiti").
Qed.

(** ** Errors of the provisioning operations *)

Section Neo4jErrors.
Context {server drv sess res : Type}.
Context `{!Neo4j.Neo4jDriverAPI server drv sess res}.
Implicit Types w : Neo4j.world server drv.

Lemma neo4j_call_raises {A} (f : server -> outcome A * server) w e w' :
  Neo4j.call f w = (Raise e, w') ->
  exists s', f (Neo4j.backend w) = (Raise e, s').
Proof.
  unfold Neo4j.call. destruct (f (Neo4j.backend w)) as [[a|e'] s'] eqn:Hf;
    [done|]. intros [= <- <-]. by exists s'.
Qed.

Lemma neo4j_run_each_raises session stmts w e w' :
  Neo4j.run_each session stmts w = (Raise e, w') ->
  exists q s s',
    q ∈ stmts /\ Neo4j.session_run session q None s = (Raise e, s').
Proof.
  revert w. induction stmts as [|stmt stmts IH]; intros w; [done|].
  cbn [Neo4j.run_each]. rewrite run_bind.
  destruct (Neo4j.call (Neo4j.session_run session stmt None) w)
    as [[r|e1] w1] eqn:Hc.
  - intros Hr. destruct (IH w1 Hr) as (q & s & s' & Hq & Hs).
    exists q, s, s'. split; [by apply list_elem_of_further|done].
  - intros [= <- <-]. destruct (neo4j_call_raises _ _ _ _ Hc) as [s' Hs].
    exists stmt, (Neo4j.backend w), s'. split; [apply list_elem_of_here|done].
Qed.

(** An exception out of [async with] comes from opening the session, from
    the body, or from the exit. *)
Lemma neo4j_with_session_raises {A} d (body : sess -> M _ A) w e w' :
  Neo4j.with_session d body w = (Raise e, w') ->
  (exists s s', Neo4j.driver_session d s = (Raise e, s'))
  \/ (exists session w1 w2, body session w1 = (Raise e, w2))
  \/ (exists session s s', Neo4j.session_aexit session s = (Raise e, s')).
Proof.
  unfold Neo4j.with_session. rewrite run_bind.
  destruct (Neo4j.call (Neo4j.driver_session d) w) as [[session|e1] w1] eqn:Hc.
  - unfold finally_.
    destruct (body session w1) as [r w2] eqn:Hb.
    destruct (Neo4j.call (Neo4j.session_aexit session) w2)
      as [[[]|e2] w3] eqn:Hx.
    + intros [= -> <-]. right; left. by exists session, w1, w2.
    + intros [= <- <-]. right; right.
      destruct (neo4j_call_raises _ _ _ _ Hx) as [s' Hs].
      by exists session, (Neo4j.backend w2), s'.
  - intros [= <- <-]. left.
    destruct (neo4j_call_raises _ _ _ _ Hc) as [s' Hs].
    by exists (Neo4j.backend w), s'.
Qed.

Lemma neo4j_build_indices_raises w d delete_existing e w' :
  Neo4j.driver (Neo4j.self w) = Some d ->
  Neo4j.build_indices delete_existing w = (Raise e, w') ->
  neo4j_raised d
    ((if delete_existing then [Neo4j.drop_schema_statement] else [])
     ++ Neo4j.constraint_statements ++ Neo4j.index_statements)%list e.
Proof.
  intros Hd. unfold Neo4j.build_indices.
  rewrite (run_bind_return _ _ _ _ _ (neo4j_require_driver_connected w d Hd)).
  intros Hw.
  destruct (neo4j_with_session_raises _ _ _ _ _ Hw)
    as [Ho|[(session & w1 & w2 & Hb)|Hx]];
    [by left| |by right; right].
  right; left. revert Hb. rewrite run_bind.
  destruct delete_existing.
  - rewrite run_bind.
    destruct (Neo4j.call
                (Neo4j.session_run session Neo4j.drop_schema_statement None)
                w1) as [[r|e1] w3] eqn:Hc.
    + rewrite run_ret, run_bind.
      destruct (Neo4j.run_each session Neo4j.constraint_statements w3)
        as [[[]|e2] w4] eqn:Hr1.
      * intros Hr2.
        destruct (neo4j_run_each_raises _ _ _ _ _ Hr2)
          as (q & s & s' & Hq & Hs).
        exists session, q, s, s'. split; [rewrite ?elem_of_app, ?list_elem_of_singleton; auto|done].
      * intros [= <- <-].
        destruct (neo4j_run_each_raises _ _ _ _ _ Hr1)
          as (q & s & s' & Hq & Hs).
        exists session, q, s, s'. split; [rewrite ?elem_of_app, ?list_elem_of_singleton; auto|done].
    + intros [= <- <-].
      destruct (neo4j_call_raises _ _ _ _ Hc) as [s' Hs].
      exists session, Neo4j.drop_schema_statement, (Neo4j.backend w1), s'.
      split; [rewrite ?elem_of_app, ?list_elem_of_singleton; auto|done].
  - rewrite run_ret, run_bind.
    destruct (Neo4j.run_each session Neo4j.constraint_statements w1)
      as [[[]|e2] w4] eqn:Hr1.
    + intros Hr2.
      destruct (neo4j_run_each_raises _ _ _ _ _ Hr2)
        as (q & s & s' & Hq & Hs).
      exists session, q, s, s'. split; [rewrite ?elem_of_app, ?list_elem_of_singleton; auto|done].
    + intros [= <- <-].
      destruct (neo4j_run_each_raises _ _ _ _ _ Hr1)
        as (q & s & s' & Hq & Hs).
      exists session, q, s, s'. split; [rewrite ?elem_of_app, ?list_elem_of_singleton; auto|done].
Qed.

Lemma neo4j_clear_all_data_raises w d e w' :
  Neo4j.driver (Neo4j.self w) = Some d ->
  Neo4j.clear_all_data w = (Raise e, w') ->
  neo4j_raised d ["MATCH (n) DETACH DELETE n"] e.
Proof.
  intros Hd. unfold Neo4j.clear_all_data.
  rewrite (run_bind_return _ _ _ _ _ (neo4j_require_driver_connected w d Hd)).
  intros Hw.
  destruct (neo4j_with_session_raises _ _ _ _ _ Hw)
    as [Ho|[(session & w1 & w2 & Hb)|Hx]];
    [by left| |by right; right].
  right; left. revert Hb. rewrite run_bind.
  destruct (Neo4j.call
              (Neo4j.session_run session "MATCH (n) DETACH DELETE n" None) w1)
    as [[r|e1] w3] eqn:Hc; [done|].
  intros [= <- <-]. destruct (neo4j_call_raises _ _ _ _ Hc) as [s' Hs].
  exists session, "MATCH (n) DETACH DELETE n", (Neo4j.backend w1), s'.
  split; [rewrite ?elem_of_app, ?list_elem_of_singleton; auto|done].
Qed.

End Neo4jErrors.

Section SurrealErrors.
Context {server cli : Type}.
Context `{!SurrealDB.SurrealClientAPI server cli}.
Implicit Types w : SurrealDB.world server cli.

Lemma surreal_query_each_raises c queries w e w' :
  SurrealDB.query_each c queries w = (Raise e, w') ->
  surreal_raised c queries e.
Proof.
  revert w. induction queries as [|q queries IH]; intros w; [done|].
  cbn [SurrealDB.query_each]. rewrite run_bind. unfold SurrealDB.call at 1.
  destruct (SurrealDB.client_query c q None (SurrealDB.backend w))
    as [[[v|[v|e1]]|e1] s1] eqn:Hq; cbv beta iota.
  - rewrite run_bind. cbn [maybe_await await]. unfold ret.
    intros Hr. destruct (IH _ Hr) as (q' & s & s' & Hq' & Hf).
    exists q', s, s'. split; [by apply list_elem_of_further|done].
  - rewrite run_bind. cbn [maybe_await await]. unfold ret.
    intros Hr. destruct (IH _ Hr) as (q' & s & s' & Hq' & Hf).
    exists q', s, s'. split; [by apply list_elem_of_further|done].
  - rewrite run_bind. cbn [maybe_await await]. unfold raise.
    intros [= <- <-].
    exists q, (SurrealDB.backend w), s1.
    split; [apply list_elem_of_here|by right].
  - intros [= <- <-]. exists q, (SurrealDB.backend w), s1.
    split; [apply list_elem_of_here|by left].
Qed.

Lemma surreal_raised_mono c queries queries' e :
  queries ⊆ queries' -> surreal_raised c queries e ->
  surreal_raised c queries' e.
Proof.
  intros Hsub (q & s & s' & Hq & Hf). exists q, s, s'. split; [|done].
  by apply Hsub.
Qed.

Lemma surreal_clear_all_data_raises w c e w' :
  SurrealDB.client (SurrealDB.self w) = Some c ->
  SurrealDB.clear_all_data w = (Raise e, w') ->
  surreal_raised c remove_table_queries e.
Proof.
  intros Hc. unfold SurrealDB.clear_all_data.
  rewrite (run_bind_return _ _ _ _ _
             (surreal_require_client_connected w c Hc)).
  apply surreal_query_each_raises.
Qed.

Lemma surreal_build_indices_raises w c delete_existing e w' :
  SurrealDB.client (SurrealDB.self w) = Some c ->
  SurrealDB.build_indices delete_existing w = (Raise e, w') ->
  surreal_raised c
    ((if delete_existing then remove_table_queries else [])
     ++ SurrealDB.schema_queries)%list e.
Proof.
  intros Hc. unfold SurrealDB.build_indices.
  rewrite (run_bind_return _ _ _ _ _
             (surreal_require_client_connected w c Hc)).
  rewrite run_bind. destruct delete_existing.
  - destruct (SurrealDB.clear_all_data w) as [[[]|e1] w1] eqn:Hcl.
    + intros Hr. eapply surreal_raised_mono;
        [|exact (surreal_query_each_raises _ _ _ _ _ Hr)].
      intros x Hx. apply elem_of_app. by right.
    + intros [= <- <-]. eapply surreal_raised_mono;
        [|exact (surreal_clear_all_data_raises w c _ _ Hc Hcl)].
      intros x Hx. apply elem_of_app. by left.
  - rewrite run_ret. intros Hr.
    exact (surreal_query_each_raises _ _ _ _ _ Hr).
Qed.

End SurrealErrors.

(** X5.  The Neo4j [build_indices] and [clear_all_data] have no handler of
    their own: on a Connected adapter, an exception they raise is, unchanged
    in class and message, an exception the native driver raised when opening
    the session, when running one of the statements of that operation, or
    when exiting the session.  It is not wrapped the way [execute_query]
    wraps its errors. *)
Theorem neo4j_provisioning_errors_unwrapped :
  forall (server drv sess res : Type)
         (api : Neo4j.Neo4jDriverAPI server drv sess res)
         (w w' : Neo4j.world server drv) (d : drv) (e : exn),
    Neo4j.driver (Neo4j.self w) = Some d ->
    (forall delete_existing,
        build_indices delete_existing w = (Raise e, w') ->
        neo4j_raised d
          ((if delete_existing then [Neo4j.drop_schema_statement] else [])
           ++ Neo4j.constraint_statements ++ Neo4j.index_statements)%list e)
    /\ (clear_all_data w = (Raise e, w') ->
        neo4j_raised d ["MATCH (n) DETACH DELETE n"] e).
Proof.
  intros server drv sess res api w w' d e Hd. split.
  - intros delete_existing Hb.
    exact (neo4j_build_indices_raises w d delete_existing e w' Hd Hb).
  - intros Hc. exact (neo4j_clear_all_data_raises w d e w' Hd Hc).
Qed.

Lemma neo4j_provisioning_errors_unwrapped_witness :
  neo4j_raised ("neo4j", "secret")
    ((if false then [Neo4j.drop_schema_statement] else [])
     ++ Neo4j.constraint_statements ++ Neo4j.index_statements)%list
    (mk_exn DriverError "Couldn't connect to the server").
Proof.
  exact (proj1 (neo4j_provisioning_errors_unwrapped _ _ _ _ _
                  (Scenario.neo4j_world (Some ("neo4j", "secret")) false)
                  (Scenario.neo4j_world (Some ("neo4j", "secret")) false)
                  ("neo4j", "secret")
                  (mk_exn DriverError "Couldn't connect to the server")
                  eq_refl)
           false eq_refl).
Defined.

(** X6.  The SurrealDB [build_indices] and [clear_all_data] have no handler
    of their own: on a Connected adapter, an exception they raise is,
    unchanged in class and message, an exception the native client raised
    (directly, or when its awaitable was awaited) for one of the queries of
    that operation; with [delete_existing] these include the
    [REMOVE TABLE] queries of [clear_all_data]. *)
Theorem surreal_provisioning_errors_unwrapped :
  forall (server cli : Type)
         (api : SurrealDB.SurrealClientAPI server cli)
         (w w' : SurrealDB.world server cli) (c : cli) (e : exn),
    SurrealDB.client (SurrealDB.self w) = Some c ->
    (forall delete_existing,
        build_indices delete_existing w = (Raise e, w') ->
        surreal_raised c
          ((if delete_existing then remove_table_queries else [])
           ++ SurrealDB.schema_queries)%list e)
    /\ (clear_all_data w = (Raise e, w') ->
        surreal_raised c remove_table_queries e).
Proof.
  intros server cli api w w' c e Hc. split.
  - intros delete_existing Hb.
    exact (surreal_build_indices_raises w c delete_existing e w' Hc Hb).
  - intros Hcl. exact (surreal_clear_all_data_raises w c e w' Hc Hcl).
Qed.

Lemma surreal_provisioning_errors_unwrapped_witness :
  surreal_raised "ws://localhost:8001/rpc"
    ((if true then remove_table_queries else [])
     ++ SurrealDB.schema_queries)%list
    MemSurreal.unreachable.
Proof.
  exact (proj1 (surreal_provisioning_errors_unwrapped _ _ _
                  (Scenario.surreal_world (Some "ws://localhost:8001/rpc")
                     false true true)
                  (Scenario.surreal_world (Some "ws://localhost:8001/rpc")
                     false true true)
                  "ws://localhost:8001/rpc"
                  MemSurreal.unreachable
                  eq_refl)
           true eq_refl).
Defined.

(** ** Sessions *)

Section Neo4jSessions.
Context {server drv sess res : Type}.
Context (api : Neo4j.Neo4jDriverAPI server drv sess res).
#[local] Existing Instance Sessions.recording.
Local Abbreviation world := (Neo4j.world (Sessions.logged server sess) drv).
Local Abbreviation opens_nothing := (Sessions.opens_nothing (server := server) (drv := drv) (sess := sess)).
Local Abbreviation exits_what_it_opens :=
  (Sessions.exits_what_it_opens (server := server) (drv := drv) (sess := sess)).

Lemma opens_nothing_ret {A} (a : A) : opens_nothing (mret a).
Proof. by intros w. Qed.

Lemma opens_nothing_raise {A} e : opens_nothing (raise e : M world A).
Proof. by intros w. Qed.

Lemma opens_nothing_bind {A B} (m : M world A) (k : A -> M world B) :
  opens_nothing m -> (forall a, opens_nothing (k a)) ->
  opens_nothing (m ≫= k).
Proof.
  intros Hm Hk w. rewrite run_bind. specialize (Hm w).
  destruct (m w) as [[a|e] w1]; [|done]. cbn [snd] in Hm.
  by rewrite Hk.
Qed.

Lemma opens_nothing_try {A} (body : M world A) catches handler :
  opens_nothing body -> (forall e, opens_nothing (handler e)) ->
  opens_nothing (try_except body catches handler).
Proof.
  intros Hb Hh w. unfold try_except. specialize (Hb w).
  destruct (body w) as [[a|e] w1]; [done|]. cbn [snd] in Hb.
  destruct (catches e); [|done]. by rewrite Hh.
Qed.

Lemma opens_nothing_quiet {A} (f : server -> outcome A * server) :
  opens_nothing (Neo4j.call (Sessions.quiet f)).
Proof.
  intros w. unfold Neo4j.call, Sessions.quiet, Sessions.log.
  by destruct (f (Neo4j.backend w).1) as [r s'].
Qed.

Lemma opens_nothing_run session query params :
  opens_nothing (Neo4j.call (Neo4j.session_run session query params)).
Proof. apply opens_nothing_quiet. Qed.

Lemma opens_nothing_values result :
  opens_nothing (Neo4j.call (Neo4j.result_values result)).
Proof. apply opens_nothing_quiet. Qed.

Lemma opens_nothing_require_driver : opens_nothing Neo4j.require_driver.
Proof. intros w. unfold Neo4j.require_driver. rewrite run_bind.
  unfold gets. by destruct (Neo4j.driver (Neo4j.self w)). Qed.

Lemma opens_nothing_set_driver d : opens_nothing (Neo4j.set_driver d).
Proof. by intros w. Qed.

Lemma opens_nothing_run_each session stmts :
  opens_nothing (Neo4j.run_each session stmts).
Proof.
  induction stmts as [|stmt stmts IH]; [apply opens_nothing_ret|].
  cbn [Neo4j.run_each].
  apply opens_nothing_bind; [apply opens_nothing_run|by intros _].
Qed.

Lemma exits_with_session {A} d (body : sess -> M world A) :
  (forall session, opens_nothing (body session)) ->
  exits_what_it_opens (Neo4j.with_session d body).
Proof.
  intros Hb w. unfold Neo4j.with_session. rewrite run_bind.
  unfold finally_, Neo4j.call.
  cbn [Neo4j.driver_session Neo4j.session_aexit Sessions.recording].
  unfold Sessions.opening, Sessions.exiting.
  destruct (Neo4j.driver_session d (Neo4j.backend w).1)
    as [[session|e] s1]; [|by left].
  right. exists session.
  specialize (Hb session
                {| Neo4j.self := Neo4j.self w;
                   Neo4j.backend :=
                     (s1, ((Neo4j.backend w).2
                           ++ [Sessions.Opened session])%list) |}).
  destruct (body session _) as [r w2]. cbn [snd] in Hb.
  destruct (Neo4j.session_aexit session (Neo4j.backend w2).1) as [[[]|e] s3];
    unfold Sessions.log in *; cbn [snd Neo4j.backend] in *;
    rewrite Hb, <- app_assoc; reflexivity.
Qed.

Lemma exits_bind_l {A B} (m : M world A) (k : A -> M world B) :
  opens_nothing m -> (forall a, exits_what_it_opens (k a)) ->
  exits_what_it_opens (m ≫= k).
Proof.
  intros Hm Hk w. rewrite run_bind. specialize (Hm w).
  destruct (m w) as [[a|e] w1]; cbn [snd] in Hm; [|by left].
  rewrite <- Hm. apply Hk.
Qed.

Lemma exits_bind_r {A B} (m : M world A) (k : A -> M world B) :
  exits_what_it_opens m -> (forall a, opens_nothing (k a)) ->
  exits_what_it_opens (m ≫= k).
Proof.
  intros Hm Hk w. rewrite run_bind. specialize (Hm w).
  destruct (m w) as [[a|e] w1]; cbn [snd] in Hm; [|done].
  by setoid_rewrite (Hk a w1).
Qed.

Lemma exits_try {A} (body : M world A) catches handler :
  exits_what_it_opens body -> (forall e, opens_nothing (handler e)) ->
  exits_what_it_opens (try_except body catches handler).
Proof.
  intros Hb Hh w. unfold try_except. specialize (Hb w).
  destruct (body w) as [[a|e] w1]; [done|]. cbn [snd] in Hb.
  destruct (catches e); [|done]. by setoid_rewrite (Hh e w1).
Qed.

Lemma neo4j_connect_exits uri user password :
  exits_what_it_opens (Neo4j.connect uri user password).
Proof.
  apply exits_try; [|intros e; apply opens_nothing_raise].
  apply exits_bind_l; [apply opens_nothing_quiet|]. intros d.
  apply exits_bind_l; [apply opens_nothing_set_driver|]. intros _.
  apply exits_with_session. intros session.
  apply opens_nothing_bind; [apply opens_nothing_run|].
  intros _. apply opens_nothing_ret.
Qed.

Lemma neo4j_close_opens_nothing : opens_nothing Neo4j.close.
Proof.
  apply opens_nothing_bind; [by intros w|]. intros [d|].
  - apply opens_nothing_bind; [apply opens_nothing_quiet|].
    intros _. apply opens_nothing_set_driver.
  - apply opens_nothing_ret.
Qed.

Lemma neo4j_execute_query_exits query parameters :
  exits_what_it_opens (Neo4j.execute_query query parameters).
Proof.
  apply exits_bind_l; [apply opens_nothing_require_driver|]. intros d.
  apply exits_try; [|intros e; apply opens_nothing_raise].
  apply exits_with_session. intros session. apply opens_nothing_run.
Qed.

Lemma neo4j_build_indices_exits delete_existing :
  exits_what_it_opens (Neo4j.build_indices delete_existing).
Proof.
  apply exits_bind_l; [apply opens_nothing_require_driver|]. intros d.
  apply exits_with_session. intros session.
  apply opens_nothing_bind.
  - destruct delete_existing; [|apply opens_nothing_ret].
    apply opens_nothing_bind; [apply opens_nothing_run|].
    intros _. apply opens_nothing_ret.
  - intros _. apply opens_nothing_bind; [apply opens_nothing_run_each|].
    intros _. apply opens_nothing_run_each.
Qed.

Lemma neo4j_clear_all_data_exits :
  exits_what_it_opens Neo4j.clear_all_data.
Proof.
  apply exits_bind_l; [apply opens_nothing_require_driver|]. intros d.
  apply exits_with_session. intros session.
  apply opens_nothing_bind; [apply opens_nothing_run|].
  intros _. apply opens_nothing_ret.
Qed.

Lemma neo4j_get_episodes_exits : exits_what_it_opens Neo4j.get_episodes.
Proof.
  apply exits_bind_l; [apply opens_nothing_require_driver|]. intros d.
  apply exits_bind_r; [|intros episodes; apply opens_nothing_ret].
  apply exits_with_session. intros session.
  apply opens_nothing_bind; [apply opens_nothing_run|]. intros result.
  apply opens_nothing_bind; [apply opens_nothing_values|].
  intros records. apply opens_nothing_ret.
Qed.

Lemma neo4j_get_one_episode_exits episode_id :
  exits_what_it_opens (Neo4j.get_one_episode episode_id).
Proof.
  apply exits_bind_l; [apply opens_nothing_require_driver|]. intros d.
  apply exits_with_session. intros session.
  apply opens_nothing_bind; [apply opens_nothing_run|]. intros result.
  apply opens_nothing_bind; [apply opens_nothing_values|].
  intros records. apply opens_nothing_ret.
Qed.

Lemma neo4j_get_session_hands_over :
  Sessions.hands_over Neo4j.get_session.
Proof.
  intros w. unfold Neo4j.get_session, Neo4j.require_driver.
  rewrite !run_bind. unfold gets.
  destruct (Neo4j.driver (Neo4j.self w)) as [d|]; [|done].
  rewrite run_ret. unfold Neo4j.call.
  cbn [Neo4j.driver_session Sessions.recording]. unfold Sessions.opening.
  by destruct (Neo4j.driver_session d (Neo4j.backend w).1) as [[session|e] s1].
Qed.

End Neo4jSessions.

(** X7.  Over any neo4j driver, [connect] and the five data operations that
    use a session open at most one session and exit the session they
    opened, whether they return or raise; [close] and [get_driver] open
    none.  [get_session] is the one method that opens a session and does
    not exit it: it hands it to the caller. *)
Theorem neo4j_sessions_are_exited :
  forall (server drv sess res : Type)
         (api : Neo4j.Neo4jDriverAPI server drv sess res),
    let recorded := Sessions.adapter api in
    (forall uri user password,
        Sessions.exits_what_it_opens (connect uri user password))
    /\ Sessions.opens_nothing close
    /\ (forall query parameters,
           Sessions.exits_what_it_opens (execute_query query parameters))
    /\ Sessions.opens_nothing get_driver
    /\ Sessions.hands_over get_session
    /\ (forall delete_existing,
           Sessions.exits_what_it_opens (build_indices delete_existing))
    /\ Sessions.exits_what_it_opens clear_all_data
    /\ Sessions.exits_what_it_opens get_episodes
    /\ (forall episode_id,
           Sessions.exits_what_it_opens (get_one_episode episode_id)).
Proof.
  intros server drv sess res api recorded.
  split; [exact (neo4j_connect_exits api)|].
  split; [exact (neo4j_close_opens_nothing api)|].
  split; [exact (neo4j_execute_query_exits api)|].
  split; [exact opens_nothing_require_driver|].
  split; [exact (neo4j_get_session_hands_over api)|].
  split; [exact (neo4j_build_indices_exits api)|].
  split; [exact (neo4j_clear_all_data_exits api)|].
  split; [exact (neo4j_get_episodes_exits api)|].
  exact (neo4j_get_one_episode_exits api).
Qed.

(** ** Looking up a stored episode *)

Lemma filter_head_of_elem {A} (P : A -> Prop) `{!forall x, Decision (P x)}
    (l : list A) (x : A) :
  x ∈ l -> P x -> exists y rest, filter P l = y :: rest /\ y ∈ l /\ P y.
Proof.
  intros Hx HP.
  assert (Hin : x ∈ filter P l) by (by apply list_elem_of_filter).
  destruct (filter P l) as [|y rest] eqn:Hf; [by apply elem_of_nil in Hin|].
  exists y, rest. split; [done|].
  assert (Hy : y ∈ filter P l) by (rewrite Hf; apply list_elem_of_here).
  apply list_elem_of_filter in Hy as [HPy Hy]. by split.
Qed.

Lemma neo4j_get_one_episode_stored (w : MemNeo4j.world) d episode_id :
  MemNeo4j.serving w d ->
  (exists n, neo4j_stored episode_id (Neo4j.backend w) n) ->
  exists n,
    neo4j_stored episode_id (Neo4j.backend w) n
    /\ Neo4j.get_one_episode episode_id w
       = (Return (PDict (MemNeo4j.properties n)), w).
Proof.
  intros Hs (n & Hn & Hl & Hi).
  rewrite (MemNeo4jFacts.neo4j_get_one_episode_mem w d episode_id Hs).
  unfold MemNeo4j.episode_rows_by_id.
  destruct (filter_head_of_elem
              (fun n => MemNeo4j.is_episode n
                        && MemNeo4j.has_id (PStr episode_id) n)
              (MemNeo4j.nodes (Neo4j.backend w)) n Hn) as (y & rest & -> & Hy & HP).
  { apply Is_true_true, andb_true_intro. split.
    - by apply bool_decide_eq_true.
    - by apply MemNeo4jFacts.neo4j_has_id_spec. }
  apply Is_true_true, andb_prop in HP as [Hyl Hyi].
  apply bool_decide_eq_true in Hyl.
  apply MemNeo4jFacts.neo4j_has_id_spec in Hyi.
  exists y. split; [by repeat split|].
  cbn [fmap list_fmap Neo4j.first_episode MemNeo4j.row_of
       Neo4j.episode_of_record Neo4j.cell_truthy].
  rewrite bool_decide_eq_false_2; [done|].
  intros He. by rewrite He, lookup_empty in Hyi.
Qed.

Lemma surreal_get_one_episode_flat (w : MemSurreal.world) c episode_id :
  MemSurreal.serving w c ->
  Forall (fun r => r !! "result" = None)
    (MemSurreal.episodes (SurrealDB.backend w)) ->
  SurrealDB.get_one_episode episode_id w = (Return PNone, w).
Proof.
  intros Hs Hf.
  rewrite (MemSurrealFacts.surreal_get_one_episode_mem w c episode_id Hs).
  rewrite MemSurrealFacts.unwrap_one_episode_flat; [done|].
  unfold MemSurreal.matching.
  destruct (filter _ _) as [|y rest] eqn:Hy; [done|]. cbn [take].
  assert (Hin : y ∈ filter (MemSurreal.has_id (PStr episode_id))
                      (MemSurreal.episodes (SurrealDB.backend w)))
    by (rewrite Hy; apply list_elem_of_here).
  apply list_elem_of_filter in Hin as [_ Hin].
  rewrite Forall_forall in Hf. by apply Hf.
Qed.

(** X8.  Looking up a stored episode, on the in-memory servers.  Neo4j:
    when the database holds an Episode with the requested id, a Connected
    adapter returns, without raising and without changing anything, the
    properties of a stored Episode that has this id.  SurrealDB: the client
    hands back the stored record itself, in a flat list; the adapter looks
    for a [result] key in that record, and when no stored episode has a
    field of this name it returns [None] for every id, the ids of stored
    episodes included. *)
Theorem get_one_episode_of_stored_episode :
  (forall (w : MemNeo4j.world) (d : MemNeo4j.handle) (episode_id : string),
      MemNeo4j.serving w d ->
      (exists n, neo4j_stored episode_id (Neo4j.backend w) n) ->
      exists n,
        neo4j_stored episode_id (Neo4j.backend w) n
        /\ get_one_episode episode_id w
           = (Return (PDict (MemNeo4j.properties n)), w))
  /\
  (forall (w : MemSurreal.world) (c : string) (episode_id : string),
      MemSurreal.serving w c ->
      Forall (fun r => r !! "result" = None)
        (MemSurreal.episodes (SurrealDB.backend w)) ->
      get_one_episode episode_id w = (Return PNone, w)).
Proof.
  split.
  - exact neo4j_get_one_episode_stored.
  - exact surreal_get_one_episode_flat.
Qed.

Lemma get_one_episode_of_stored_episode_witness :
  (exists n,
      neo4j_stored "ep-1"
        (Neo4j.backend (Scenario.neo4j_world (Some ("neo4j", "secret")) true))
        n
      /\ get_one_episode "ep-1"
           (Scenario.neo4j_world (Some ("neo4j", "secret")) true)
         = (Return (PDict (MemNeo4j.properties n)),
            Scenario.neo4j_world (Some ("neo4j", "secret")) true))
  /\ get_one_episode "ep-2"
       (Scenario.surreal_world (Some "ws://localhost:8001/rpc")
          true true true)
     = (Return PNone,
        Scenario.surreal_world (Some "ws://localhost:8001/rpc")
          true true true).
Proof.
  split.
  - apply (proj1 get_one_episode_of_stored_episode
             (Scenario.neo4j_world (Some ("neo4j", "secret")) true)
             ("neo4j", "secret") "ep-1").
    + split; reflexivity.
    + exists {| MemNeo4j.labels := ["Episode"];
                MemNeo4j.properties := Scenario.episode "ep-1" 1 |}.
      split; [apply list_elem_of_here|].
      split; [apply list_elem_of_here|reflexivity].
  - apply (proj2 get_one_episode_of_stored_episode
             (Scenario.surreal_world (Some "ws://localhost:8001/rpc")
                true true true)
             "ws://localhost:8001/rpc" "ep-2").
    + split; reflexivity.
    + repeat constructor.
Defined.
(** ** Rebuilding the schema *)

Section SurrealRebuild.
Context {server cli : Type}.
Context `{!SurrealDB.SurrealClientAPI server cli}.
Implicit Types w : SurrealDB.world server cli.

Lemma surreal_build_indices_delete_existing w :
  SurrealDB.build_indices true w
  = (SurrealDB.clear_all_data ≫= fun _ => SurrealDB.build_indices false) w.
Proof.
  destruct (SurrealDB.client (SurrealDB.self w)) as [c|] eqn:Hc.
  - unfold SurrealDB.build_indices at 1.
    rewrite (run_bind_return _ _ _ _ _
               (surreal_require_client_connected w c Hc)).
    rewrite (run_bind SurrealDB.clear_all_data).
    rewrite (run_bind SurrealDB.clear_all_data).
    pose proof (surreal_keeps_clear_all_data w) as Hk.
    destruct (SurrealDB.clear_all_data w) as [[[]|e] w1]; [|done].
    cbn [snd] in Hk. unfold SurrealDB.build_indices.
    assert (Hc1 : SurrealDB.client (SurrealDB.self w1) = Some c)
      by (by rewrite Hk).
    rewrite (run_bind_return _ _ _ _ _
               (surreal_require_client_connected w1 c Hc1)).
    by rewrite run_bind, run_ret.
  - rewrite run_bind. unfold SurrealDB.build_indices, SurrealDB.clear_all_data.
    by rewrite !(run_bind_raise _ _ _ _ _
                   (surreal_require_client_disconnected w Hc)).
Qed.

End SurrealRebuild.

(** X9.  For every SurrealDB client, [build_indices(delete_existing=True)]
    is [clear_all_data] followed by [build_indices(False)]: same result,
    same final adapter and backend, also when a step raises or the adapter
    is not connected. *)
Theorem surreal_rebuild_is_clear_then_build :
  forall (server cli : Type) (api : SurrealDB.SurrealClientAPI server cli)
         (w : SurrealDB.world server cli),
    build_indices true w
    = (clear_all_data ≫= fun _ => build_indices false) w.
Proof.
  intros server cli api w. exact (surreal_build_indices_delete_existing w).
Qed.


Lemma removed_tables_fresh s :
  Forall (fun kd =>
            MemSurreal.catalog (MemSurreal.remove_all SurrealDB.tables s)
              !! fst kd = None)
    MemSurreal.schema_definitions.
Proof.
  eapply Forall_impl; [exact MemSurrealSchema.schema_definitions_on_tables|].
  intros kd Ht. cbv beta in *.
  destruct (_ !! kd.1) as [d|] eqn:Hl; [|done].
  by apply MemSurrealFacts.removed_tables_iff in Hl as [Hn _].
Qed.



Lemma provisioned_world_serving (async redefine : bool) :
  MemSurreal.serving
    (SurrealScenario.provisioned_world (Some "ws://localhost:8001/rpc")
       true async redefine)
    "ws://localhost:8001/rpc".
Proof. split; reflexivity. Defined.

Lemma provisioned_tables_exist (async redefine : bool) :
  MemSurreal.all_tables_exist
    (SurrealDB.backend
       (SurrealScenario.provisioned_world (Some "ws://localhost:8001/rpc")
          true async redefine)).
Proof. repeat constructor. Defined.


(** ** The factory and the configuration readers *)

(** X11.  An adapter fresh from the factory is Disconnected: over whatever
    backend and native driver, each data operation on it is refused with
    the NotConnected error of its backend and leaves everything as it was,
    and [close] on it returns without touching the backend. *)
Theorem created_adapter_is_disconnected :
  forall (server drv sess res : Type)
         (api : Neo4j.Neo4jDriverAPI server drv sess res)
         (server' cli : Type)
         (api' : SurrealDB.SurrealClientAPI server' cli)
         (db_type : string) (a : DatabaseFactory.adapter drv cli)
         (s : server) (s' : server'),
    DatabaseFactory.create_db_adapter db_type = Return a ->
    match a with
    | DatabaseFactory.OfNeo4j a =>
        let w := {| Neo4j.self := a; Neo4j.backend := s |} in
        refuses Neo4j.not_connected w /\ close w = (Return tt, w)
    | DatabaseFactory.OfSurrealDB a =>
        let w := {| SurrealDB.self := a; SurrealDB.backend := s' |} in
        refuses SurrealDB.not_connected w /\ close w = (Return tt, w)
    end.
Proof.
  intros server drv sess res api server' cli api' db_type a s s'.
  unfold DatabaseFactory.create_db_adapter.
  destruct (String.eqb db_type DatabaseFactory.DatabaseType.NEO4J).
  - intros [= <-]. split.
    + by apply neo4j_refuses_disconnected.
    + by apply neo4j_close_disconnected.
  - destruct (String.eqb db_type DatabaseFactory.DatabaseType.SURREALDB);
      [|done].
    intros [= <-]. split.
    + by apply surreal_refuses_disconnected.
    + by apply surreal_close_disconnected.
Qed.

Lemma created_adapter_is_disconnected_witness :
  let w := {| SurrealDB.self := SurrealDB.init;
              SurrealDB.backend := Scenario.surreal_server true false true |}
  in
  refuses SurrealDB.not_connected w /\ close w = (Return tt, w).
Proof.
  exact (created_adapter_is_disconnected
           MemNeo4j.server MemNeo4j.handle MemNeo4j.handle MemNeo4j.result
           MemNeo4j.driver_api MemSurreal.server string MemSurreal.client_api
           "surrealdb" (DatabaseFactory.OfSurrealDB SurrealDB.init)
           (Scenario.neo4j_server true)
           (Scenario.surreal_server true false true) eq_refl).
Defined.

Lemma lower_ascii_idempotent (a : Ascii.ascii) :
  Settings.lower_ascii (Settings.lower_ascii a) = Settings.lower_ascii a.
Proof. by destruct a as [[] [] [] [] [] [] [] []]. Qed.

Lemma lower_idempotent (s : string) :
  Settings.lower (Settings.lower s) = Settings.lower s.
Proof.
  induction s as [|a s IH]; [done|].
  cbn [Settings.lower]. by rewrite lower_ascii_idempotent, IH.
Qed.

Lemma database_config_db_type (env : environ) :
  DatabaseConfig.get_db_type (DatabaseConfig.from_env env)
  = Settings.get_db_type (getenv env "DATABASE_TYPE" "neo4j").
Proof.
  unfold DatabaseConfig.get_db_type, DatabaseConfig.from_env,
    Settings.get_db_type.
  cbn [DatabaseConfig.db_type]. by rewrite lower_idempotent.
Qed.

Section McpConfigFacts.
Context {number : Type}.
Variable to_float : string -> outcome number.
Variable to_int : string -> outcome Z.

Lemma get_config_selection (env : environ) cfg :
  McpConfig.get_config to_float to_int env = Return cfg ->
  McpConfig.database_type cfg = getenv env "DATABASE_TYPE" "neo4j"
  /\ (is_Some (McpConfig.database_namespace cfg)
      <-> Settings.get_db_type (getenv env "DATABASE_TYPE" "neo4j")
          = DatabaseFactory.DatabaseType.SURREALDB)
  /\ (is_Some (McpConfig.database_db cfg)
      <-> Settings.get_db_type (getenv env "DATABASE_TYPE" "neo4j")
          = DatabaseFactory.DatabaseType.SURREALDB).
Proof.
  unfold McpConfig.get_config, Settings.get_db_type.
  destruct (String.eqb _ "surrealdb");
    destruct (to_float _) as [t|e]; [|done| |done];
    destruct (to_int _) as [n|e]; [|done| |done];
    intros [= <-]; cbn; (split; [done|]);
    split; split; try done; try (by eexists); by intros [? [=]].
Qed.

End McpConfigFacts.

(** X12.  The three configuration readers select the backend in the same
    way.  For every environment, [DatabaseConfig.from_env(...).get_db_type()]
    is what [Settings.get_db_type] gives for the value of [DATABASE_TYPE]
    (["neo4j"] when unset), in any letter case; when [get_config] returns,
    its [Config] has a namespace and a database exactly when that backend is
    SurrealDB, and keeps [DATABASE_TYPE] as it was written; and the factory
    accepts what [get_db_type] selects for every value of the variable. *)
Theorem backend_selection_agrees :
  forall (number : Type) (to_float : string -> outcome number)
         (to_int : string -> outcome Z) (drv cli : Type) (env : environ),
    let selected :=
      Settings.get_db_type (getenv env "DATABASE_TYPE" "neo4j") in
    DatabaseConfig.get_db_type (DatabaseConfig.from_env env) = selected
    /\ (forall cfg,
           McpConfig.get_config to_float to_int env = Return cfg ->
           McpConfig.database_type cfg = getenv env "DATABASE_TYPE" "neo4j"
           /\ (is_Some (McpConfig.database_namespace cfg)
               <-> selected = DatabaseFactory.DatabaseType.SURREALDB)
           /\ (is_Some (McpConfig.database_db cfg)
               <-> selected = DatabaseFactory.DatabaseType.SURREALDB))
    /\ (exists a : DatabaseFactory.adapter drv cli,
           DatabaseFactory.create_db_adapter selected = Return a).
Proof.
  intros number to_float to_int drv cli env selected.
  split; [apply database_config_db_type|].
  split; [intros cfg; apply get_config_selection|].
  subst selected. unfold Settings.get_db_type.
  destruct (String.eqb _ "surrealdb"); by eexists.
Qed.

(** ** Replacing in strings *)

Lemma prefix_cons (u s : string) a :
  String.prefix (String a u) s = true ->
  exists rest, s = String a rest /\ String.prefix u rest = true.
Proof.
  destruct s as [|b rest]; [done|]. cbn [String.prefix].
  destruct (Ascii.ascii_dec a b) as [->|]; [|done]. by exists rest.
Qed.

Lemma prefix_cons_same (u s : string) a :
  String.prefix (String a u) (String a s) = String.prefix u s.
Proof. cbn [String.prefix]. by destruct (Ascii.ascii_dec a a). Qed.

Lemma prefix_length (u s : string) :
  String.prefix u s = true -> String.length u <= String.length s.
Proof.
  revert s. induction u as [|a u IH]; intros s H; [cbn; lia|].
  destruct (prefix_cons u s a H) as (rest & -> & Hr).
  cbn [String.length]. specialize (IH rest Hr). lia.
Qed.

Lemma clash_prefix (u v r : string) :
  clash u v = true -> String.prefix u (v ++ r) = false.
Proof.
  revert v. induction u as [|a u IH]; intros [|b v]; try done.
  cbn [clash]. change (String b v ++ r) with (String b (v ++ r)).
  cbn [String.prefix]. destruct (Ascii.ascii_dec a b) as [->|Hne].
  - rewrite Ascii.eqb_refl. cbn [negb orb]. apply IH.
  - done.
Qed.

Lemma str_length_app (u v : string) :
  String.length (u ++ v) = String.length u + String.length v.
Proof.
  induction u as [|a u IH]; [done|].
  change (String a u ++ v) with (String a (u ++ v)).
  cbn [String.length]. by rewrite IH.
Qed.

Lemma str_drop_length n (s : string) :
  String.length (str_drop n s) = String.length s - n.
Proof.
  revert s. induction n as [|n IH]; intros [|a s]; cbn; try done; lia.
Qed.

Section Replace.
Variables old new : string.

Lemma replace_from_skip k (s : string) :
  replace_from old new k s = str_replace old new (str_drop k s).
Proof.
  revert k. induction s as [|a s IH]; intros [|k]; try done.
  cbn [replace_from str_drop]. apply IH.
Qed.

Lemma str_replace_cons a (s : string) :
  str_replace old new (String a s)
  = if String.prefix old (String a s)
    then new ++ str_replace old new (str_drop (String.length old - 1) s)
    else String a (str_replace old new s).
Proof.
  unfold str_replace at 1. cbn [replace_from].
  by rewrite replace_from_skip.
Qed.

Lemma str_replace_length (s : string) :
  String.length old = String.length new -> 0 < String.length old ->
  String.length (str_replace old new s) = String.length s.
Proof.
  intros Hl Hpos.
  assert (H : forall n (s : string),
             String.length s <= n ->
             String.length (str_replace old new s) = String.length s).
  { clear s. induction n as [|n IH]; intros [|a s] Hs; try done.
    - cbn in Hs. lia.
    - rewrite str_replace_cons.
      destruct (String.prefix old (String a s)) eqn:Hp.
      + apply prefix_length in Hp. cbn [String.length] in Hp, Hs |- *.
        rewrite str_length_app, IH, str_drop_length;
          [lia|rewrite str_drop_length; lia].
      + cbn [String.length] in Hs |- *. rewrite IH; [done|lia]. }
  by apply (H (String.length s)).
Qed.

(** A suffix of [old] that the replaced text begins with, the text began
    with. *)
Lemma prefix_before_replace (u t : string) :
  forallb (fun v => clash v new) (suffixes u) = true ->
  String.prefix u (str_replace old new t) = true ->
  String.prefix u t = true.
Proof.
  revert t. induction u as [|c u IH]; intros t Hc Hp; [by destruct t|].
  cbn [suffixes forallb] in Hc. apply andb_prop in Hc as [Hc1 Hc2].
  destruct t as [|a t]; [done|].
  rewrite str_replace_cons in Hp.
  destruct (String.prefix old (String a t)).
  - by rewrite (clash_prefix _ _ _ Hc1) in Hp.
  - destruct (prefix_cons _ _ _ Hp) as (rest & [= -> <-] & Hr).
    rewrite prefix_cons_same. by apply IH.
Qed.

Lemma str_in_cons (s : string) a :
  str_in old (String a s)
  = String.prefix old (String a s) || str_in old s.
Proof. reflexivity. Qed.

Lemma str_in_after_new (v r : string) :
  forallb (clash old) (suffixes v) = true ->
  str_in old r = false ->
  str_in old (v ++ r) = false.
Proof.
  intros Hc Hr. induction v as [|b v IH]; [done|].
  cbn [suffixes forallb] in Hc. apply andb_prop in Hc as [Hc1 Hc2].
  change (String b v ++ r) with (String b (v ++ r)).
  rewrite str_in_cons, (IH Hc2), orb_false_r.
  exact (clash_prefix old (String b v) r Hc1).
Qed.

(** Nothing is left to replace. *)
Lemma str_replace_leaves_none (s : string) :
  apart old new = true -> old <> EmptyString ->
  str_in old (str_replace old new s) = false.
Proof.
  intros [Hc1 Hc2]%andb_prop Hne.
  assert (Ho : exists c0 old', old = String c0 old')
    by (destruct old as [|c0 old']; [done|by exists c0, old']).
  destruct Ho as (c0 & old' & Ho).
  assert (Hempty : str_in old EmptyString = false) by (by rewrite Ho).
  assert (H : forall n (s : string),
             String.length s <= n ->
             str_in old (str_replace old new s) = false).
  { clear s. induction n as [|n IH]; intros [|a s] Hs; try done.
    - cbn in Hs. lia.
    - rewrite str_replace_cons.
      destruct (String.prefix old (String a s)) eqn:Hp.
      + apply str_in_after_new; [done|]. apply IH.
        rewrite str_drop_length. cbn [String.length] in Hs. lia.
      + rewrite str_in_cons, IH, orb_false_r;
          [|cbn [String.length] in Hs; lia].
        destruct (String.prefix old (String a (str_replace old new s)))
          eqn:Hq; [|done].
        assert (Hq' : String.prefix (String c0 old')
                        (String a (str_replace old new s)) = true)
          by (by rewrite <- Ho).
        destruct (prefix_cons _ _ _ Hq') as (rest & [= -> <-] & Hr).
        apply prefix_before_replace in Hr;
          [|by rewrite Ho in Hc2].
        assert (Hp' : String.prefix (String c0 old') (String c0 s) = false)
          by (by rewrite <- Ho).
        by rewrite prefix_cons_same, Hr in Hp'. }
  by apply (H (String.length s)).
Qed.

End Replace.

(** ** get_settings *)

Lemma compose_host_apart : apart "surrealdb:8001" "localhost:8001" = true.
Proof. reflexivity. Qed.

Lemma rewritten_uri_has_no_compose_host (uri : string) :
  str_in "surrealdb:8001"
    (str_replace "surrealdb:8001" "localhost:8001" uri) = false.
Proof. by apply str_replace_leaves_none. Qed.

Lemma rewritten_uri_length (uri : string) :
  String.length (str_replace "surrealdb:8001" "localhost:8001" uri)
  = String.length uri.
Proof. apply str_replace_length; [done|cbn; lia]. Qed.

Lemma get_settings_database_uri (settings : GraphService.Settings) uri :
  GraphService.database_uri (GraphService.get_settings settings) = Some uri ->
  str_in "surrealdb:8001" uri = false.
Proof.
  unfold GraphService.get_settings.
  destruct (GraphService.database_uri settings) as [u|] eqn:Hu;
    [|by rewrite Hu].
  destruct (str_in "surrealdb:8001" u) eqn:Hin.
  - destruct u as [|a u]; [done|]. cbn [str_truthy andb].
    intros [= <-]. apply rewritten_uri_has_no_compose_host.
  - rewrite andb_false_r, Hu. by intros [= <-].
Qed.

Lemma get_settings_idempotent (settings : GraphService.Settings) :
  GraphService.get_settings (GraphService.get_settings settings)
  = GraphService.get_settings settings.
Proof.
  pose proof (get_settings_database_uri settings) as Hn.
  unfold GraphService.get_settings at 1.
  destruct (GraphService.database_uri (GraphService.get_settings settings))
    as [u|]; [|done].
  rewrite (Hn u eq_refl). by rewrite andb_false_r.
Qed.

Lemma get_settings_uri_length (settings : GraphService.Settings) uri :
  GraphService.database_uri settings = Some uri ->
  exists uri',
    GraphService.database_uri (GraphService.get_settings settings)
    = Some uri'
    /\ String.length uri' = String.length uri.
Proof.
  intros Hu. unfold GraphService.get_settings. rewrite Hu.
  destruct (str_truthy (Some uri) && str_in "surrealdb:8001" uri).
  - eexists. split; [reflexivity|apply rewritten_uri_length].
  - by exists uri.
Qed.

Lemma get_settings_other_fields (settings : GraphService.Settings) :
  GraphService.get_db_type (GraphService.get_settings settings)
  = GraphService.get_db_type settings
  /\ GraphService.get_db_user (GraphService.get_settings settings)
     = GraphService.get_db_user settings
  /\ GraphService.get_db_password (GraphService.get_settings settings)
     = GraphService.get_db_password settings
  /\ GraphService.neo4j_uri (GraphService.get_settings settings)
     = GraphService.neo4j_uri settings.
Proof.
  unfold GraphService.get_settings.
  destruct (GraphService.database_uri settings) as [u|]; [|done].
  by destruct (str_truthy (Some u) && str_in "surrealdb:8001" u).
Qed.

(** X13.  [get_settings] rewrites the host of the compose network in
    [database_uri] completely: whatever [Settings()] has read, afterwards
    [database_uri] has no occurrence of ['surrealdb:8001'], so applying the
    rewrite again changes nothing; the URI keeps its length; and the
    backend type, the user, the password and the [neo4j_uri] that
    [get_db_uri] falls back to are not touched. *)
Theorem get_settings_rewrites_compose_host :
  forall settings : GraphService.Settings,
    (forall uri,
        GraphService.database_uri (GraphService.get_settings settings)
        = Some uri ->
        str_in "surrealdb:8001" uri = false)
    /\ GraphService.get_settings (GraphService.get_settings settings)
       = GraphService.get_settings settings
    /\ (forall uri,
           GraphService.database_uri settings = Some uri ->
           exists uri',
             GraphService.database_uri (GraphService.get_settings settings)
             = Some uri'
             /\ String.length uri' = String.length uri)
    /\ GraphService.get_db_type (GraphService.get_settings settings)
       = GraphService.get_db_type settings
    /\ GraphService.get_db_user (GraphService.get_settings settings)
       = GraphService.get_db_user settings
    /\ GraphService.get_db_password (GraphService.get_settings settings)
       = GraphService.get_db_password settings
    /\ GraphService.neo4j_uri (GraphService.get_settings settings)
       = GraphService.neo4j_uri settings.
Proof.
  intros settings.
  split; [exact (get_settings_database_uri settings)|].
  split; [exact (get_settings_idempotent settings)|].
  split; [exact (get_settings_uri_length settings)|].
  exact (get_settings_other_fields settings).
Qed.

Example get_settings_compose_uri :
  str_replace "surrealdb:8001" "localhost:8001" "ws://surrealdb:8001/rpc"
  = "ws://localhost:8001/rpc".
Proof. reflexivity. Qed.

(** ** get_config *)

Section McpConfigReads.
Context {number : Type}.
Variable to_float : string -> outcome number.
Variable to_int : string -> outcome Z.

Lemma getenv_insert_ne (env : environ) name x key default_value :
  name <> key ->
  getenv (<[ name := x ]> env) key default_value = getenv env key default_value.
Proof. intros Hne. unfold getenv. by rewrite lookup_insert_ne. Qed.

Lemma get_config_neo4j_reads (env : environ) name x :
  name ∈ ["DATABASE_URI"; "DATABASE_USER"; "DATABASE_PASSWORD";
          "DATABASE_NAMESPACE"; "DATABASE_DB"] ->
  Settings.get_db_type (getenv env "DATABASE_TYPE" "neo4j")
  = DatabaseFactory.DatabaseType.NEO4J ->
  McpConfig.get_config to_float to_int (<[ name := x ]> env)
  = McpConfig.get_config to_float to_int env.
Proof.
  intros Hn. unfold Settings.get_db_type, McpConfig.get_config.
  destruct (String.eqb (Settings.lower (getenv env "DATABASE_TYPE" "neo4j"))
              "surrealdb") eqn:Ht; [done|]. intros _.
  repeat (apply elem_of_cons in Hn as [->|Hn]);
    [..|by apply elem_of_nil in Hn];
    rewrite (getenv_insert_ne env _ x "DATABASE_TYPE") by done;
    rewrite Ht;
    by rewrite !getenv_insert_ne, ?lookup_insert_ne by done.
Qed.

Lemma get_config_surrealdb_reads (env : environ) name x :
  name ∈ ["NEO4J_URI"; "NEO4J_USER"; "NEO4J_PASSWORD"] ->
  Settings.get_db_type (getenv env "DATABASE_TYPE" "neo4j")
  = DatabaseFactory.DatabaseType.SURREALDB ->
  McpConfig.get_config to_float to_int (<[ name := x ]> env)
  = McpConfig.get_config to_float to_int env.
Proof.
  intros Hn. unfold Settings.get_db_type, McpConfig.get_config.
  destruct (String.eqb (Settings.lower (getenv env "DATABASE_TYPE" "neo4j"))
              "surrealdb") eqn:Ht; [|done]. intros _.
  repeat (apply elem_of_cons in Hn as [->|Hn]);
    [..|by apply elem_of_nil in Hn];
    rewrite (getenv_insert_ne env _ x "DATABASE_TYPE") by done;
    rewrite Ht;
    by rewrite !getenv_insert_ne, ?lookup_insert_ne by done.
Qed.

End McpConfigReads.

(** X14.  [get_config] reads the connection of the selected backend only.
    When the selected backend is Neo4j, setting or changing any of
    [DATABASE_URI], [DATABASE_USER], [DATABASE_PASSWORD],
    [DATABASE_NAMESPACE] and [DATABASE_DB] leaves its result as it was;
    when it is SurrealDB, so does setting or changing [NEO4J_URI],
    [NEO4J_USER] and [NEO4J_PASSWORD]. *)
Theorem get_config_reads_selected_backend :
  forall (number : Type) (to_float : string -> outcome number)
         (to_int : string -> outcome Z) (env : environ) (name x : string),
    (name ∈ ["DATABASE_URI"; "DATABASE_USER"; "DATABASE_PASSWORD";
             "DATABASE_NAMESPACE"; "DATABASE_DB"]
     /\ Settings.get_db_type (getenv env "DATABASE_TYPE" "neo4j")
        = DatabaseFactory.DatabaseType.NEO4J)
    \/ (name ∈ ["NEO4J_URI"; "NEO4J_USER"; "NEO4J_PASSWORD"]
        /\ Settings.get_db_type (getenv env "DATABASE_TYPE" "neo4j")
           = DatabaseFactory.DatabaseType.SURREALDB) ->
    McpConfig.get_config to_float to_int (<[ name := x ]> env)
    = McpConfig.get_config to_float to_int env.
Proof.
  intros number to_float to_int env name x [[Hn Ht]|[Hn Ht]].
  - by apply get_config_neo4j_reads.
  - by apply get_config_surrealdb_reads.
Qed.

Lemma get_config_reads_selected_backend_witness :
  McpConfig.get_config (fun _ => Return 0%Z) (fun _ => Return 1024%Z)
    (<[ "DATABASE_URI" := "ws://localhost:8001/rpc" ]>
       {[ "NEO4J_URI" := "bolt://db:7687" ]})
  = McpConfig.get_config (fun _ => Return 0%Z) (fun _ => Return 1024%Z)
      {[ "NEO4J_URI" := "bolt://db:7687" ]}.
Proof.
  apply (get_config_reads_selected_backend Z (fun _ => Return 0%Z)
           (fun _ => Return 1024%Z) {[ "NEO4J_URI" := "bolt://db:7687" ]}
           "DATABASE_URI" "ws://localhost:8001/rpc").
  left. split; [apply list_elem_of_here|reflexivity].
Defined.

(** ** What execute_query hands back *)

Section Neo4jResult.
Context {server drv sess res : Type}.
Context (api : Neo4j.Neo4jDriverAPI server drv sess res).
#[local] Existing Instance Sessions.recording.
Local Abbreviation logged_world :=
  (Neo4j.world (Sessions.logged server sess) drv).

Lemma neo4j_execute_query_result (w w' : logged_world) query parameters r :
  Neo4j.execute_query query parameters w = (Return r, w') ->
  exists session s1 s2,
    Neo4j.session_run session query (Some (or_empty parameters)) s1
    = (Return r, s2)
    /\ Sessions.log w'
       = (Sessions.log w
          ++ [Sessions.Opened session; Sessions.Exited session])%list.
Proof.
  unfold Neo4j.execute_query, Neo4j.require_driver.
  rewrite !run_bind. unfold gets.
  destruct (Neo4j.driver (Neo4j.self w)) as [d|]; [|done].
  rewrite run_ret. unfold try_except, Neo4j.execute_query_body.
  unfold Neo4j.with_session. rewrite run_bind.
  unfold finally_, Neo4j.call.
  cbn [Neo4j.driver_session Neo4j.session_aexit Neo4j.session_run
       Sessions.recording Neo4j.backend Neo4j.self].
  unfold Sessions.opening, Sessions.exiting, Sessions.quiet, Sessions.log.
  destruct (Neo4j.driver_session d (Neo4j.backend w).1)
    as [[session|e] s1]; cbn [fst snd Neo4j.backend Neo4j.self].
  - destruct (Neo4j.session_run session query (Some (or_empty parameters)) s1)
      as [[r1|e1] s2] eqn:Hrun; cbn [fst snd Neo4j.backend Neo4j.self].
    + destruct (Neo4j.session_aexit session s2) as [[[]|e2] s3].
      * intros [= <- <-]. exists session, s1, s2. split; [done|].
        cbn [Neo4j.backend snd]. by rewrite <- app_assoc.
      * by destruct (isinstance_Exception e2).
    + destruct (Neo4j.session_aexit session s2) as [[[]|e2] s3].
      * by destruct (isinstance_Exception e1).
      * by destruct (isinstance_Exception e2).
  - by destruct (isinstance_Exception e).
Qed.

End Neo4jResult.

Section SurrealResult.
Context {server cli : Type}.
Context `{!SurrealDB.SurrealClientAPI server cli}.
Implicit Types w : SurrealDB.world server cli.

Lemma surreal_execute_query_result w w' query parameters v :
  SurrealDB.execute_query query parameters w = (Return v, w') ->
  exists c,
    SurrealDB.client (SurrealDB.self w) = Some c
    /\ yields (SurrealDB.client_query c query (Some (or_empty parameters))
                 (SurrealDB.backend w))
         v (SurrealDB.backend w')
    /\ SurrealDB.self w' = SurrealDB.self w.
Proof.
  unfold SurrealDB.execute_query, SurrealDB.require_client.
  rewrite !run_bind. unfold gets.
  destruct (SurrealDB.client (SurrealDB.self w)) as [c|]; [|done].
  rewrite run_ret. unfold try_except, SurrealDB.execute_query_body.
  rewrite run_bind. unfold SurrealDB.call.
  destruct (SurrealDB.client_query c query (Some (or_empty parameters))
              (SurrealDB.backend w)) as [[[v1|[v1|e1]]|e1] s1] eqn:Hq;
    cbn [maybe_await await]; unfold ret, raise.
  - intros [= <- <-]. exists c. split; [done|]. split; [by left|done].
  - intros [= <- <-]. exists c. split; [done|]. split; [by right|done].
  - by destruct (isinstance_Exception e1).
  - by destruct (isinstance_Exception e1).
Qed.

End SurrealResult.

(** X15.  What [execute_query] hands back when it returns.  The Neo4j
    adapter returns the result of [session.run] on the query and on
    [parameters or {}], and by then the session that produced it has been
    opened and exited: the caller receives the result of a closed session.
    The SurrealDB adapter returns, unchanged, the value the client gave for
    the query and [parameters or {}], awaited when it was awaitable, and
    keeps its handle. *)
Theorem execute_query_result :
  (forall (server drv sess res : Type)
          (api : Neo4j.Neo4jDriverAPI server drv sess res)
          (w w' : Neo4j.world (Sessions.logged server sess) drv)
          (query : string) (parameters : option pydict) (r : res),
      let recorded := Sessions.adapter api in
      execute_query query parameters w = (Return r, w') ->
      exists session s1 s2,
        Neo4j.session_run session query (Some (or_empty parameters)) s1
        = (Return r, s2)
        /\ Sessions.log w'
           = (Sessions.log w
              ++ [Sessions.Opened session; Sessions.Exited session])%list)
  /\
  (forall (server cli : Type) (api : SurrealDB.SurrealClientAPI server cli)
          (w w' : SurrealDB.world server cli)
          (query : string) (parameters : option pydict) (v : pyval),
      execute_query query parameters w = (Return v, w') ->
      exists c,
        SurrealDB.client (SurrealDB.self w) = Some c
        /\ yields (SurrealDB.client_query c query
                     (Some (or_empty parameters)) (SurrealDB.backend w))
             v (SurrealDB.backend w')
        /\ SurrealDB.self w' = SurrealDB.self w).
Proof.
  split.
  - intros server drv sess res api w w' query parameters r recorded.
    exact (neo4j_execute_query_result api w w' query parameters r).
  - intros server cli api w w' query parameters v.
    exact (surreal_execute_query_result w w' query parameters v).
Qed.

Lemma execute_query_result_witness :
  (exists session s1 s2,
      Neo4j.session_run session "RETURN 1" (Some (or_empty None)) s1
      = (Return (MemNeo4j.Scalar (PInt 1)), s2)
      /\ Sessions.log
           {| Neo4j.self := {| Neo4j.driver := Some ("neo4j", "secret") |};
              Neo4j.backend :=
                (Scenario.neo4j_server true,
                 [Sessions.Opened ("neo4j", "secret");
                  Sessions.Exited ("neo4j", "secret")]) |}
         = (Sessions.log
              {| Neo4j.self := {| Neo4j.driver := Some ("neo4j", "secret") |};
                 Neo4j.backend := (Scenario.neo4j_server true, []) |}
            ++ [Sessions.Opened session; Sessions.Exited session])%list)
  /\ (exists c,
         SurrealDB.client
           (SurrealDB.self
              (Scenario.surreal_world (Some "ws://localhost:8001/rpc")
                 true true true))
         = Some c
         /\ yields (SurrealDB.client_query c SurrealDB.get_episodes_query
                      (Some (or_empty None))
                      (SurrealDB.backend
                         (Scenario.surreal_world
                            (Some "ws://localhost:8001/rpc") true true true)))
              (PList [PDict (Scenario.episode "ep-2" 2);
                      PDict (Scenario.episode "ep-1" 1)])
              (SurrealDB.backend
                 (Scenario.surreal_world (Some "ws://localhost:8001/rpc")
                    true true true))
         /\ SurrealDB.self
              (Scenario.surreal_world (Some "ws://localhost:8001/rpc")
                 true true true)
            = SurrealDB.self
                (Scenario.surreal_world (Some "ws://localhost:8001/rpc")
                   true true true)).
Proof.
  split.
  - exact (proj1 execute_query_result
             MemNeo4j.server MemNeo4j.handle MemNeo4j.handle MemNeo4j.result
             MemNeo4j.driver_api
             {| Neo4j.self := {| Neo4j.driver := Some ("neo4j", "secret") |};
                Neo4j.backend := (Scenario.neo4j_server true, []) |}
             {| Neo4j.self := {| Neo4j.driver := Some ("neo4j", "secret") |};
                Neo4j.backend :=
                  (Scenario.neo4j_server true,
                   [Sessions.Opened ("neo4j", "secret");
                    Sessions.Exited ("neo4j", "secret")]) |}
             "RETURN 1" None (MemNeo4j.Scalar (PInt 1)) eq_refl).
  - exact (proj2 execute_query_result
             MemSurreal.server string MemSurreal.client_api
             (Scenario.surreal_world (Some "ws://localhost:8001/rpc")
                true true true)
             (Scenario.surreal_world (Some "ws://localhost:8001/rpc")
                true true true)
             SurrealDB.get_episodes_query None
             (PList [PDict (Scenario.episode "ep-2" 2);
                     PDict (Scenario.episode "ep-1" 1)])
             eq_refl).
Defined.

(** ** The outcomes of close *)

Section Neo4jClose.
Context {server drv sess res : Type}.
Context `{!Neo4j.Neo4jDriverAPI server drv sess res}.
Implicit Types w : Neo4j.world server drv.

Lemma neo4j_close_outcomes w d :
  Neo4j.driver (Neo4j.self w) = Some d ->
  (forall s',
      Neo4j.driver_close d (Neo4j.backend w) = (Return tt, s') ->
      Neo4j.close w
      = (Return tt,
         {| Neo4j.self := {| Neo4j.driver := None |};
            Neo4j.backend := s' |}))
  /\ (forall e s',
         Neo4j.driver_close d (Neo4j.backend w) = (Raise e, s') ->
         Neo4j.close w
         = (Raise e, {| Neo4j.self := Neo4j.self w; Neo4j.backend := s' |})).
Proof.
  intros Hd. split; [intros s' Hr|intros e s' Hr]; unfold Neo4j.close;
    rewrite run_bind; unfold gets; rewrite Hd; rewrite run_bind;
    unfold Neo4j.call; by rewrite Hr.
Qed.

End Neo4jClose.

Section SurrealClose.
Context {server cli : Type}.
Context `{!SurrealDB.SurrealClientAPI server cli}.
Implicit Types w : SurrealDB.world server cli.

Lemma surreal_close_outcomes w c :
  SurrealDB.client (SurrealDB.self w) = Some c ->
  (forall s',
      SurrealDB.client_close c (SurrealDB.backend w)
      = (Return (Awaitable (Return tt)), s') ->
      SurrealDB.close w
      = (Return tt,
         {| SurrealDB.self :=
              {| SurrealDB.client := None;
                 SurrealDB.namespace := SurrealDB.namespace (SurrealDB.self w);
                 SurrealDB.database := SurrealDB.database (SurrealDB.self w) |};
            SurrealDB.backend := s' |}))
  /\ (forall e s',
         fails (SurrealDB.client_close c (SurrealDB.backend w)) e s' ->
         SurrealDB.close w
         = (Raise e,
            {| SurrealDB.self := SurrealDB.self w;
               SurrealDB.backend := s' |}))
  /\ (forall s',
         SurrealDB.client_close c (SurrealDB.backend w)
         = (Return (Resolved tt), s') ->
         SurrealDB.close w
         = (Raise (mk_exn TypeError
                     "object can't be used in 'await' expression"),
            {| SurrealDB.self := SurrealDB.self w;
               SurrealDB.backend := s' |})).
Proof.
  intros Hc. split; [|split].
  - intros s' Hr. unfold SurrealDB.close. rewrite run_bind.
    unfold gets. rewrite Hc. rewrite run_bind. unfold SurrealDB.call.
    by rewrite Hr.
  - intros e s' [Hr|Hr]; unfold SurrealDB.close; rewrite run_bind;
      unfold gets; rewrite Hc; rewrite run_bind; unfold SurrealDB.call;
      by rewrite Hr.
  - intros s' Hr. unfold SurrealDB.close. rewrite run_bind.
    unfold gets. rewrite Hc. rewrite run_bind. unfold SurrealDB.call.
    by rewrite Hr.
Qed.

End SurrealClose.

(** X16.  The outcomes of [close] on a Connected adapter, for every native
    driver.  Neo4j: when [driver.close()] returns, the handle is reset; when
    it raises, [close] raises that exception unchanged and the handle stays
    assigned.  SurrealDB: when awaiting [client.close()] returns, the client
    is reset while the namespace and the database stay recorded; when the
    call or its awaitable raises, [close] raises that exception unchanged
    and the client stays assigned; and when the call returns a value that
    is not awaitable, [close] raises [TypeError] and the client stays
    assigned. *)
Theorem close_outcomes :
  (forall (server drv sess res : Type)
          (api : Neo4j.Neo4jDriverAPI server drv sess res)
          (w : Neo4j.world server drv) (d : drv),
      Neo4j.driver (Neo4j.self w) = Some d ->
      (forall s',
          Neo4j.driver_close d (Neo4j.backend w) = (Return tt, s') ->
          close w
          = (Return tt,
             {| Neo4j.self := {| Neo4j.driver := None |};
                Neo4j.backend := s' |}))
      /\ (forall e s',
             Neo4j.driver_close d (Neo4j.backend w) = (Raise e, s') ->
             close w
             = (Raise e,
                {| Neo4j.self := Neo4j.self w; Neo4j.backend := s' |})))
  /\
  (forall (server cli : Type) (api : SurrealDB.SurrealClientAPI server cli)
          (w : SurrealDB.world server cli) (c : cli),
      SurrealDB.client (SurrealDB.self w) = Some c ->
      (forall s',
          SurrealDB.client_close c (SurrealDB.backend w)
          = (Return (Awaitable (Return tt)), s') ->
          close w
          = (Return tt,
             {| SurrealDB.self :=
                  {| SurrealDB.client := None;
                     SurrealDB.namespace :=
                       SurrealDB.namespace (SurrealDB.self w);
                     SurrealDB.database :=
                       SurrealDB.database (SurrealDB.self w) |};
                SurrealDB.backend := s' |}))
      /\ (forall e s',
             fails (SurrealDB.client_close c (SurrealDB.backend w)) e s' ->
             close w
             = (Raise e,
                {| SurrealDB.self := SurrealDB.self w;
                   SurrealDB.backend := s' |}))
      /\ (forall s',
             SurrealDB.client_close c (SurrealDB.backend w)
             = (Return (Resolved tt), s') ->
             close w
             = (Raise (mk_exn TypeError
                         "object can't be used in 'await' expression"),
                {| SurrealDB.self := SurrealDB.self w;
                   SurrealDB.backend := s' |}))).
Proof.
  split.
  - intros server drv sess res api w d. exact (neo4j_close_outcomes w d).
  - intros server cli api w c. exact (surreal_close_outcomes w c).
Qed.

Lemma close_outcomes_witness :
  close (Scenario.neo4j_world (Some ("neo4j", "secret")) true)
  = (Return tt,
     {| Neo4j.self := {| Neo4j.driver := None |};
        Neo4j.backend := Scenario.neo4j_server true |})
  /\ close (scoped (Some "ws://localhost:8001/rpc") "graphiti" "graphiti"
              (Scenario.surreal_server true true true))
     = (Return tt,
        {| SurrealDB.self :=
             {| SurrealDB.client := None;
                SurrealDB.namespace :=
                  SurrealDB.namespace
                    (SurrealDB.self
                       (scoped (Some "ws://localhost:8001/rpc") "graphiti"
                          "graphiti" (Scenario.surreal_server true true true)));
                SurrealDB.database :=
                  SurrealDB.database
                    (SurrealDB.self
                       (scoped (Some "ws://localhost:8001/rpc") "graphiti"
                          "graphiti"
                          (Scenario.surreal_server true true true))) |};
           SurrealDB.backend := Scenario.surreal_server true true true |})
  /\ close (scoped (Some "ws://localhost:8001/rpc") "graphiti" "graphiti"
              (Scenario.surreal_server true false true))
     = (Raise (mk_exn TypeError "object can't be used in 'await' expression"),
        {| SurrealDB.self :=
             SurrealDB.self
               (scoped (Some "ws://localhost:8001/rpc") "graphiti" "graphiti"
                  (Scenario.surreal_server true false true));
           SurrealDB.backend := Scenario.surreal_server true false true |}).
Proof.
  split; [|split].
  - exact (proj1 (proj1 close_outcomes _ _ _ _ _
                    (Scenario.neo4j_world (Some ("neo4j", "secret")) true)
                    ("neo4j", "secret") eq_refl)
             (Scenario.neo4j_server true) eq_refl).
  - exact (proj1 (proj2 close_outcomes _ _ _
                    (scoped (Some "ws://localhost:8001/rpc") "graphiti"
                       "graphiti" (Scenario.surreal_server true true true))
                    "ws://localhost:8001/rpc" eq_refl)
             (Scenario.surreal_server true true true) eq_refl).
  - exact (proj2 (proj2 (proj2 close_outcomes _ _ _
                           (scoped (Some "ws://localhost:8001/rpc") "graphiti"
                              "graphiti"
                              (Scenario.surreal_server true false true))
                           "ws://localhost:8001/rpc" eq_refl))
             (Scenario.surreal_server true false true) eq_refl).
Defined.

(** ** What provisioning and clearing keep *)

Lemma neo4j_build_keeps_nodes (w : MemNeo4j.world) d :
  MemNeo4j.serving w d ->
  exists w1,
    Neo4j.build_indices false w = (Return tt, w1)
    /\ MemNeo4j.nodes (Neo4j.backend w1) = MemNeo4j.nodes (Neo4j.backend w)
    /\ MemNeo4j.catalog (Neo4j.backend w)
       ⊆ MemNeo4j.catalog (Neo4j.backend w1)
    /\ fst (Neo4j.get_episodes w1) = fst (Neo4j.get_episodes w).
Proof.
  intros Hs. eexists.
  split; [exact (MemNeo4jSchema.neo4j_build_indices_mem w d false Hs)|].
  split; [reflexivity|]. split.
  - cbn [MemNeo4j.set_catalog MemNeo4j.set_backend Neo4j.backend
         MemNeo4j.with_catalog MemNeo4j.catalog].
    rewrite MemNeo4jSchema.add_all_union. apply union_subseteq_r.
  - rewrite (MemNeo4jFacts.neo4j_get_episodes_mem _ d
               (MemNeo4jSchema.serving_set_catalog w d _ Hs)).
    by rewrite (MemNeo4jFacts.neo4j_get_episodes_mem w d Hs).
Qed.

Lemma exec_each_define_records defs s :
  MemSurreal.records
    (snd (MemSurreal.exec_each (MemSurreal.define_command <$> defs) s))
  = MemSurreal.records s.
Proof.
  revert s. induction defs as [|kd defs IH]; intros s; [done|].
  rewrite fmap_cons.
  cbn [MemSurreal.exec_each MemSurreal.define_command MemSurreal.exec].
  destruct (MemSurreal.redefine s || _); [|done].
  by rewrite IH.
Qed.

Lemma surreal_build_keeps_records (w : MemSurreal.world) c :
  MemSurreal.serving w c ->
  MemSurreal.records
    (SurrealDB.backend (snd (SurrealDB.build_indices false w)))
  = MemSurreal.records (SurrealDB.backend w)
  /\ fst (SurrealDB.get_episodes (snd (SurrealDB.build_indices false w)))
     = fst (SurrealDB.get_episodes w).
Proof.
  intros Hs. rewrite (MemSurrealSchema.surreal_build_indices_mem w c Hs).
  cbn [snd MemSurreal.set_backend SurrealDB.backend].
  pose proof (exec_each_define_records MemSurreal.schema_definitions
                (SurrealDB.backend w)) as Hrec.
  split; [exact Hrec|].
  rewrite (MemSurrealFacts.surreal_get_episodes_mem w c Hs).
  rewrite (MemSurrealFacts.surreal_get_episodes_mem _ c).
  - cbn [fst MemSurreal.set_backend SurrealDB.backend].
    unfold MemSurreal.episodes. by rewrite Hrec.
  - apply MemSurrealFacts.serving_set_backend; [done|].
    apply MemSurrealFacts.exec_each_reachable.
Qed.

(** X17.  [build_indices()] with the default [delete_existing=False]
    leaves the data alone, on the in-memory servers with any content.
    Neo4j: it returns, the nodes are as before, every schema object that
    existed is still there and [get_episodes] returns what it returned
    before.  SurrealDB: whether it returns or a [DEFINE] is rejected, the
    records of every table are as before and [get_episodes] returns what
    it returned before. *)
Theorem build_indices_keeps_data :
  (forall (w : MemNeo4j.world) (d : MemNeo4j.handle),
      MemNeo4j.serving w d ->
      exists w1,
        build_indices false w = (Return tt, w1)
        /\ MemNeo4j.nodes (Neo4j.backend w1)
           = MemNeo4j.nodes (Neo4j.backend w)
        /\ MemNeo4j.catalog (Neo4j.backend w)
           ⊆ MemNeo4j.catalog (Neo4j.backend w1)
        /\ fst (get_episodes w1) = fst (get_episodes w))
  /\
  (forall (w : MemSurreal.world) (c : string),
      MemSurreal.serving w c ->
      MemSurreal.records (SurrealDB.backend (snd (build_indices false w)))
      = MemSurreal.records (SurrealDB.backend w)
      /\ fst (get_episodes (snd (build_indices false w)))
         = fst (get_episodes w)).
Proof.
  split.
  - exact neo4j_build_keeps_nodes.
  - exact surreal_build_keeps_records.
Qed.

Lemma build_indices_keeps_data_witness :
  (exists w1,
      build_indices false
        (Scenario.neo4j_world (Some ("neo4j", "secret")) true)
      = (Return tt, w1)
      /\ MemNeo4j.nodes (Neo4j.backend w1)
         = MemNeo4j.nodes
             (Neo4j.backend
                (Scenario.neo4j_world (Some ("neo4j", "secret")) true))
      /\ MemNeo4j.catalog
           (Neo4j.backend
              (Scenario.neo4j_world (Some ("neo4j", "secret")) true))
         ⊆ MemNeo4j.catalog (Neo4j.backend w1)
      /\ fst (get_episodes w1)
         = fst (get_episodes
                  (Scenario.neo4j_world (Some ("neo4j", "secret")) true)))
  /\ (MemSurreal.records
        (SurrealDB.backend
           (snd (build_indices false
                   (SurrealScenario.provisioned_world
                      (Some "ws://localhost:8001/rpc") true false false))))
      = MemSurreal.records
          (SurrealDB.backend
             (SurrealScenario.provisioned_world
                (Some "ws://localhost:8001/rpc") true false false))
      /\ fst (get_episodes
                (snd (build_indices false
                        (SurrealScenario.provisioned_world
                           (Some "ws://localhost:8001/rpc")
                           true false false))))
         = fst (get_episodes
                  (SurrealScenario.provisioned_world
                     (Some "ws://localhost:8001/rpc") true false false))).
Proof.
  split.
  - exact (proj1 build_indices_keeps_data
             (Scenario.neo4j_world (Some ("neo4j", "secret")) true)
             ("neo4j", "secret") neo4j_world_serving).
  - exact (proj2 build_indices_keeps_data
             (SurrealScenario.provisioned_world
                (Some "ws://localhost:8001/rpc") true false false)
             "ws://localhost:8001/rpc"
             (provisioned_world_serving false false)).
Defined.

Lemma neo4j_clear_keeps_catalog (w : MemNeo4j.world) d :
  MemNeo4j.serving w d ->
  exists w1,
    Neo4j.clear_all_data w = (Return tt, w1)
    /\ MemNeo4j.catalog (Neo4j.backend w1)
       = MemNeo4j.catalog (Neo4j.backend w).
Proof.
  intros Hs. eexists.
  split; [exact (MemNeo4jFacts.neo4j_clear_all_data_mem w d Hs)|done].
Qed.

(** X18.  What [clear_all_data] does to the schema, on the in-memory
    servers.  The Neo4j adapter deletes the nodes and leaves every
    constraint and index in place.  The SurrealDB adapter, on a database in
    which the six tables exist, removes them with their definitions:
    afterwards exactly the definitions of other tables are left, and none
    of the definitions that [build_indices] makes. *)
Theorem clear_all_data_and_the_schema :
  (forall (w : MemNeo4j.world) (d : MemNeo4j.handle),
      MemNeo4j.serving w d ->
      exists w1,
        clear_all_data w = (Return tt, w1)
        /\ MemNeo4j.catalog (Neo4j.backend w1)
           = MemNeo4j.catalog (Neo4j.backend w))
  /\
  (forall (w : MemSurreal.world) (c : string),
      MemSurreal.serving w c ->
      MemSurreal.all_tables_exist (SurrealDB.backend w) ->
      exists w1,
        clear_all_data w = (Return tt, w1)
        /\ (forall k d,
               MemSurreal.catalog (SurrealDB.backend w1) !! k = Some d <->
               (MemSurreal.table_of k ∉ SurrealDB.tables)
               /\ MemSurreal.catalog (SurrealDB.backend w) !! k = Some d)
        /\ Forall (fun kd =>
                     MemSurreal.catalog (SurrealDB.backend w1) !! fst kd
                     = None)
             MemSurreal.schema_definitions).
Proof.
  split.
  - exact neo4j_clear_keeps_catalog.
  - intros w c Hs Hf. eexists.
    split; [exact (MemSurrealClear.surreal_clear_all_data_returns w c Hs Hf)|].
    split.
    + intros k d. apply MemSurrealFacts.removed_tables_iff.
    + apply removed_tables_fresh.
Qed.

Lemma clear_all_data_and_the_schema_witness :
  (exists w1,
      clear_all_data (Scenario.neo4j_world (Some ("neo4j", "secret")) true)
      = (Return tt, w1)
      /\ MemNeo4j.catalog (Neo4j.backend w1)
         = MemNeo4j.catalog
             (Neo4j.backend
                (Scenario.neo4j_world (Some ("neo4j", "secret")) true)))
  /\ (exists w1,
         clear_all_data
           (SurrealScenario.provisioned_world
              (Some "ws://localhost:8001/rpc") true true true)
         = (Return tt, w1)
         /\ (forall k d,
                MemSurreal.catalog (SurrealDB.backend w1) !! k = Some d <->
                (MemSurreal.table_of k ∉ SurrealDB.tables)
                /\ MemSurreal.catalog
                     (SurrealDB.backend
                        (SurrealScenario.provisioned_world
                           (Some "ws://localhost:8001/rpc") true true true))
                     !! k = Some d)
         /\ Forall (fun kd =>
                      MemSurreal.catalog (SurrealDB.backend w1) !! fst kd
                      = None)
              MemSurreal.schema_definitions).
Proof.
  split.
  - exact (proj1 clear_all_data_and_the_schema
             (Scenario.neo4j_world (Some ("neo4j", "secret")) true)
             ("neo4j", "secret") neo4j_world_serving).
  - exact (proj2 clear_all_data_and_the_schema
             (SurrealScenario.provisioned_world
                (Some "ws://localhost:8001/rpc") true true true)
             "ws://localhost:8001/rpc"
             (provisioned_world_serving true true)
             (provisioned_tables_exist true true)).
Defined.

(** ** Decoding the answers *)

Section Neo4jDecode.
Context {server drv sess res : Type}.
Context `{!Neo4j.Neo4jDriverAPI server drv sess res}.
Implicit Types w : Neo4j.world server drv.

Lemma episode_of_record_Some record p :
  Neo4j.episode_of_record record = Some p ->
  p <> ∅ /\ exists cs, record = Neo4j.CNode p :: cs.
Proof.
  destruct record as [|[|q] cs]; try done.
  cbn [Neo4j.episode_of_record Neo4j.cell_truthy].
  destruct (bool_decide_reflect (q = ∅)) as [He|Hne]; [done|].
  cbn [negb]. intros [= <-]. split; [done|by exists cs].
Qed.

Lemma decoded_episodes (records : list (list Neo4j.cell)) (p : pydict) :
  p ∈ omap Neo4j.episode_of_record records ->
  p <> ∅ /\ exists cs, (Neo4j.CNode p :: cs) ∈ records.
Proof.
  intros (record & Hr & Hp)%list_elem_of_omap.
  destruct (episode_of_record_Some record p Hp) as (Hne & cs & ->).
  split; [done|by exists cs].
Qed.

Lemma decoded_episodes_length (records : list (list Neo4j.cell)) :
  length (omap Neo4j.episode_of_record records) <= length records.
Proof.
  induction records as [|record records IH]; [done|]. cbn [omap list_omap].
  destruct (Neo4j.episode_of_record record); cbn [length]; lia.
Qed.

Lemma neo4j_get_episodes_lists w d s' records :
  Neo4j.driver (Neo4j.self w) = Some d ->
  neo4j_lists d (Neo4j.backend w) s' records ->
  Neo4j.get_episodes w
  = (Return (PList (PDict <$> omap Neo4j.episode_of_record records)),
     {| Neo4j.self := Neo4j.self w; Neo4j.backend := s' |}).
Proof.
  intros Hd (session & result & s1 & s2 & s3 & H1 & H2 & H3 & H4).
  unfold Neo4j.get_episodes.
  rewrite (run_bind_return _ _ _ _ _ (neo4j_require_driver_connected w d Hd)).
  rewrite run_bind.
  unfold Neo4j.with_session. rewrite run_bind.
  unfold Neo4j.call at 1. rewrite H1. unfold finally_.
  rewrite run_bind. unfold Neo4j.call at 1. cbn [Neo4j.backend]. rewrite H2.
  rewrite run_bind. unfold Neo4j.call at 1. cbn [Neo4j.backend]. rewrite H3.
  rewrite run_ret. unfold Neo4j.call. cbn [Neo4j.backend Neo4j.self].
  by rewrite H4.
Qed.

Lemma neo4j_get_one_episode_first w d episode_id s' p cs rest :
  Neo4j.driver (Neo4j.self w) = Some d ->
  Neo4j.answers d episode_id (Neo4j.backend w) s'
    ((Neo4j.CNode p :: cs) :: rest) ->
  p <> ∅ ->
  Neo4j.get_one_episode episode_id w
  = (Return (PDict p),
     {| Neo4j.self := Neo4j.self w; Neo4j.backend := s' |}).
Proof.
  intros Hd (session & result & s1 & s2 & s3 & H1 & H2 & H3 & H4) Hp.
  unfold Neo4j.get_one_episode.
  rewrite (run_bind_return _ _ _ _ _ (neo4j_require_driver_connected w d Hd)).
  unfold Neo4j.with_session. rewrite run_bind.
  unfold Neo4j.call at 1. rewrite H1. unfold finally_.
  rewrite run_bind. unfold Neo4j.call at 1. cbn [Neo4j.backend]. rewrite H2.
  rewrite run_bind. unfold Neo4j.call at 1. cbn [Neo4j.backend]. rewrite H3.
  rewrite run_ret. unfold Neo4j.call. cbn [Neo4j.backend Neo4j.self].
  rewrite H4.
  cbn [Neo4j.first_episode Neo4j.episode_of_record Neo4j.cell_truthy].
  by rewrite bool_decide_eq_false_2.
Qed.

End Neo4jDecode.

(** X19.  How the Neo4j adapter decodes what the driver hands back, for
    every driver.  [get_episodes] returns, in the order of the rows, the
    properties of the first cell of each row whose first cell is a node with
    properties; empty rows, nulls and nodes without properties are skipped,
    so no returned episode is empty and there are at most as many as rows.
    [get_one_episode] returns the properties of the first cell of the first
    row when that is a node with properties, whatever follows it. *)
Theorem neo4j_decodes_first_cells :
  forall (server drv sess res : Type)
         (api : Neo4j.Neo4jDriverAPI server drv sess res)
         (w : Neo4j.world server drv) (d : drv),
    Neo4j.driver (Neo4j.self w) = Some d ->
    (forall s' records,
        neo4j_lists d (Neo4j.backend w) s' records ->
        exists episodes,
          get_episodes w
          = (Return (PList (PDict <$> episodes)),
             {| Neo4j.self := Neo4j.self w; Neo4j.backend := s' |})
          /\ episodes = omap Neo4j.episode_of_record records
          /\ length episodes <= length records
          /\ (forall p, p ∈ episodes ->
                        p <> ∅ /\ exists cs, (Neo4j.CNode p :: cs) ∈ records))
    /\ (forall episode_id s' p cs rest,
           Neo4j.answers d episode_id (Neo4j.backend w) s'
             ((Neo4j.CNode p :: cs) :: rest) ->
           p <> ∅ ->
           get_one_episode episode_id w
           = (Return (PDict p),
              {| Neo4j.self := Neo4j.self w; Neo4j.backend := s' |})).
Proof.
  intros server drv sess res api w d Hd. split.
  - intros s' records Hl. eexists.
    split; [exact (neo4j_get_episodes_lists w d s' records Hd Hl)|].
    split; [reflexivity|]. split; [apply decoded_episodes_length|].
    intros p. apply decoded_episodes.
  - intros episode_id s' p cs rest.
    exact (neo4j_get_one_episode_first w d episode_id s' p cs rest Hd).
Qed.

Lemma neo4j_decodes_first_cells_witness :
  exists episodes,
    get_episodes (Scenario.neo4j_world (Some ("neo4j", "secret")) true)
    = (Return (PList (PDict <$> episodes)),
       {| Neo4j.self :=
            Neo4j.self (Scenario.neo4j_world (Some ("neo4j", "secret")) true);
          Neo4j.backend := Scenario.neo4j_server true |})
    /\ episodes
       = omap Neo4j.episode_of_record
           (MemNeo4j.episode_rows (Scenario.neo4j_server true))
    /\ length episodes
       <= length (MemNeo4j.episode_rows (Scenario.neo4j_server true))
    /\ (forall p,
           p ∈ episodes ->
           p <> ∅
           /\ exists cs,
                (Neo4j.CNode p :: cs)
                ∈ MemNeo4j.episode_rows (Scenario.neo4j_server true)).
Proof.
  apply (proj1 (neo4j_decodes_first_cells _ _ _ _ _
                  (Scenario.neo4j_world (Some ("neo4j", "secret")) true)
                  ("neo4j", "secret") eq_refl)).
  exists ("neo4j", "secret"),
    (MemNeo4j.Records (MemNeo4j.episode_rows (Scenario.neo4j_server true))),
    (Scenario.neo4j_server true), (Scenario.neo4j_server true),
    (Scenario.neo4j_server true).
  repeat split.
Defined.

Section SurrealDecode.
Context {server cli : Type}.
Context `{!SurrealDB.SurrealClientAPI server cli}.
Implicit Types w : SurrealDB.world server cli.

Lemma surreal_get_episodes_lists w c s' result :
  SurrealDB.client (SurrealDB.self w) = Some c ->
  surreal_lists c (SurrealDB.backend w) s' result ->
  SurrealDB.get_episodes w
  = (SurrealDB.unwrap_episodes result,
     {| SurrealDB.self := SurrealDB.self w; SurrealDB.backend := s' |}).
Proof.
  intros Hc Ha. unfold SurrealDB.get_episodes.
  rewrite (run_bind_return _ _ _ _ _
             (surreal_require_client_connected w c Hc)).
  rewrite run_bind. unfold SurrealDB.call at 1.
  by destruct Ha as [-> | ->]; rewrite run_bind; cbn [maybe_await await];
    unfold ret, SurrealDB.lift.
Qed.

Lemma surreal_get_one_episode_answers w c episode_id s' result :
  SurrealDB.client (SurrealDB.self w) = Some c ->
  SurrealDB.answers c episode_id (SurrealDB.backend w) s' result ->
  SurrealDB.get_one_episode episode_id w
  = (SurrealDB.unwrap_one_episode result,
     {| SurrealDB.self := SurrealDB.self w; SurrealDB.backend := s' |}).
Proof.
  intros Hc Ha. unfold SurrealDB.get_one_episode.
  rewrite (run_bind_return _ _ _ _ _
             (surreal_require_client_connected w c Hc)).
  rewrite run_bind. unfold SurrealDB.call at 1.
  by destruct Ha as [-> | ->]; rewrite run_bind; cbn [maybe_await await];
    unfold ret, SurrealDB.lift.
Qed.

End SurrealDecode.

(** X20.  How the SurrealDB adapter decodes what the client hands back,
    for every client.  Only the first envelope is read, and its [status] is
    not: [get_episodes] returns whatever is under [result], and
    [get_one_episode] the first entry of a non-empty array under [result].
    When [result] holds a non-empty text instead of an array,
    [get_episodes] returns the text and [get_one_episode] its first
    character. *)
Theorem surreal_decodes_first_envelope :
  forall (server cli : Type) (api : SurrealDB.SurrealClientAPI server cli)
         (w : SurrealDB.world server cli) (c : cli)
         (envelope : pydict) (rest : list pyval) (s' : server),
    SurrealDB.client (SurrealDB.self w) = Some c ->
    (forall v,
        surreal_lists c (SurrealDB.backend w) s'
          (PList (PDict envelope :: rest)) ->
        envelope !! "result" = Some v ->
        get_episodes w
        = (Return v,
           {| SurrealDB.self := SurrealDB.self w;
              SurrealDB.backend := s' |}))
    /\ (forall episode_id first more,
           SurrealDB.answers c episode_id (SurrealDB.backend w) s'
             (PList (PDict envelope :: rest)) ->
           envelope !! "result" = Some (PList (first :: more)) ->
           get_one_episode episode_id w
           = (Return first,
              {| SurrealDB.self := SurrealDB.self w;
                 SurrealDB.backend := s' |}))
    /\ (forall episode_id a text,
           SurrealDB.answers c episode_id (SurrealDB.backend w) s'
             (PList (PDict envelope :: rest)) ->
           envelope !! "result" = Some (PStr (String a text)) ->
           get_one_episode episode_id w
           = (Return (PStr (String a EmptyString)),
              {| SurrealDB.self := SurrealDB.self w;
                 SurrealDB.backend := s' |})).
Proof.
  intros server cli api w c envelope rest s' Hc. split; [|split].
  - intros v Hl Hv.
    cbn [get_episodes SurrealDB.SurrealDBAdapter_interface].
    rewrite (surreal_get_episodes_lists w c s' _ Hc Hl).
    cbn [SurrealDB.unwrap_episodes SurrealDB.get_result]. by rewrite Hv.
  - intros episode_id first more Ha Hv.
    cbn [get_one_episode SurrealDB.SurrealDBAdapter_interface].
    rewrite (surreal_get_one_episode_answers w c episode_id s' _ Hc Ha).
    cbn [SurrealDB.unwrap_one_episode SurrealDB.get_result]. by rewrite Hv.
  - intros episode_id a text Ha Hv.
    cbn [get_one_episode SurrealDB.SurrealDBAdapter_interface].
    rewrite (surreal_get_one_episode_answers w c episode_id s' _ Hc Ha).
    cbn [SurrealDB.unwrap_one_episode SurrealDB.get_result]. by rewrite Hv.
Qed.

Lemma surreal_decodes_first_envelope_witness :
  get_one_episode "ep-1" SurrealScenario.result_world
  = (Return (PStr "r-1"),
     {| SurrealDB.self := SurrealDB.self SurrealScenario.result_world;
        SurrealDB.backend := SurrealScenario.result_server |}).
Proof.
  apply (proj1 (proj2 (surreal_decodes_first_envelope _ _ _
                         SurrealScenario.result_world
                         "ws://localhost:8001/rpc"
                         SurrealScenario.result_episode
                         [] SurrealScenario.result_server
                         eq_refl))
           "ep-1" (PStr "r-1") [PStr "r-2"]).
  - left. reflexivity.
  - reflexivity.
Defined.

(** ** Only close closes the native driver *)

Section Preserves.
Context {W X : Type} (f : W -> X).

Lemma preserves_ret {A} (a : A) : preserves f (mret a : M W A).
Proof. by intros w. Qed.

Lemma preserves_raise {A} e : preserves f (raise e : M W A).
Proof. by intros w. Qed.

Lemma preserves_gets {A} (g : W -> A) : preserves f (gets g).
Proof. by intros w. Qed.

Lemma preserves_modify (g : W -> W) :
  (forall w, f (g w) = f w) -> preserves f (modify g).
Proof. intros Hg w. apply Hg. Qed.

Lemma preserves_bind {A B} (m : M W A) (k : A -> M W B) :
  preserves f m -> (forall a, preserves f (k a)) -> preserves f (m ≫= k).
Proof.
  intros Hm Hk w. rewrite run_bind. specialize (Hm w).
  destruct (m w) as [[a|e] w1]; [|done]. cbn [snd] in Hm.
  by rewrite Hk.
Qed.

Lemma preserves_try {A} (body : M W A) catches handler :
  preserves f body -> (forall e, preserves f (handler e)) ->
  preserves f (try_except body catches handler).
Proof.
  intros Hb Hh w. unfold try_except. specialize (Hb w).
  destruct (body w) as [[a|e] w1]; [done|]. cbn [snd] in Hb.
  destruct (catches e); [|done]. by rewrite Hh.
Qed.

Lemma preserves_finally {A} (body : M W A) cleanup :
  preserves f body -> preserves f cleanup ->
  preserves f (finally_ body cleanup).
Proof.
  intros Hb Hc w. unfold finally_. specialize (Hb w).
  destruct (body w) as [r w1]. cbn [snd] in Hb. specialize (Hc w1).
  destruct (cleanup w1) as [[[]|e] w2]; cbn [snd] in *; congruence.
Qed.

Lemma preserves_maybe_await {A} (x : call_result A) :
  preserves f (maybe_await x : M W A).
Proof. intros w. by destruct x as [a|[a|e]]. Qed.

Lemma preserves_await {A} (x : call_result A) :
  preserves f (await x : M W A).
Proof. intros w. by destruct x as [a|[a|e]]. Qed.

End Preserves.

Section Neo4jCloses.
Context {server drv sess res : Type}.
Context (api : Neo4j.Neo4jDriverAPI server drv sess res).
#[local] Existing Instance Closes.neo4j_recording.
Local Abbreviation closed :=
  (Closes.neo4j_closed (server := server) (drv := drv)).

Lemma neo4j_quiet_closes_nothing {A} (g : server -> outcome A * server) :
  preserves closed (Neo4j.call (Closes.quiet g)).
Proof.
  intros w. unfold Neo4j.call, Closes.quiet, Closes.neo4j_closed.
  by destruct (g (Neo4j.backend w).1) as [r s'].
Qed.

Lemma neo4j_require_closes_nothing : preserves closed Neo4j.require_driver.
Proof.
  apply preserves_bind; [apply preserves_gets|].
  intros [d|]; [apply preserves_ret|apply preserves_raise].
Qed.

Lemma neo4j_with_session_closes_nothing {A} d
    (body : sess -> M (Neo4j.world (Closes.logged server drv) drv) A) :
  (forall session, preserves closed (body session)) ->
  preserves closed (Neo4j.with_session d body).
Proof.
  intros Hb. apply preserves_bind; [apply neo4j_quiet_closes_nothing|].
  intros session.
  apply preserves_finally; [apply Hb|apply neo4j_quiet_closes_nothing].
Qed.

Lemma neo4j_run_each_closes_nothing session stmts :
  preserves closed (Neo4j.run_each session stmts).
Proof.
  induction stmts as [|stmt stmts IH]; [apply preserves_ret|].
  cbn [Neo4j.run_each].
  apply preserves_bind; [apply neo4j_quiet_closes_nothing|by intros _].
Qed.

Lemma neo4j_connect_closes_nothing uri user password :
  preserves closed (Neo4j.connect uri user password).
Proof.
  apply preserves_try; [|intros e; apply preserves_raise].
  apply preserves_bind; [apply neo4j_quiet_closes_nothing|]. intros d.
  apply preserves_bind; [by apply preserves_modify|]. intros _.
  apply neo4j_with_session_closes_nothing. intros session.
  apply preserves_bind; [apply neo4j_quiet_closes_nothing|].
  intros _. apply preserves_ret.
Qed.

Lemma neo4j_operations_close_nothing w :
  keeps (GraphDBInterface0 := Closes.neo4j_adapter api) closed w.
Proof.
  repeat split.
  - intros q p. apply preserves_bind; [apply neo4j_require_closes_nothing|].
    intros d. apply preserves_try; [|intros e; apply preserves_raise].
    apply neo4j_with_session_closes_nothing. intros session.
    apply neo4j_quiet_closes_nothing.
  - apply neo4j_require_closes_nothing.
  - apply preserves_bind; [apply neo4j_require_closes_nothing|].
    intros d. apply neo4j_quiet_closes_nothing.
  - intros delete_existing.
    apply preserves_bind; [apply neo4j_require_closes_nothing|]. intros d.
    apply neo4j_with_session_closes_nothing. intros session.
    apply preserves_bind.
    + destruct delete_existing; [|apply preserves_ret].
      apply preserves_bind; [apply neo4j_quiet_closes_nothing|].
      intros _. apply preserves_ret.
    + intros _.
      apply preserves_bind; [apply neo4j_run_each_closes_nothing|].
      intros _. apply neo4j_run_each_closes_nothing.
  - apply preserves_bind; [apply neo4j_require_closes_nothing|]. intros d.
    apply neo4j_with_session_closes_nothing. intros session.
    apply preserves_bind; [apply neo4j_quiet_closes_nothing|].
    intros _. apply preserves_ret.
  - apply preserves_bind; [apply neo4j_require_closes_nothing|]. intros d.
    apply preserves_bind; [|intros episodes; apply preserves_ret].
    apply neo4j_with_session_closes_nothing. intros session.
    apply preserves_bind; [apply neo4j_quiet_closes_nothing|].
    intros result.
    apply preserves_bind; [apply neo4j_quiet_closes_nothing|].
    intros records. apply preserves_ret.
  - intros episode_id.
    apply preserves_bind; [apply neo4j_require_closes_nothing|]. intros d.
    apply neo4j_with_session_closes_nothing. intros session.
    apply preserves_bind; [apply neo4j_quiet_closes_nothing|].
    intros result.
    apply preserves_bind; [apply neo4j_quiet_closes_nothing|].
    intros records. apply preserves_ret.
Qed.

Lemma neo4j_close_closes_handle w :
  closed (snd (Neo4j.close w))
  = (closed w ++ option_list (Neo4j.driver (Neo4j.self w)))%list.
Proof.
  unfold Neo4j.close. rewrite run_bind. unfold gets.
  destruct (Neo4j.driver (Neo4j.self w)) as [d|];
    [|by rewrite app_nil_r].
  rewrite run_bind. unfold Neo4j.call.
  cbn [Neo4j.driver_close Closes.neo4j_recording]. unfold Closes.closing.
  by destruct (Neo4j.driver_close d (Neo4j.backend w).1) as [[[]|e] s'].
Qed.

End Neo4jCloses.

Section SurrealCloses.
Context {server cli : Type}.
Context (api : SurrealDB.SurrealClientAPI server cli).
#[local] Existing Instance Closes.surreal_recording.
Local Abbreviation was_closed :=
  (Closes.surreal_closed (server := server) (cli := cli)).

Lemma surreal_quiet_closes_nothing {A} (g : server -> outcome A * server) :
  preserves was_closed (SurrealDB.call (Closes.quiet g)).
Proof.
  intros w. unfold SurrealDB.call, Closes.quiet, Closes.surreal_closed.
  by destruct (g (SurrealDB.backend w).1) as [r s'].
Qed.

Lemma surreal_require_closes_nothing :
  preserves was_closed SurrealDB.require_client.
Proof.
  apply preserves_bind; [apply preserves_gets|].
  intros [c|]; [apply preserves_ret|apply preserves_raise].
Qed.

Lemma surreal_query_closes_nothing {B} c query params
    (k : pyval -> M (SurrealDB.world (Closes.logged server cli) cli) B) :
  (forall v, preserves was_closed (k v)) ->
  preserves was_closed
    (SurrealDB.call (SurrealDB.client_query c query params)
     ≫= fun r => maybe_await r ≫= k).
Proof.
  intros Hk. apply preserves_bind; [apply surreal_quiet_closes_nothing|].
  intros r. apply preserves_bind; [apply preserves_maybe_await|apply Hk].
Qed.

Lemma surreal_query_each_closes_nothing c queries :
  preserves was_closed (SurrealDB.query_each c queries).
Proof.
  induction queries as [|q queries IH]; [apply preserves_ret|].
  cbn [SurrealDB.query_each].
  apply surreal_query_closes_nothing. by intros _.
Qed.

Lemma surreal_clear_closes_nothing :
  preserves was_closed SurrealDB.clear_all_data.
Proof.
  apply preserves_bind; [apply surreal_require_closes_nothing|].
  intros c. apply surreal_query_each_closes_nothing.
Qed.

Lemma surreal_connect_closes_nothing uri user password ns db :
  preserves was_closed (SurrealDB.connect_scoped uri user password ns db).
Proof.
  apply preserves_try; [|intros e; apply preserves_raise].
  apply preserves_bind; [by apply preserves_modify|]. intros _.
  apply preserves_bind; [apply surreal_quiet_closes_nothing|]. intros c.
  apply preserves_bind; [by apply preserves_modify|]. intros _.
  apply preserves_try; [|intros e; apply preserves_raise].
  apply preserves_bind; [apply surreal_quiet_closes_nothing|]. intros r1.
  apply preserves_bind; [apply preserves_maybe_await|]. intros _.
  apply preserves_bind; [apply surreal_quiet_closes_nothing|]. intros r2.
  apply preserves_bind; [apply preserves_maybe_await|]. intros _.
  apply preserves_ret.
Qed.

Lemma surreal_operations_close_nothing w :
  keeps (GraphDBInterface0 := Closes.surreal_adapter api) was_closed w.
Proof.
  repeat split.
  - intros q p. apply preserves_bind; [apply surreal_require_closes_nothing|].
    intros c. apply preserves_try; [|intros e; apply preserves_raise].
    apply preserves_bind; [apply surreal_quiet_closes_nothing|].
    intros r. apply preserves_maybe_await.
  - apply surreal_require_closes_nothing.
  - apply surreal_require_closes_nothing.
  - intros delete_existing.
    apply preserves_bind; [apply surreal_require_closes_nothing|]. intros c.
    apply preserves_bind.
    + destruct delete_existing;
        [apply surreal_clear_closes_nothing|apply preserves_ret].
    + intros _. apply surreal_query_each_closes_nothing.
  - apply surreal_clear_closes_nothing.
  - apply preserves_bind; [apply surreal_require_closes_nothing|]. intros c.
    apply surreal_query_closes_nothing. by intros v w'.
  - intros episode_id.
    apply preserves_bind; [apply surreal_require_closes_nothing|]. intros c.
    apply surreal_query_closes_nothing. by intros v w'.
Qed.

Lemma surreal_close_closes_client w :
  was_closed (snd (SurrealDB.close w))
  = (was_closed w ++ option_list (SurrealDB.client (SurrealDB.self w)))%list.
Proof.
  unfold SurrealDB.close. rewrite run_bind. unfold gets.
  destruct (SurrealDB.client (SurrealDB.self w)) as [c|];
    [|by rewrite app_nil_r].
  rewrite run_bind. unfold SurrealDB.call.
  cbn [SurrealDB.client_close Closes.surreal_recording].
  unfold Closes.closing.
  by destruct (SurrealDB.client_close c (SurrealDB.backend w).1)
    as [[[[]|[[]|e]]|e] s'].
Qed.

End SurrealCloses.

(** X21.  Only [close] closes the native driver.  Over any driver, with
    every [close()] call on a driver or client noted: [connect] and the
    seven data operations close nothing, in any state, so a [connect] on an
    adapter that is already Connected replaces the handle and the driver it
    held is never closed; [close] calls [close()] exactly once on the handle
    the adapter holds, whether that call returns or raises, and on nothing
    when it holds none. *)
Theorem only_close_closes :
  (forall (server drv sess res : Type)
          (api : Neo4j.Neo4jDriverAPI server drv sess res)
          (w : Neo4j.world (Closes.logged server drv) drv),
      let recorded := Closes.neo4j_adapter api in
      (forall uri user password,
          Closes.neo4j_closed (snd (connect uri user password w))
          = Closes.neo4j_closed w)
      /\ keeps Closes.neo4j_closed w
      /\ Closes.neo4j_closed (snd (close w))
         = (Closes.neo4j_closed w
            ++ option_list (Neo4j.driver (Neo4j.self w)))%list)
  /\
  (forall (server cli : Type) (api : SurrealDB.SurrealClientAPI server cli)
          (w : SurrealDB.world (Closes.logged server cli) cli),
      let recorded := Closes.surreal_adapter api in
      (forall uri user password,
          Closes.surreal_closed (snd (connect uri user password w))
          = Closes.surreal_closed w)
      /\ keeps Closes.surreal_closed w
      /\ Closes.surreal_closed (snd (close w))
         = (Closes.surreal_closed w
            ++ option_list (SurrealDB.client (SurrealDB.self w)))%list).
Proof.
  split.
  - intros server drv sess res api w recorded.
    split; [|split].
    + intros uri user password.
      exact (neo4j_connect_closes_nothing api uri user password w).
    + exact (neo4j_operations_close_nothing api w).
    + exact (neo4j_close_closes_handle api w).
  - intros server cli api w recorded.
    split; [|split].
    + intros uri user password.
      exact (surreal_connect_closes_nothing api uri user password
               "graphiti" "graphiti" w).
    + exact (surreal_operations_close_nothing api w).
    + exact (surreal_close_closes_client api w).
Qed.
